(** * Sheet-structure inference: pattern detector and formula-range analyzer

    A shallow embedding of the two inference cores of the repository:

    - [detect_pattern] and [is_date] of [execution/extract_sheet_structure.py];
    - [normalize_formula], [extract_formula], [analyze_formula_ranges] and the
      formula-flow block of [analyze_column_types] of
      [execution/analyze_sheet_structure.py].

    Python [str] values are modelled as [string], one [ascii] per code point,
    so the development covers text whose code points are below 256.  Python
    [int]s that are lengths, counts or positions in a list are [nat]; row and
    column indices, which a caller passes in, are [Z] with Python's indexing
    rules.  Python [float]s are IEEE binary64 values, taken from the
    standard library's [SpecFloat]. *)

From Stdlib Require Import List ZArith Lia Bool Arith Ascii String SpecFloat Sorted.
Import ListNotations.
Open Scope string_scope.
Open Scope list_scope.

(** ** Python primitives *)

Module Py.

(** Exceptions the modelled code can raise. *)
Inductive exn : Type :=
| IndexError.

(** The outcome of a call: a value, or a raised exception. *)
Inductive result (A : Type) : Type :=
| Ok (a : A)
| Raise (e : exn).
Arguments Ok {A} a.
Arguments Raise {A} e.

Definition bind {A B : Type} (m : result A) (k : A -> result B) : result B :=
  match m with
  | Ok a => k a
  | Raise e => Raise e
  end.

Definition option_bind {A B : Type} (m : option A) (k : A -> option B) : option B :=
  match m with
  | Some a => k a
  | None => None
  end.

(** Truthiness of a string: [if v] holds for a non-empty string. *)
Definition truthy (s : string) : bool :=
  match s with
  | EmptyString => false
  | String _ _ => true
  end.

Definition code (c : ascii) : nat := nat_of_ascii c.

(** [\d] in a [str] pattern: the decimal digits; below code point 256 these
    are [0]-[9]. *)
Definition re_digit (c : ascii) : bool :=
  (48 <=? code c)%nat && (code c <=? 57)%nat.

(** [[A-Z]]. *)
Definition re_upper (c : ascii) : bool :=
  (65 <=? code c)%nat && (code c <=? 90)%nat.

(** The characters for which [str.isdigit] holds: the decimal digits and,
    below code point 256, the superscripts U+00B2, U+00B3 and U+00B9. *)
Definition isdigit_char (c : ascii) : bool :=
  re_digit c || (code c =? 178)%nat || (code c =? 179)%nat || (code c =? 185)%nat.

(** The characters [str.split()] splits on: U+0009-U+000D, U+001C-U+0020,
    U+0085 and U+00A0. *)
Definition isspace_char (c : ascii) : bool :=
  ((9 <=? code c)%nat && (code c <=? 13)%nat)
  || ((28 <=? code c)%nat && (code c <=? 32)%nat)
  || (code c =? 133)%nat || (code c =? 160)%nat.

Fixpoint str_all (p : ascii -> bool) (s : string) : bool :=
  match s with
  | EmptyString => true
  | String c s' => p c && str_all p s'
  end.

Fixpoint str_exists (p : ascii -> bool) (s : string) : bool :=
  match s with
  | EmptyString => false
  | String c s' => p c || str_exists p s'
  end.

(** [s.isdigit()]: at least one character, and all of them digits. *)
Definition isdigit (s : string) : bool :=
  truthy s && str_all isdigit_char s.

(** [s.replace(c, '')] for a one-character [c]. *)
Fixpoint remove_char (ch : ascii) (s : string) : string :=
  match s with
  | EmptyString => EmptyString
  | String c s' =>
      if Ascii.eqb c ch then remove_char ch s' else String c (remove_char ch s')
  end.

(** [ch in s]. *)
Definition contains_char (ch : ascii) (s : string) : bool :=
  str_exists (Ascii.eqb ch) s.

Fixpoint drop_while (p : ascii -> bool) (s : string) : string :=
  match s with
  | EmptyString => EmptyString
  | String c s' => if p c then drop_while p s' else s
  end.

Fixpoint take_while (p : ascii -> bool) (s : string) : string :=
  match s with
  | EmptyString => EmptyString
  | String c s' => if p c then String c (take_while p s') else EmptyString
  end.

(** [s.split()[0]]: the first whitespace-delimited word; [IndexError] when
    [s] holds nothing but whitespace, for then [s.split()] is empty. *)
Definition split_first (s : string) : result string :=
  let word := take_while (fun c => negb (isspace_char c)) (drop_while isspace_char s) in
  if truthy word then Ok word else Raise IndexError.

(** [s[:n]]. *)
Fixpoint str_take (n : nat) (s : string) : string :=
  match n, s with
  | S k, String c s' => String c (str_take k s')
  | _, _ => EmptyString
  end.

(** [l[i:j]] for [0 <= i <= j]. *)
Definition slice {A : Type} (l : list A) (i j : nat) : list A :=
  firstn (j - i) (skipn i l).

(** [range(0, stop, step)] for a positive [step]. *)
Definition range_step (stop step : nat) : list nat :=
  map (fun k => k * step) (seq 0 ((stop + step - 1) / step)).

(** [range(start, stop)] over naturals. *)
Definition range (start stop : nat) : list nat :=
  seq start (stop - start).

(** [range(start, stop)] over integers. *)
Definition zrange (start stop : Z) : list Z :=
  map (fun k => (start + Z.of_nat k)%Z) (seq 0 (Z.to_nat (stop - start))).

(** [l[i]] for an integer [i]: a negative index counts from the end, and an
    index outside the list raises [IndexError]. *)
Definition index {A : Type} (l : list A) (i : Z) : result A :=
  let j := if (i <? 0)%Z then (i + Z.of_nat (List.length l))%Z else i in
  if (j <? 0)%Z then Raise IndexError
  else match nth_error l (Z.to_nat j) with
       | Some a => Ok a
       | None => Raise IndexError
       end.

(** [list(dict.fromkeys(l))]: the distinct values in order of first
    occurrence.  [len(set(l))] is the length of this list. *)
Definition fromkeys (l : list string) : list string :=
  fold_left
    (fun seen v => if existsb (String.eqb v) seen then seen else seen ++ [v])
    l [].

(** [d[k] = d.get(k, 0) + 1] on a dict kept in insertion order: an existing
    key keeps its place. *)
Fixpoint dict_incr (k : string) (d : list (string * nat)) : list (string * nat) :=
  match d with
  | [] => [(k, 1)]
  | (k', n) :: d' =>
      if String.eqb k' k then (k', S n) :: d' else (k', n) :: dict_incr k d'
  end.

(** [max(d.items(), key=lambda x: x[1])]: the first item, in insertion order,
    whose count is largest; [None] stands for the empty dict. *)
Definition max_by_count (d : list (string * nat)) : option (string * nat) :=
  match d with
  | [] => None
  | item :: rest =>
      Some (fold_left
              (fun best it => if (snd best <? snd it)%nat then it else best)
              rest item)
  end.

(** *** Floats

    [float] is IEEE binary64.  [0.7] and [0.3] are the binary64 values the
    literals denote; [n * 0.7] converts the integer and multiplies, both with
    round-to-nearest-even; comparing an [int] with a [float] compares the two
    numbers exactly. *)

Definition prec : Z := 53.
Definition emax : Z := 1024.

Definition float_of_int (n : Z) : spec_float :=
  binary_normalize prec emax n 0 false.

Definition float_mul : spec_float -> spec_float -> spec_float :=
  SFmul prec emax.

(** 0.7 = 0x1.6666666666666p-1 *)
Definition float_0_7 : spec_float := S754_finite false 6305039478318694 (-53).

(** 0.3 = 0x1.3333333333333p-2 *)
Definition float_0_3 : spec_float := S754_finite false 5404319552844595 (-54).

(** [m ? x] for an integer [m] and a float [x]; [None] when [x] is a NaN. *)
Definition int_compare_float (m : Z) (x : spec_float) : option comparison :=
  match x with
  | S754_nan => None
  | S754_zero _ => Some (Z.compare m 0)
  | S754_infinity s => Some (if s then Gt else Lt)
  | S754_finite s mant e =>
      let v := if s then Zneg mant else Zpos mant in
      Some (if (0 <=? e)%Z then Z.compare m (v * 2 ^ e)
            else Z.compare (m * 2 ^ (- e)) v)%Z
  end.

(** [m >= x] *)
Definition int_ge_float (m : Z) (x : spec_float) : bool :=
  match int_compare_float m x with
  | Some (Gt | Eq) => true
  | _ => false
  end.

(** [m > x] *)
Definition int_gt_float (m : Z) (x : spec_float) : bool :=
  match int_compare_float m x with
  | Some Gt => true
  | _ => false
  end.

End Py.

Notation "x <- m ;; k" := (Py.bind m (fun x => k))
  (at level 61, m at next level, right associativity).

(** ** [execution/extract_sheet_structure.py] *)

Module Extract.
Import Py.

(** *** [is_date]

    The three patterns are anchored at both ends and are applied with
    [re.match].  Each is a sequence of digit groups and literal separators;
    a group [\d{1,2}] is followed by a separator that is not a digit, so the
    greedy choice (two digits when two are there) is the only one that can
    succeed and the matcher never has to backtrack. *)

(** One [\d]. *)
Definition eat_digit (s : string) : option string :=
  match s with
  | String c s' => if re_digit c then Some s' else None
  | EmptyString => None
  end.

(** One literal character. *)
Definition eat_char (ch : ascii) (s : string) : option string :=
  match s with
  | String c s' => if Ascii.eqb c ch then Some s' else None
  | EmptyString => None
  end.

(** [\d{1,2}] *)
Definition eat_digits_1_2 (s : string) : option string :=
  match eat_digit s with
  | None => None
  | Some s1 =>
      match eat_digit s1 with
      | Some s2 => Some s2
      | None => Some s1
      end
  end.

(** [\d{n}] *)
Fixpoint eat_digits (n : nat) (s : string) : option string :=
  match n with
  | O => Some s
  | S k => option_bind (eat_digit s) (eat_digits k)
  end.

(** [$]: the end of the string, or just before a newline that ends it. *)
Definition at_end (s : string) : bool :=
  match s with
  | EmptyString => true
  | String c EmptyString => Ascii.eqb c "010"
  | _ => false
  end.

Definition re_match (pattern : string -> option string) (s : string) : bool :=
  match pattern s with
  | Some rest => at_end rest
  | None => false
  end.

(** [^\d{1,2}/\d{1,2}/\d{4}$] *)
Definition date_slashes (s : string) : option string :=
  option_bind (eat_digits_1_2 s) (fun s =>
  option_bind (eat_char "/" s) (fun s =>
  option_bind (eat_digits_1_2 s) (fun s =>
  option_bind (eat_char "/" s) (fun s =>
  eat_digits 4 s)))).

(** [^\d{4}-\d{2}-\d{2}$] *)
Definition date_iso (s : string) : option string :=
  option_bind (eat_digits 4 s) (fun s =>
  option_bind (eat_char "-" s) (fun s =>
  option_bind (eat_digits 2 s) (fun s =>
  option_bind (eat_char "-" s) (fun s =>
  eat_digits 2 s)))).

(** [^\d{1,2}-\d{1,2}-\d{4}$] *)
Definition date_dashes (s : string) : option string :=
  option_bind (eat_digits_1_2 s) (fun s =>
  option_bind (eat_char "-" s) (fun s =>
  option_bind (eat_digits_1_2 s) (fun s =>
  option_bind (eat_char "-" s) (fun s =>
  eat_digits 4 s)))).

Definition date_patterns : list (string -> option string) :=
  [date_slashes; date_iso; date_dashes].

Definition is_date (value : string) : bool :=
  if negb (truthy value) then false
  else existsb (fun pattern => re_match pattern value) date_patterns.

(** *** [detect_pattern] *)

(** An entry of the [breaks] list. *)
Record Break : Type := {
  block_index : nat;
  position : nat;
  expected_template : list string;
  actual_values : list string
}.

(** The returned dict, one constructor per value of its ["type"] key:
    [empty], [all_empty], [single], [uniform], [repeating], [date_sequence],
    [varied_with_prefix], [list] and [varied].  The key [breaks] of a
    [repeating] result is optional; [None] is its absence. *)
Inductive PatternResult : Type :=
| Empty
| AllEmpty (count : nat)
| Single (value : string)
| Uniform (value : string) (count : nat)
| Repeating (block_size : nat) (template : list string)
            (repeat_count total_items : nat)
            (sample_first_block : list string)
            (breaks : option (list Break))
| DateSequence (count : nat) (first last : string) (sample : list string)
| VariedWithPrefix (common_prefix : string) (prefix_count total : nat)
                   (sample : list string)
| ListResult (values : list string) (total : nat)
| Varied (unique_count total : nat) (sample : list string).

(** [[v for v in values if v]] *)
Definition non_empty_of (values : list (option string)) : list string :=
  flat_map (fun v => match v with
                     | Some s => if truthy s then [s] else []
                     | None => []
                     end) values.

(** The body of the two template loops (the one over [blocks[0]] and the one
    over every later block). *)
Definition template_value (val : string) : string :=
  if is_date val then "<date>"
  else if truthy val && isdigit (remove_char "-" (remove_char "." val))
       then "<number>"
       else val.

Definition block_template (block : list string) : list string :=
  map template_value block.

(** The blocks of one block size: a slice per start position, kept when it is
    complete. *)
Definition make_blocks (block_size : nat) (non_empty : list string)
  : list (list string) :=
  filter (fun block => (List.length block =? block_size)%nat)
         (map (fun i => slice non_empty i (i + block_size))
              (range_step (List.length non_empty) block_size)).

Definition template_eqb (a b : list string) : bool :=
  if list_eq_dec string_dec a b then true else false.

(** The loop over [enumerate(blocks[1:], start=1)], threading
    [matching_blocks] and [breaks]. *)
Fixpoint check_blocks (block_size : nat) (template : list string) (idx : nat)
    (blocks : list (list string)) (matching_blocks : nat) (breaks : list Break)
  : nat * list Break :=
  match blocks with
  | [] => (matching_blocks, breaks)
  | block :: rest =>
      if template_eqb (block_template block) template
      then check_blocks block_size template (S idx) rest (S matching_blocks) breaks
      else check_blocks block_size template (S idx) rest matching_blocks
             (breaks ++ [{| block_index := idx;
                            position := idx * block_size;
                            expected_template := template;
                            actual_values := block |}])
  end.

(** [matching_blocks >= len(blocks) * 0.7] *)
Definition most_match (matching_blocks n_blocks : nat) : bool :=
  int_ge_float (Z.of_nat matching_blocks)
               (float_mul (float_of_int (Z.of_nat n_blocks)) float_0_7).

(** One iteration of the loop over block sizes: [Some] is its [return],
    [None] is going on to the next block size. *)
Definition try_block_size (non_empty : list string) (block_size : nat)
  : option PatternResult :=
  let blocks := make_blocks block_size non_empty in
  if (List.length blocks <? 2)%nat then None
  else match blocks with
       | [] => None
       | first_block :: others =>
           let template := block_template first_block in
           let '(matching_blocks, breaks) :=
             check_blocks block_size template 1 others 1 [] in
           if most_match matching_blocks (List.length blocks)
           then Some (Repeating block_size template (List.length blocks)
                                (List.length non_empty) first_block
                                (match breaks with
                                 | [] => None
                                 | _ :: _ => Some breaks
                                 end))
           else None
       end.

(** A [for] loop whose body may return. *)
Fixpoint first_return {A B : Type} (body : A -> option B) (l : list A) : option B :=
  match l with
  | [] => None
  | a :: rest =>
      match body a with
      | Some b => Some b
      | None => first_return body rest
      end
  end.

(** [for block_size in range(1, min(11, len(non_empty) // 2 + 1))] *)
Definition block_sizes (non_empty : list string) : list nat :=
  range 1 (Nat.min 11 (List.length non_empty / 2 + 1)).

Definition repeating_search (non_empty : list string) : option PatternResult :=
  first_return (try_block_size non_empty) (block_sizes non_empty).

(** [date_count > len(non_empty) * 0.7] *)
Definition mostly_dates (non_empty : list string) : bool :=
  let date_count := List.length (filter is_date non_empty) in
  int_gt_float (Z.of_nat date_count)
               (float_mul (float_of_int (Z.of_nat (List.length non_empty))) float_0_7).

(** The prefix of one value. *)
Definition value_prefix (val : string) : result string :=
  if contains_char " " val then split_first val
  else Ok (str_take (Nat.min 5 (String.length val)) val).

(** The loop that fills [prefixes]. *)
Fixpoint count_prefixes (non_empty : list string) (prefixes : list (string * nat))
  : result (list (string * nat)) :=
  match non_empty with
  | [] => Ok prefixes
  | val :: rest =>
      prefix <- value_prefix val ;;
      count_prefixes rest (dict_incr prefix prefixes)
  end.

(** [dominant[1] > len(non_empty) * 0.3] *)
Definition dominates (dominant : string * nat) (non_empty : list string) : bool :=
  int_gt_float (Z.of_nat (snd dominant))
               (float_mul (float_of_int (Z.of_nat (List.length non_empty))) float_0_3).

(** The common-prefix block: [Some] is its [return]. *)
Definition prefix_check (non_empty : list string) : result (option PatternResult) :=
  if (5 <? List.length non_empty)%nat then
    prefixes <- count_prefixes non_empty [] ;;
    match max_by_count prefixes with
    | Some dominant =>
        if dominates dominant non_empty
        then Ok (Some (VariedWithPrefix (fst dominant) (snd dominant)
                                        (List.length non_empty)
                                        (firstn 5 non_empty)))
        else Ok None
    | None => Ok None
    end
  else Ok None.

Definition detect_pattern (values : list (option string)) : result PatternResult :=
  match values with
  | [] => Ok Empty
  | _ :: _ =>
      let non_empty := non_empty_of values in
      if (List.length non_empty =? 0)%nat then Ok (AllEmpty (List.length values))
      else if (List.length non_empty =? 1)%nat then Ok (Single (hd "" non_empty))
      else if (List.length (fromkeys non_empty) =? 1)%nat
           then Ok (Uniform (hd "" non_empty) (List.length values))
      else
        match repeating_search non_empty with
        | Some r => Ok r
        | None =>
            if (3 <=? List.length non_empty)%nat && mostly_dates non_empty
            then Ok (DateSequence (List.length non_empty)
                                  (hd "" non_empty) (last non_empty "")
                                  (firstn 5 non_empty))
            else
              found <- prefix_check non_empty ;;
              match found with
              | Some r => Ok r
              | None =>
                  let unique := fromkeys non_empty in
                  if (List.length unique <=? 20)%nat
                  then Ok (ListResult unique (List.length values))
                  else Ok (Varied (List.length unique) (List.length values)
                                  (firstn 10 non_empty))
              end
        end
  end.

End Extract.

(** ** [execution/analyze_sheet_structure.py] *)

Module Analyze.
Import Py.

(** *** [normalize_formula]

    Each of the four patterns is built from [\$], [[A-Z]+] and [\d+].  A
    greedy [[A-Z]+] takes the whole run of capitals; giving one back would
    leave a capital where the pattern goes on with [\$] or a digit, so the
    match is decided by the maximal runs.  A matcher returns the length of
    the match at the head of the string, which is never zero. *)

(** The length of the longest prefix whose characters satisfy [p]. *)
Fixpoint run (p : ascii -> bool) (s : string) : nat :=
  match s with
  | String c s' => if p c then S (run p s') else 0
  | EmptyString => 0
  end.

Fixpoint drop (n : nat) (s : string) : string :=
  match n, s with
  | S k, String _ s' => drop k s'
  | _, _ => s
  end.

(** [[A-Z]+\d+] *)
Definition match_rel (s : string) : option nat :=
  let letters := run re_upper s in
  let digits := run re_digit (drop letters s) in
  if (0 <? letters)%nat && (0 <? digits)%nat then Some (letters + digits) else None.

(** [[A-Z]+\$\d+] *)
Definition match_row_abs (s : string) : option nat :=
  let letters := run re_upper s in
  match drop letters s with
  | String "$" rest =>
      let digits := run re_digit rest in
      if (0 <? letters)%nat && (0 <? digits)%nat
      then Some (letters + 1 + digits) else None
  | _ => None
  end.

(** [\$[A-Z]+\d+] *)
Definition match_col_abs (s : string) : option nat :=
  match s with
  | String "$" rest => option_map S (match_rel rest)
  | _ => None
  end.

(** [\$[A-Z]+\$\d+] *)
Definition match_abs (s : string) : option nat :=
  match s with
  | String "$" rest => option_map S (match_row_abs rest)
  | _ => None
  end.

(** [re.sub(pattern, repl, s)] for a pattern that matches no empty string and
    a replacement without escapes: scanning from the left, a match at the
    current position is replaced and the scan resumes after it; otherwise
    the character is copied.  [skip] counts the characters of the match just
    replaced that are still to be passed over. *)
Fixpoint re_sub_from (pattern : string -> option nat) (repl : string)
    (skip : nat) (s : string) : string :=
  match s with
  | EmptyString => EmptyString
  | String c s' =>
      match skip with
      | S k => re_sub_from pattern repl k s'
      | O =>
          match pattern s with
          | Some (S k) => (repl ++ re_sub_from pattern repl k s')%string
          | _ => String c (re_sub_from pattern repl 0 s')
          end
      end
  end.

Definition re_sub (pattern : string -> option nat) (repl s : string) : string :=
  re_sub_from pattern repl 0 s.

Definition normalize_formula (formula : string) : string :=
  if negb (truthy formula) then ""
  else
    let normalized := re_sub match_abs "{ABS}" formula in
    let normalized := re_sub match_col_abs "{COL_ABS}" normalized in
    let normalized := re_sub match_row_abs "{ROW_ABS}" normalized in
    let normalized := re_sub match_rel "{REL}" normalized in
    normalized.

(** *** The grid

    Of a cell only the keys read by the formula analysis are kept: a row may
    have a [values] list, a cell a [userEnteredValue], and that a
    [formulaValue]. *)

Record UserEnteredValue : Type := { formulaValue : option string }.
Record Cell : Type := { userEnteredValue : option UserEnteredValue }.
Record Row : Type := { values : option (list Cell) }.

Definition extract_formula (cell_data : Cell) : option string :=
  match userEnteredValue cell_data with
  | Some user_value => formulaValue user_value
  | None => None
  end.

(** [formula = extract_formula(cell)] followed by [if formula:]: the formula
    when there is one and it is not the empty string. *)
Definition formula_of (cell : Cell) : option string :=
  match extract_formula cell with
  | Some formula => if truthy formula then Some formula else None
  | None => None
  end.

(** *** [analyze_formula_ranges] *)

Record FormulaRange : Type := {
  start_row : Z;
  end_row : Z;
  pattern : string;
  first_formula : string;
  formula_count : nat;
  formulas : list string
}.

Definition new_range (row_idx : Z) (pat formula : string) : FormulaRange :=
  {| start_row := row_idx;
     end_row := row_idx;
     pattern := pat;
     first_formula := formula;
     formula_count := 1;
     formulas := [formula] |}.

(** "Continue current range". *)
Definition extend_range (r : FormulaRange) (row_idx : Z) (formula : string)
  : FormulaRange :=
  {| start_row := start_row r;
     end_row := row_idx;
     pattern := pattern r;
     first_formula := first_formula r;
     formula_count := formula_count r + 1;
     formulas := if (List.length (formulas r) <? 3)%nat
                 then formulas r ++ [formula] else formulas r |}.

(** The loop state: [ranges] and [current_range]. *)
Definition scan_state : Type := (list FormulaRange * option FormulaRange)%type.

(** A break: the open range, if any, is saved. *)
Definition save_current (st : scan_state) : scan_state :=
  match snd st with
  | Some current_range => (fst st ++ [current_range], None)
  | None => st
  end.

(** A row with a formula. *)
Definition on_formula (st : scan_state) (row_idx : Z) (formula : string)
  : scan_state :=
  let pat := normalize_formula formula in
  match snd st with
  | None => (fst st, Some (new_range row_idx pat formula))
  | Some current_range =>
      if String.eqb (pattern current_range) pat
      then (fst st, Some (extend_range current_range row_idx formula))
      else (fst st ++ [current_range], Some (new_range row_idx pat formula))
  end.

(** The body of the loop over [row_idx]. *)
Definition scan_row (row_data : list Row) (col_idx : Z) (st : scan_state)
    (row_idx : Z) : result scan_state :=
  row <- index row_data row_idx ;;
  match values row with
  | Some row_values =>
      if (col_idx <? Z.of_nat (List.length row_values))%Z then
        cell <- index row_values col_idx ;;
        match formula_of cell with
        | Some formula => Ok (on_formula st row_idx formula)
        | None => Ok (save_current st)
        end
      else Ok (save_current st)
  | None => Ok (save_current st)
  end.

Fixpoint scan_rows (row_data : list Row) (col_idx : Z) (rows : list Z)
    (st : scan_state) : result scan_state :=
  match rows with
  | [] => Ok st
  | row_idx :: rest =>
      st' <- scan_row row_data col_idx st row_idx ;;
      scan_rows row_data col_idx rest st'
  end.

Definition analyze_formula_ranges (row_data : list Row) (col_idx start_row : Z)
  : result (list FormulaRange) :=
  st <- scan_rows row_data col_idx
          (zrange start_row (Z.of_nat (List.length row_data))) ([], None) ;;
  Ok (fst (save_current st)).

(** *** The formula-flow block of [analyze_column_types] *)

(** The optional keys [break_after], [continues_at_row] and [break_size] of a
    flow entry, which are set together. *)
Record BreakInfo : Type := {
  break_after : bool;
  continues_at_row : Z;
  break_size : Z
}.

(** An entry of [formula_flow]; its [start_row], [end_row], [pattern] and
    [first_formula] keys carry the prefix [flow_] here. *)
Record FlowEntry : Type := {
  flow_start_row : Z;
  flow_end_row : Z;
  row_count : nat;
  flow_pattern : string;
  flow_first_formula : string;
  examples : list string;
  flow_break : option BreakInfo
}.

(** Whether the row [check_row_data] has a cell at [col_idx] with a formula. *)
Definition has_formula (check_row_data : Row) (col_idx : Z) : result bool :=
  match values check_row_data with
  | Some row_values =>
      if (col_idx <? Z.of_nat (List.length row_values))%Z then
        check_cell <- index row_values col_idx ;;
        Ok (match formula_of check_cell with Some _ => true | None => false end)
      else Ok false
  | None => Ok false
  end.

(** The look-ahead loop over [check_row]; its result is [next_formula_row]. *)
Fixpoint look_ahead (row_data : list Row) (col_idx : Z) (check_rows : list Z)
  : result (option Z) :=
  match check_rows with
  | [] => Ok None
  | check_row :: rest =>
      if (check_row <? Z.of_nat (List.length row_data))%Z then
        check_row_data <- index row_data check_row ;;
        found <- has_formula check_row_data col_idx ;;
        if found then Ok (Some (check_row + 1)%Z)
        else look_ahead row_data col_idx rest
      else look_ahead row_data col_idx rest
  end.

(** The body of the loop over [formula_ranges]. *)
Definition flow_entry (row_data : list Row) (col_idx : Z) (range_info : FormulaRange)
  : result FlowEntry :=
  let len := Z.of_nat (List.length row_data) in
  let flow_end := (end_row range_info + 1)%Z in
  brk <- (if (end_row range_info <? len - 1)%Z then
            next_formula_row <-
              look_ahead row_data col_idx
                (zrange (end_row range_info + 1) (Z.min (end_row range_info + 10) len)) ;;
            match next_formula_row with
            | Some next =>
                if (next =? 0)%Z then Ok None
                else Ok (Some {| break_after := true;
                                 continues_at_row := next;
                                 break_size := (next - flow_end - 1)%Z |})
            | None => Ok None
            end
          else Ok None) ;;
  Ok {| flow_start_row := (start_row range_info + 1)%Z;
        flow_end_row := flow_end;
        row_count := formula_count range_info;
        flow_pattern := pattern range_info;
        flow_first_formula := first_formula range_info;
        examples := firstn 3 (formulas range_info);
        flow_break := brk |}.

Fixpoint formula_flow (row_data : list Row) (col_idx : Z)
    (formula_ranges : list FormulaRange) : result (list FlowEntry) :=
  match formula_ranges with
  | [] => Ok []
  | range_info :: rest =>
      entry <- flow_entry row_data col_idx range_info ;;
      entries <- formula_flow row_data col_idx rest ;;
      Ok (entry :: entries)
  end.

(** The [formulas] list of a column: the formulas met from [start_row] on. *)
Fixpoint column_formulas (row_data : list Row) (col_idx : Z) (rows : list Z)
  : result (list string) :=
  match rows with
  | [] => Ok []
  | row_idx :: rest =>
      row <- index row_data row_idx ;;
      here <- match values row with
              | Some row_values =>
                  if (col_idx <? Z.of_nat (List.length row_values))%Z then
                    cell <- index row_values col_idx ;;
                    Ok (match formula_of cell with
                        | Some formula => [formula]
                        | None => []
                        end)
                  else Ok []
              | None => Ok []
              end ;;
      later <- column_formulas row_data col_idx rest ;;
      Ok (here ++ later)
  end.

(** What [analyze_column_types] stores under [formula_flow] for one column;
    [None] when the column has no formula and the key is not set. *)
Definition column_formula_flow (row_data : list Row) (col_idx start_row : Z)
  : result (option (list FlowEntry)) :=
  fs <- column_formulas row_data col_idx
          (zrange start_row (Z.of_nat (List.length row_data))) ;;
  match fs with
  | [] => Ok None
  | _ :: _ =>
      formula_ranges <- analyze_formula_ranges row_data col_idx start_row ;;
      flow <- formula_flow row_data col_idx formula_ranges ;;
      Ok (Some flow)
  end.

End Analyze.

(** ** The formula keys of a column's entry, in [analyze_column_types] of
    [execution/analyze_sheet_structure.py] *)

Module Report.
Import Py Analyze.

(** The keys [formula_count], [formula_ranges] and [formula_flow], which
    are set together. *)
Record FormulaKeys : Type := {
  column_formula_count : nat;
  column_formula_ranges : nat;
  column_formula_flow_key : list FlowEntry
}.

(** The block under [if formulas:]; [None] when the column has no formula
    and the keys are not set. *)
Definition formula_keys (row_data : list Row) (col_idx start_row : Z)
  : result (option FormulaKeys) :=
  fs <- column_formulas row_data col_idx
          (zrange start_row (Z.of_nat (List.length row_data))) ;;
  match fs with
  | [] => Ok None
  | _ :: _ =>
      formula_ranges <- analyze_formula_ranges row_data col_idx start_row ;;
      flow <- formula_flow row_data col_idx formula_ranges ;;
      Ok (Some {| column_formula_count := List.length fs;
                  column_formula_ranges := List.length formula_ranges;
                  column_formula_flow_key := flow |})
  end.

End Report.

(** ** [extract_spreadsheet_id], which is the same in
    [execution/analyze_sheet_structure.py],
    [execution/extract_sheet_structure.py] and
    [execution/extract_sheet_data.py] *)

Module Ident.
Import Py.

(** [[a-z]]. *)
Definition re_lower (c : ascii) : bool :=
  (97 <=? code c)%nat && (code c <=? 122)%nat.

(** [[a-zA-Z0-9-_]]: the three ranges, [-] and [_]. *)
Definition id_char (c : ascii) : bool :=
  re_lower c || re_upper c || re_digit c || Ascii.eqb c "-" || Ascii.eqb c "_".

(** The rest of [s] after the literal [prefix], when [s] starts with it. *)
Fixpoint starts_with (prefix s : string) : option string :=
  match prefix with
  | EmptyString => Some s
  | String p prefix' =>
      match s with
      | String c s' => if Ascii.eqb c p then starts_with prefix' s' else None
      | EmptyString => None
      end
  end.

(** [/spreadsheets/d/([a-zA-Z0-9-_]+)] at the head of [s]: group 1 of the
    match.  The group is greedy and nothing follows it, so it is the whole
    run of identifier characters. *)
Definition pattern (s : string) : option string :=
  match starts_with "/spreadsheets/d/" s with
  | Some rest =>
      let group := take_while id_char rest in
      if truthy group then Some group else None
  | None => None
  end.

(** [re.search]: the match at the leftmost position that has one. *)
Fixpoint re_search (pattern : string -> option string) (s : string) : option string :=
  match pattern s with
  | Some group => Some group
  | None =>
      match s with
      | String _ s' => re_search pattern s'
      | EmptyString => None
      end
  end.

(** [s.rstrip()]. *)
Fixpoint rstrip (s : string) : string :=
  match s with
  | EmptyString => EmptyString
  | String c s' =>
      let t := rstrip s' in
      if isspace_char c && negb (truthy t) then EmptyString else String c t
  end.

(** [s.strip()]. *)
Definition strip (s : string) : string := rstrip (drop_while isspace_char s).

Definition extract_spreadsheet_id (url_or_id : string) : string :=
  match re_search pattern url_or_id with
  | Some group => group
  | None => strip url_or_id
  end.

(** [f"https://docs.google.com/spreadsheets/d/{spreadsheet_id}"], the
    [spreadsheet_url] of the reports. *)
Definition spreadsheet_url (spreadsheet_id : string) : string :=
  "https://docs.google.com/spreadsheets/d/" ++ spreadsheet_id.

End Ident.

(** ** Cell metadata in [execution/analyze_sheet_structure.py].
    The keys of a cell that [get_cell_type] and [extract_dropdown_options]
    read besides [userEnteredValue]: [dataValidation] with its [condition],
    and [effectiveValue].  A key that may be absent is an [option]. *)

Module Cells.
Import Py.

(** An entry of [condition['values']]. *)
Record ConditionValue : Type := { userEnteredValue : option string }.

Record Condition : Type := {
  type : option string;
  values : option (list ConditionValue)
}.

Record DataValidation : Type := { condition : option Condition }.

Record EffectiveValue : Type := {
  numberValue : option spec_float;
  stringValue : option string;
  boolValue : option bool
}.

Record CellData : Type := {
  dataValidation : option DataValidation;
  userEntered : option Analyze.UserEnteredValue;
  effectiveValue : option EffectiveValue
}.

(** The cell as the formula analysis sees it. *)
Definition cell_of (cell_data : CellData) : Analyze.Cell :=
  {| Analyze.userEnteredValue := userEntered cell_data |}.

(** [d.get(key, default)]. *)
Definition get {A : Type} (key : option A) (default : A) : A :=
  match key with
  | Some a => a
  | None => default
  end.

(** The checks on [dataValidation]: [Some] is a [return]. *)
Definition validation_type (cell_data : CellData) : option string :=
  match dataValidation cell_data with
  | Some validation =>
      match condition validation with
      | Some cond =>
          let condition_type := get (type cond) "" in
          if String.eqb condition_type "BOOLEAN" then Some "checkbox"
          else if existsb (String.eqb condition_type) ["ONE_OF_RANGE"; "ONE_OF_LIST"]
               then Some "dropdown"
          else None
      | None => None
      end
  | None => None
  end.

(** The check on [userEnteredValue]. *)
Definition formula_type (cell_data : CellData) : option string :=
  match userEntered cell_data with
  | Some user_value =>
      match Analyze.formulaValue user_value with
      | Some _ => Some "formula"
      | None => None
      end
  | None => None
  end.

(** The checks on [effectiveValue]. *)
Definition plain_type (cell_data : CellData) : option string :=
  match effectiveValue cell_data with
  | Some effective =>
      match numberValue effective, stringValue effective, boolValue effective with
      | Some _, _, _ => Some "number"
      | None, Some _, _ => Some "text"
      | None, None, Some _ => Some "boolean"
      | None, None, None => None
      end
  | None => None
  end.

Definition get_cell_type (cell_data : CellData) : string :=
  match validation_type cell_data with
  | Some t => t
  | None =>
      match formula_type cell_data with
      | Some t => t
      | None =>
          match plain_type cell_data with
          | Some t => t
          | None => "empty"
          end
      end
  end.

Definition extract_dropdown_options (cell_data : CellData) : option (list string) :=
  match dataValidation cell_data with
  | Some validation =>
      match condition validation with
      | Some cond =>
          match type cond with
          | Some t =>
              if existsb (String.eqb t) ["ONE_OF_LIST"] then
                match values cond with
                | Some vs => Some (map (fun v => get (userEnteredValue v) "") vs)
                | None => None
                end
              else None
          | None => None
          end
      | None => None
      end
  | None => None
  end.

End Cells.

Import Py Extract Analyze.

(** * Vocabulary of the statements *)

(** ** Example inputs *)

Definition quarters_with_cost : list (option string) :=
  [Some "Q1"; Some "Rev"; Some "Q1"; Some "Rev"; Some "Q1"; Some "Cost"].

Definition quarters : list (option string) :=
  [Some "Q1"; Some "Rev"; Some "Q1"; Some "Rev"; Some "Q1"; Some "Rev"].

Definition three_days : list (option string) :=
  [Some "2024-01-01"; Some "2024-01-02"; Some "2024-01-03"].

(** Six headers, the first of which is a single space. *)
Definition blank_header : list (option string) :=
  [Some " "; Some "a"; Some "b"; Some "c"; Some "d"; Some "e"].

(** Four pairs, the last of which departs from the other three. *)
Definition pairs_with_break : list (option string) :=
  [Some "a"; Some "b"; Some "a"; Some "b"; Some "a"; Some "b"; Some "a"; Some "c"].

Definition with_formula (f : string) : Row :=
  {| values := Some [{| userEnteredValue := Some {| formulaValue := Some f |} |}] |}.

Definition without_formula : Row :=
  {| values := Some [{| userEnteredValue := None |}] |}.

(** Quarterly readings: a label, a date and a number per quarter; the third
    quarter has a note in the place of the number, and a label is left over
    at the end. *)
Definition quarterly_readings : list (option string) :=
  [Some "Q1"; Some "1/2/2024"; Some "10";
   Some "Q1"; Some "2024-02-01"; Some "-2.5";
   Some "Q1"; Some "3-4-2024"; Some "n/a";
   Some "Q1"; Some "2024-04-01"; Some "7";
   Some "Q1"].

(** A one-column grid: formulas of one shape in rows 1 to 5, no formula in
    row 6, formulas of another shape in rows 7 and 8. *)
Definition gap_column : list Row :=
  [with_formula "=A1"; with_formula "=A2"; with_formula "=A3";
   with_formula "=A4"; with_formula "=A5"; without_formula;
   with_formula "=$B7"; with_formula "=$B8"].

(** A one-column grid with a formula in row 1 only: row 2 has a cell without
    a formula, row 3 has no [values] and row 4 has no cell at all. *)
Definition plain_column : list Row :=
  [with_formula "=A1"; without_formula; {| values := None |}; {| values := Some [] |}].

(** ** Repeating blocks, in the words of the specification *)

(** The complete consecutive chunks of size [b]; a trailing partial chunk is
    dropped. *)
Definition chunks (b : nat) (l : list string) : list (list string) :=
  map (fun k => firstn b (skipn (k * b) l)) (seq 0 (List.length l / b)).

Definition chunk_matches (template : list string) (chunk : list string) : bool :=
  template_eqb (block_template chunk) template.

(** The template of the first chunk. *)
Definition first_template (b : nat) (l : list string) : list string :=
  block_template (hd [] (chunks b l)).

(** How many chunks have the template of the first one. *)
Definition matching_chunks (b : nat) (l : list string) : nat :=
  List.length (filter (chunk_matches (first_template b l)) (chunks b l)).

(** The matching chunks are at least 70% of all chunks. *)
Definition accepts (b : nat) (l : list string) : bool :=
  (7 * List.length (chunks b l) <=? 10 * matching_chunks b l)%nat.

(** A [Break] for every chunk of [cs] that does not match, the chunks being
    numbered from [idx]. *)
Definition breaks_from (b : nat) (template : list string) (idx : nat)
    (cs : list (list string)) : list Break :=
  flat_map (fun kc =>
              if chunk_matches template (snd kc) then []
              else [{| block_index := fst kc;
                       position := fst kc * b;
                       expected_template := template;
                       actual_values := snd kc |}])
           (combine (seq idx (List.length cs)) cs).

Definition chunk_breaks (b : nat) (l : list string) : list Break :=
  breaks_from b (first_template b l) 0 (chunks b l).

(** The [repeating] result for block size [b]. *)
Definition repeating_result (b : nat) (l : list string) : PatternResult :=
  Repeating b (first_template b l) (List.length (chunks b l)) (List.length l)
            (hd [] (chunks b l))
            (match chunk_breaks b l with
             | [] => None
             | _ :: _ => Some (chunk_breaks b l)
             end).

(** ** Templates, in the words of the specification *)

(** The numeric shape: once every [.] and every [-] is removed, what remains
    is not empty and is all digits. *)
Definition numeric_shape (v : string) : bool :=
  isdigit (remove_char "-" (remove_char "." v)).

(** The template of one element: [<date>] for a date shape, [<number>] for
    a numeric shape, the element itself otherwise. *)
Definition element_template (v : string) : string :=
  if is_date v then "<date>"
  else if numeric_shape v then "<number>"
  else v.

(** The template of a chunk: the template of each of its elements. *)
Definition chunk_template (chunk : list string) : list string :=
  map element_template chunk.

(** The number of complete chunks of size [b]. *)
Definition chunk_count (b : nat) (l : list string) : nat := List.length l / b.

(** The chunk number [k], counted from 0. *)
Definition chunk_at (b : nat) (l : list string) (k : nat) : list string :=
  firstn b (skipn (k * b) l).

(** The chunk number [k] has the template of the first chunk. *)
Definition same_template (b : nat) (l : list string) (k : nat) : bool :=
  if list_eq_dec string_dec (chunk_template (chunk_at b l k))
                 (chunk_template (chunk_at b l 0))
  then true else false.

(** How many chunks have the template of the first chunk, itself included. *)
Definition matching_count (b : nat) (l : list string) : nat :=
  List.length (filter (same_template b l) (seq 0 (chunk_count b l))).

(** The matching chunks are at least 70% of all chunks. *)
Definition reaches_threshold (b : nat) (l : list string) : bool :=
  (7 * chunk_count b l <=? 10 * matching_count b l)%nat.

(** The break entry of the chunk number [k]. *)
Definition break_at (b : nat) (l : list string) (k : nat) : Break :=
  {| block_index := k;
     position := k * b;
     expected_template := chunk_template (chunk_at b l 0);
     actual_values := chunk_at b l k |}.

(** A break entry for every chunk whose template is not that of the first
    chunk, in order. *)
Definition expected_breaks (b : nat) (l : list string) : list Break :=
  map (break_at b l)
      (filter (fun k => negb (same_template b l k)) (seq 0 (chunk_count b l))).

(** The [Repeating] result for block size [b]; the key [breaks] is absent
    when every chunk matches. *)
Definition expected_result (b : nat) (l : list string) : PatternResult :=
  Repeating b (chunk_template (chunk_at b l 0)) (chunk_count b l) (List.length l)
            (chunk_at b l 0)
            (match expected_breaks b l with
             | [] => None
             | _ :: _ => Some (expected_breaks b l)
             end).

Definition is_repeating (r : PatternResult) : bool :=
  match r with
  | Repeating _ _ _ _ _ _ => true
  | _ => false
  end.

(** The break entries of a result; none when the key is absent. *)
Definition breaks_of (r : PatternResult) : list Break :=
  match r with
  | Repeating _ _ _ _ _ (Some brs) => brs
  | _ => []
  end.

(** The values on which the common-prefix block raises: they contain a space
    and nothing but whitespace. *)
Definition blank_with_space (v : string) : bool :=
  contains_char " " v && str_all isspace_char v.

(** ** Formula signatures *)

(** The four substitutions of [normalize_formula], in order. *)
Definition passes : list ((string -> option nat) * string) :=
  [(match_abs, "{ABS}"); (match_col_abs, "{COL_ABS}");
   (match_row_abs, "{ROW_ABS}"); (match_rel, "{REL}")].

(** Some capital is directly followed by a digit. *)
Fixpoint has_rel (s : string) : bool :=
  match s with
  | String a t =>
      match t with
      | String b _ => (re_upper a && re_digit b) || has_rel t
      | EmptyString => false
      end
  | EmptyString => false
  end.

(** Some capital is directly followed by [$] and a digit. *)
Fixpoint has_row_abs (s : string) : bool :=
  match s with
  | String a t =>
      match t with
      | String "$" (String d _) => (re_upper a && re_digit d) || has_row_abs t
      | _ => has_row_abs t
      end
  | EmptyString => false
  end.

(** A matcher that never looks past an opening brace, and whose match lies
    within the string. *)
Definition brace_blind (m : string -> option nat) : Prop :=
  (forall a t, m (a ++ String "{" t)%string = m a) /\
  (forall s n, m s = Some n -> n <= String.length s).

(** ** Runs of formulas in a column *)

Section RunVocabulary.
Local Open Scope Z_scope.

(** The formula of row [i] in column [col_idx], for non-negative indices:
    [None] when the row has no [values], no cell at [col_idx], or a cell
    without a non-empty formula. *)
Definition formula_at (row_data : list Row) (col_idx i : Z) : option string :=
  match nth_error row_data (Z.to_nat i) with
  | Some row =>
      match values row with
      | Some row_values =>
          match nth_error row_values (Z.to_nat col_idx) with
          | Some cell => formula_of cell
          | None => None
          end
      | None => None
      end
  | None => None
  end.

(** The effect of one row on the loop state, given the formulas [F] of the
    column. *)
Definition scan_step (F : Z -> option string) (st : scan_state) (i : Z)
  : scan_state :=
  match F i with
  | Some f => on_formula st i f
  | None => save_current st
  end.

(** The saved ranges followed by the open one. *)
Definition open_list (st : scan_state) : list FormulaRange :=
  fst st ++ match snd st with Some c => [c] | None => [] end.

(** [a] ends before [b] starts. *)
Definition before (a b : FormulaRange) : Prop := end_row a < start_row b.

(** Row [i] has a formula of the signature of [r]. *)
Definition has_pattern (F : Z -> option string) (r : FormulaRange) (i : Z) : Prop :=
  exists f, F i = Some f /\ normalize_formula f = pattern r.

(** Row [i] has no formula of the signature of [r]. *)
Definition differs_at (F : Z -> option string) (r : FormulaRange) (i : Z) : Prop :=
  forall f, F i = Some f -> normalize_formula f <> pattern r.

(** [r] is a run of one signature among the rows [lo .. k-1], maximal to the
    left, with its bookkeeping fields in order. *)
Definition run_upto (F : Z -> option string) (lo k : Z) (r : FormulaRange) : Prop :=
  lo <= start_row r /\ start_row r <= end_row r /\ end_row r < k /\
  (forall i, start_row r <= i <= end_row r -> has_pattern F r i) /\
  (start_row r = lo \/ differs_at F r (start_row r - 1)) /\
  F (start_row r) = Some (first_formula r) /\
  Z.of_nat (formula_count r) = end_row r - start_row r + 1 /\
  List.length (formulas r) = Nat.min (formula_count r) 3 /\
  nth_error (formulas r) 0 = Some (first_formula r).

(** The loop invariant once the rows [lo .. k-1] are scanned. *)
Definition scan_inv (F : Z -> option string) (lo k : Z) (st : scan_state) : Prop :=
  Forall (run_upto F lo k) (open_list st) /\
  Forall (fun r => differs_at F r (end_row r + 1)) (fst st) /\
  match snd st with
  | Some c => end_row c = k - 1
  | None => k = lo \/ F (k - 1) = None
  end /\
  (forall i, lo <= i < k -> F i <> None ->
             Exists (fun r => start_row r <= i <= end_row r) (open_list st)) /\
  StronglySorted before (open_list st).

(** [r] is a maximal run of one signature among the rows [lo .. hi-1]. *)
Definition maximal_run (F : Z -> option string) (lo hi : Z) (r : FormulaRange)
  : Prop :=
  lo <= start_row r /\ start_row r <= end_row r /\ end_row r < hi /\
  (forall i, start_row r <= i <= end_row r -> has_pattern F r i) /\
  (start_row r = lo \/ differs_at F r (start_row r - 1)) /\
  (end_row r = hi - 1 \/ differs_at F r (end_row r + 1)).

Definition range_ok (r : FormulaRange) : Prop :=
  start_row r <= end_row r /\
  (1 <= formula_count r)%nat /\
  List.length (formulas r) = Nat.min (formula_count r) 3 /\
  nth_error (formulas r) 0 = Some (first_formula r).

(** ** Right shifts of a mantissa *)

(** [mrs] is [m] shifted right by [k] bits, with the round and sticky bits
    telling where the lost bits stand with respect to one half. *)
Definition shifted (m : Z) (k : Z) (mrs : shr_record) : Prop :=
  exists rest,
    0 <= shr_m mrs /\ m = shr_m mrs * 2 ^ k + rest /\ 0 <= rest < 2 ^ k /\
    (shr_r mrs = true <-> 2 ^ k <= 2 * rest) /\
    (shr_s mrs = true <-> rest <> 0 /\ 2 * rest <> 2 ^ k).

End RunVocabulary.

(** ** The rules of [detect_pattern] *)

(** [d.get(k, 0)] on a dict kept as a list of items. *)
Definition count_in (d : list (string * nat)) (k : string) : nat :=
  match find (fun kv => String.eqb (fst kv) k) d with
  | Some kv => snd kv
  | None => 0
  end.

(** Three names, one of them twice, and a blank. *)
Definition three_names : list (option string) :=
  [Some "Alpha"; None; Some "Beta"; Some "Gamma"; Some "Beta"].

(** A row of years. *)
Definition years : list (option string) := [Some "2019"; Some "2020"; Some "2021"].

(** Six row labels, three of which begin with the word [Total]. *)
Definition sales_lines : list (option string) :=
  [Some "Total sales"; Some "Total cost"; Some "Net"; Some "Total tax";
   Some "Gross"; Some "Other"].

(** How many values of [l] have the prefix [p]. *)
Definition prefix_count_of (p : string) (l : list string) : nat :=
  List.length (filter (fun v => match value_prefix v with
                                | Ok q => String.eqb q p
                                | Raise _ => false
                                end) l).

(** The results of the rules that come before the repeating-block search. *)
Definition rule_is_cheap (r : PatternResult) : bool :=
  match r with
  | Empty | AllEmpty _ | Single _ | Uniform _ _ => true
  | _ => false
  end.

(** The letters [A] to [Y], one per value. *)
Definition twenty_five_letters : list (option string) :=
  map (fun n => Some (String (ascii_of_nat (65 + n)) "")) (seq 0 25).

(** A label followed by three dates. *)
Definition note_then_dates : list (option string) :=
  [Some "note"; Some "1/2/2024"; Some "2024-01-03"; Some "4-1-2024"].

(** ** Cell references *)

(** The four kinds of reference [normalize_formula] tells apart. *)
Inductive ref_style : Type := Relative | ColumnAbsolute | RowAbsolute | Absolute.

(** The text of a reference to column [col] and row [row]. *)
Definition reference (style : ref_style) (col row : string) : string :=
  match style with
  | Relative => col ++ row
  | ColumnAbsolute => "$" ++ col ++ row
  | RowAbsolute => col ++ "$" ++ row
  | Absolute => "$" ++ col ++ "$" ++ row
  end.

(** What [normalize_formula] puts in the place of a reference. *)
Definition placeholder (style : ref_style) : string :=
  match style with
  | Relative => "{REL}"
  | ColumnAbsolute => "{COL_ABS}"
  | RowAbsolute => "{ROW_ABS}"
  | Absolute => "{ABS}"
  end.

(** A column name is a non-empty run of capitals, a row number a non-empty
    run of digits. *)
Definition column_name (col : string) : bool := truthy col && str_all re_upper col.
Definition row_number (row : string) : bool := truthy row && str_all re_digit row.

(** [s[-1]], when [s] is not empty. *)
Fixpoint last_char (s : string) : option ascii :=
  match s with
  | EmptyString => None
  | String c EmptyString => Some c
  | String _ t => last_char t
  end.

(** No reference can begin at the end of [a] and go on into what follows:
    [a] does not end with a capital or with [$]. *)
Definition closes (a : string) : bool :=
  match last_char a with
  | Some c => negb (re_upper c) && negb (Ascii.eqb c "$")
  | None => true
  end.

(** No run of digits can go on into [b]: [b] does not begin with a digit. *)
Definition opens (b : string) : bool :=
  match b with
  | String c _ => negb (re_digit c)
  | EmptyString => true
  end.

(** Some [$] is directly followed by a capital. *)
Fixpoint has_col_abs (s : string) : bool :=
  match s with
  | String a t =>
      match t with
      | String b _ => (Ascii.eqb a "$" && re_upper b) || has_col_abs t
      | EmptyString => false
      end
  | EmptyString => false
  end.

(** A matcher that, from inside a text that [closes], never looks into a
    continuation [b], and whose match lies within the string. *)
Definition seam_blind (m : string -> option nat) (b : string) : Prop :=
  (forall a, a <> "" -> closes a = true -> m (a ++ b)%string = m a) /\
  (forall s n, m s = Some n -> n <= String.length s).

(** [$] does not occur in [s]. *)
Definition no_dollar (s : string) : bool :=
  str_all (fun c => negb (Ascii.eqb c "$")) s.

(** ** Spreadsheet identifiers *)

(** A spreadsheet identifier: a non-empty string of identifier characters. *)
Definition identifier (s : string) : bool := truthy s && str_all Ident.id_char s.

(** The text after an identifier in a URL: it does not begin with an
    identifier character. *)
Definition ends_identifier (rest : string) : bool :=
  match rest with
  | String c _ => negb (Ident.id_char c)
  | EmptyString => true
  end.

(** ** Date shapes *)

(** [s] is made of digits, at least [lo] and at most [hi] of them. *)
Definition digits_between (lo hi : nat) (s : string) : Prop :=
  (lo <= String.length s <= hi)%nat /\ str_all re_digit s = true.

(** [d sep m sep y] with one or two digits for [d] and [m] and four for [y]. *)
Definition day_first (sep : string) (s : string) : Prop :=
  exists d m y, digits_between 1 2 d /\ digits_between 1 2 m /\
                digits_between 4 4 y /\ s = (d ++ sep ++ m ++ sep ++ y)%string.

(** [y-m-d] with four digits for [y] and two for [m] and [d]. *)
Definition year_first (s : string) : Prop :=
  exists y m d, digits_between 4 4 y /\ digits_between 2 2 m /\
                digits_between 2 2 d /\ s = (y ++ "-" ++ m ++ "-" ++ d)%string.

(** The one-character string [\n]. *)
Definition newline : string := String "010" EmptyString.

(** ** Columns of formulas *)

Section FlowVocabulary.
Local Open Scope Z_scope.

(** The formulas of the column in the rows [rows], in order. *)
Definition formula_rows (row_data : list Row) (col_idx : Z) (rows : list Z)
  : list string :=
  flat_map (fun i => match formula_at row_data col_idx i with
                     | Some f => [f]
                     | None => []
                     end) rows.

(** The sum of the [formula_count]s. *)
Definition total_count (ranges : list FormulaRange) : nat :=
  list_sum (map formula_count ranges).

(** The flow entry [e] repeats the range [r], with its rows made 1-based. *)
Definition mirrors (r : FormulaRange) (e : FlowEntry) : Prop :=
  flow_start_row e = start_row r + 1 /\
  flow_end_row e = end_row r + 1 /\
  row_count e = formula_count r /\
  flow_pattern e = pattern r /\
  flow_first_formula e = first_formula r /\
  examples e = firstn 3 (formulas r).

(** The break keys of the flow entry [e], for a column with the formulas [F]
    in a sheet of [len] rows; the rows [j] are 1-based.  When set, they name
    the first row with a formula among the nine rows after the entry; when
    not set, none of those rows has one. *)
Definition break_ok (F : Z -> option string) (len : Z) (r : FormulaRange)
    (e : FlowEntry) : Prop :=
  match flow_break e with
  | Some b =>
      break_after b = true /\
      flow_end_row e < continues_at_row b <= flow_end_row e + 9 /\
      continues_at_row b <= len /\
      break_size b = continues_at_row b - flow_end_row e - 1 /\
      F (continues_at_row b - 1) <> None /\
      (forall j, flow_end_row e < j < continues_at_row b -> F (j - 1) = None)
  | None =>
      forall j, flow_end_row e < j <= flow_end_row e + 9 -> j <= len ->
                F (j - 1) = None
  end.

(** A column in which one formula is copied down; the fourth copy refers to
    a row far away. *)
Definition copied_column : list Row :=
  [with_formula "=A1*$B$1"; with_formula "=A2*$B$1"; with_formula "=A3*$B$1";
   with_formula "=A10*$B$1"].

(** The formulas [F] gives for the rows [lo .. hi], in order. *)
Definition formulas_between (F : Z -> option string) (lo hi : Z) : list string :=
  flat_map (fun i => match F i with
                     | Some f => [f]
                     | None => []
                     end) (zrange lo (hi + 1)%Z).

(** The [formulas] of [r] are the first three formulas of its rows. *)
Definition keeps_first_three (F : Z -> option string) (r : FormulaRange) : Prop :=
  formulas r = firstn 3 (formulas_between F (start_row r) (end_row r)).

End FlowVocabulary.

(** * Properties *)

(** ** The examples of the pattern detector *)

(** C1, at the input where it fails: a header that holds only a space reaches
    the common-prefix block, where [str(val).split()] is empty and taking its
    first element raises [IndexError]; [detect_pattern] does not return. *)
Theorem detect_pattern_blank_header_raises :
  detect_pattern blank_header = Raise IndexError.
Proof. vm_compute. reflexivity. Qed.

(** C2, as stated, fails: on [Q1 Rev Q1 Rev Q1 Cost] the result is not a
    [repeating] one of block size 2 with the break at block 2. *)
Lemma detect_pattern_break_example_refuted :
  ~ (exists template repeat_count total_items sample,
        detect_pattern quarters_with_cost =
        Ok (Repeating 2 template repeat_count total_items sample
              (Some [{| block_index := 2; position := 4;
                        expected_template := ["Q1"; "Rev"];
                        actual_values := ["Q1"; "Cost"] |}]))).
Proof.
  intros (t & rc & ti & sm & H). vm_compute in H. discriminate H.
Qed.

(** C2, amended: at block size 2 two of the three blocks match, which is not
    [>= 3 * 0.7]; no block size is accepted, and the input is classified by
    its dominant prefix [Q1], which three of the six values carry. *)
Theorem detect_pattern_break_example :
  most_match 2 3 = false /\
  repeating_search (non_empty_of quarters_with_cost) = None /\
  detect_pattern quarters_with_cost =
  Ok (VariedWithPrefix "Q1" 3 6 ["Q1"; "Rev"; "Q1"; "Rev"; "Q1"]).
Proof. repeat split; vm_compute; reflexivity. Qed.

(** C3, as stated, fails: three ISO dates are not classified as a date
    sequence. *)
Lemma detect_pattern_dates_example_refuted :
  ~ (exists sample,
        detect_pattern three_days =
        Ok (DateSequence 3 "2024-01-01" "2024-01-03" sample)).
Proof.
  intros (sm & H). vm_compute in H. discriminate H.
Qed.

(** C3, amended: every date has the template [<date>], so at block size 1 all
    three blocks match and the result is [repeating], without a [breaks]
    key. *)
Theorem detect_pattern_dates_example :
  block_template ["2024-01-02"] = block_template ["2024-01-01"] /\
  block_template ["2024-01-03"] = block_template ["2024-01-01"] /\
  detect_pattern three_days =
  Ok (Repeating 1 ["<date>"] 3 3 ["2024-01-01"] None).
Proof. repeat split; vm_compute; reflexivity. Qed.

(** C5, as stated, fails: the result for [Q1 Rev Q1 Rev Q1 Rev] has no
    [breaks] entry holding the empty list. *)
Lemma detect_pattern_repeating_example_refuted :
  ~ (exists sample,
        detect_pattern quarters =
        Ok (Repeating 2 ["Q1"; "Rev"] 3 6 sample (Some []))).
Proof.
  intros (sm & H). vm_compute in H. discriminate H.
Qed.

(** C5, amended: the result is the [repeating] one of block size 2, template
    [Q1 Rev], three repeats and six items, and it has no [breaks] key. *)
Theorem detect_pattern_repeating_example :
  detect_pattern quarters =
  Ok (Repeating 2 ["Q1"; "Rev"] 3 6 ["Q1"; "Rev"] None).
Proof. vm_compute. reflexivity. Qed.

(** ** When the detector returns *)

Lemma split_first_returns v :
  str_all isspace_char v = false -> exists w, split_first v = Ok w.
Proof.
  unfold split_first. induction v as [|c v IH]; [discriminate|].
  cbn [str_all drop_while]. destruct (isspace_char c) eqn:E.
  - rewrite andb_true_l. exact IH.
  - intros _. cbn [take_while]. rewrite E. cbn. eauto.
Qed.

Lemma value_prefix_returns v :
  blank_with_space v = false -> exists p, value_prefix v = Ok p.
Proof.
  unfold blank_with_space, value_prefix.
  destruct (contains_char " " v); [|eauto].
  rewrite andb_true_l. apply split_first_returns.
Qed.

Lemma value_prefix_raises v :
  blank_with_space v = true -> value_prefix v = Raise IndexError.
Proof.
  unfold blank_with_space, value_prefix. intros H.
  apply andb_true_iff in H as [-> H]. unfold split_first.
  assert (E : drop_while isspace_char v = "").
  { induction v as [|c v IH]; [reflexivity|]. cbn [str_all] in H.
    apply andb_true_iff in H as [Hc Hv]. cbn [drop_while]. rewrite Hc. auto. }
  now rewrite E.
Qed.

Lemma count_prefixes_returns : forall l prefixes,
  (forall v, In v l -> blank_with_space v = false) ->
  exists d, count_prefixes l prefixes = Ok d.
Proof.
  induction l as [|v l IH]; intros prefixes H; cbn [count_prefixes]; [eauto|].
  destruct (value_prefix_returns v) as [p ->]; [apply H; now left|].
  cbn [bind]. apply IH. intros x Hx. apply H. now right.
Qed.

Lemma detect_pattern_returns values :
  (forall v, In v (non_empty_of values) -> blank_with_space v = false) ->
  exists r, detect_pattern values = Ok r.
Proof.
  intros H. unfold detect_pattern. destruct values as [|v0 values]; [eauto|].
  set (l := non_empty_of (v0 :: values)) in *.
  destruct (List.length l =? 0)%nat; [eauto|].
  destruct (List.length l =? 1)%nat; [eauto|].
  destruct (List.length (fromkeys l) =? 1)%nat; [eauto|].
  destruct (repeating_search l); [eauto|].
  destruct (_ && _); [eauto|].
  unfold prefix_check. destruct (5 <? List.length l)%nat.
  - destruct (count_prefixes_returns l [] H) as [d ->]. cbn [bind].
    destruct (max_by_count d) as [dominant|]; cbn [bind].
    + destruct (dominates dominant l); cbn [bind]; [eauto|].
      destruct (_ <=? 20)%nat; eauto.
    + destruct (_ <=? 20)%nat; eauto.
  - cbn [bind]. destruct (_ <=? 20)%nat; eauto.
Qed.

(** ** Formula normalization *)

Lemma drop_0 s : drop 0 s = s.
Proof. destruct s; reflexivity. Qed.

Lemma re_sub_from_skip m r k : forall s,
  re_sub_from m r k s = re_sub_from m r 0 (drop k s).
Proof.
  induction k as [|k IH]; intros s.
  - now rewrite drop_0.
  - destruct s as [|c s']; [reflexivity|]. simpl. apply IH.
Qed.

Lemma re_sub_cons m r c s :
  re_sub m r (String c s) =
  match m (String c s) with
  | Some (S k) => (r ++ re_sub m r (drop k s))%string
  | _ => String c (re_sub m r s)
  end.
Proof.
  unfold re_sub. simpl. destruct (m (String c s)) as [[|k]|]; try reflexivity.
  now rewrite re_sub_from_skip.
Qed.

Lemma length_drop k : forall s, String.length (drop k s) <= String.length s.
Proof.
  induction k; intros [|c s]; simpl; try lia. specialize (IHk s). lia.
Qed.

Lemma digit_not_upper c : re_digit c = true -> re_upper c = false.
Proof.
  unfold re_digit, re_upper. intros H.
  apply andb_true_iff in H as [H1 H2].
  apply Nat.leb_le in H1, H2.
  apply andb_false_iff. left. apply Nat.leb_gt. lia.
Qed.

Lemma re_sub_head m r c s b Y :
  re_sub m (String "{" r) (String c s) = String b Y ->
  b <> "{"%char ->
  c = b /\ Y = re_sub m (String "{" r) s /\
  (forall k, m (String c s) <> Some (S k)).
Proof.
  rewrite re_sub_cons. intros H Hb.
  destruct (m (String c s)) as [[|k]|].
  - inversion H; subst. repeat split; congruence.
  - simpl in H. inversion H; subst. congruence.
  - inversion H; subst. repeat split; congruence.
Qed.

Lemma re_sub_head' m r s b Y :
  re_sub m (String "{" r) s = String b Y ->
  b <> "{"%char ->
  exists s', s = String b s' /\ Y = re_sub m (String "{" r) s' /\
             (forall k, m s <> Some (S k)).
Proof.
  destruct s as [|c s]; [discriminate|].
  intros H Hb. destruct (re_sub_head _ _ _ _ _ _ H Hb) as (-> & HY & Hm).
  eauto.
Qed.

Lemma digit_not_brace c : re_digit c = true -> c <> "{"%char.
Proof. intros H ->. discriminate H. Qed.

Lemma match_rel_pair c d t :
  re_upper c = true -> re_digit d = true ->
  exists k, match_rel (String c (String d t)) = Some (S k).
Proof.
  intros Hc Hd. unfold match_rel. simpl. rewrite Hc.
  rewrite (digit_not_upper _ Hd). simpl. rewrite Hd. simpl. eauto.
Qed.

Lemma match_row_abs_triple c d t :
  re_upper c = true -> re_digit d = true ->
  exists k, match_row_abs (String c (String "$" (String d t))) = Some (S k).
Proof.
  intros Hc Hd. unfold match_row_abs. simpl. rewrite Hc. simpl.
  rewrite Hd. simpl. eauto.
Qed.

Lemma has_rel_copy c s :
  (forall k, match_rel (String c s) <> Some (S k)) ->
  has_rel (re_sub match_rel "{REL}" s) = false ->
  has_rel (String c (re_sub match_rel "{REL}" s)) = false.
Proof.
  intros Hm Hs.
  destruct (re_sub match_rel "{REL}" s) as [|b Y] eqn:E; [reflexivity|].
  change (re_upper c && re_digit b || has_rel (String b Y) = false).
  rewrite Hs, orb_false_r.
  destruct (re_upper c) eqn:Hc; [|reflexivity].
  destruct (re_digit b) eqn:Hb; [|reflexivity].
  destruct (re_sub_head' _ _ _ _ _ E (digit_not_brace _ Hb)) as (s' & -> & _).
  destruct (match_rel_pair c b s' Hc Hb) as [k Hk]. now apply Hm in Hk.
Qed.

Lemma has_rel_re_sub_rel : forall n s,
  String.length s <= n -> has_rel (re_sub match_rel "{REL}" s) = false.
Proof.
  induction n as [|n IH]; intros [|c s] Hlen; simpl in Hlen; try reflexivity; try lia.
  rewrite re_sub_cons.
  assert (Hs : has_rel (re_sub match_rel "{REL}" s) = false) by (apply IH; lia).
  destruct (match_rel (String c s)) as [[|k]|] eqn:Hm.
  - apply has_rel_copy; [rewrite Hm; discriminate | exact Hs].
  - assert (Hd : has_rel (re_sub match_rel "{REL}" (drop k s)) = false).
    { apply IH. pose proof (length_drop k s). lia. }
    simpl. destruct (re_sub match_rel "{REL}" (drop k s)); [reflexivity|exact Hd].
  - apply has_rel_copy; [rewrite Hm; discriminate | exact Hs].
Qed.

Lemma has_row_abs_unfold c s :
  has_row_abs (String c s) =
  match s with
  | String "$" (String d _) => (re_upper c && re_digit d) || has_row_abs s
  | _ => has_row_abs s
  end.
Proof. reflexivity. Qed.

Lemma has_row_abs_triple c b d Y :
  has_row_abs (String c (String b (String d Y))) =
  (re_upper c && Ascii.eqb b "$" && re_digit d) || has_row_abs (String b (String d Y)).
Proof.
  rewrite has_row_abs_unfold.
  destruct (Ascii.eqb_spec b "$") as [->|Hb].
  - now rewrite andb_true_r.
  - rewrite andb_false_r. simpl.
    destruct b as [[] [] [] [] [] [] [] []]; try reflexivity; congruence.
Qed.

Lemma has_row_abs_cons c s : has_row_abs (String c s) = false -> has_row_abs s = false.
Proof.
  destruct s as [|b [|d Y]]; try reflexivity.
  rewrite has_row_abs_triple. intros H. apply orb_false_iff in H. tauto.
Qed.

Lemma has_row_abs_drop k : forall s, has_row_abs s = false -> has_row_abs (drop k s) = false.
Proof.
  induction k; intros [|c s] H; simpl; auto.
  apply IHk. eapply has_row_abs_cons; eauto.
Qed.

Lemma has_row_abs_two c b : has_row_abs (String c (String b "")) = false.
Proof. destruct b as [[] [] [] [] [] [] [] []]; reflexivity. Qed.

Lemma has_row_abs_copy m r c s :
  (forall d t, re_upper c = true -> re_digit d = true ->
               s = String "$" (String d t) -> False) ->
  has_row_abs (re_sub m (String "{" r) s) = false ->
  has_row_abs (String c (re_sub m (String "{" r) s)) = false.
Proof.
  intros Hin Hs.
  destruct (re_sub m (String "{" r) s) as [|b [|d Y]] eqn:E;
    [reflexivity | apply has_row_abs_two |].
  rewrite has_row_abs_triple, Hs, orb_false_r.
  destruct (re_upper c) eqn:Hc; [|reflexivity].
  destruct (Ascii.eqb_spec b "$") as [->|Hb]; [|reflexivity].
  destruct (re_digit d) eqn:Hd; [|reflexivity].
  exfalso.
  destruct (re_sub_head' _ _ _ _ _ E) as (s1 & -> & E1 & _); [discriminate|].
  symmetry in E1.
  destruct (re_sub_head' _ _ _ _ _ E1 (digit_not_brace _ Hd)) as (s2 & -> & _).
  eapply Hin; eauto.
Qed.

Lemma has_row_abs_skip c X :
  re_upper c = false -> has_row_abs (String c X) = has_row_abs X.
Proof.
  intros Hc. destruct X as [|b [|d Y]]; [reflexivity | apply has_row_abs_two |].
  rewrite has_row_abs_triple, Hc. reflexivity.
Qed.

Lemma has_row_abs_after_ROW_ABS X :
  has_row_abs ("{ROW_ABS}" ++ X)%string = has_row_abs X.
Proof.
  transitivity (has_row_abs (String "}" X)); [reflexivity|].
  now apply has_row_abs_skip.
Qed.

Lemma has_row_abs_after_REL X :
  has_row_abs ("{REL}" ++ X)%string = has_row_abs X.
Proof.
  transitivity (has_row_abs (String "}" X)); [reflexivity|].
  now apply has_row_abs_skip.
Qed.

Lemma has_row_abs_re_sub_row_abs : forall n s,
  String.length s <= n ->
  has_row_abs (re_sub match_row_abs "{ROW_ABS}" s) = false.
Proof.
  induction n as [|n IH]; intros [|c s] Hlen; simpl in Hlen; try reflexivity; try lia.
  rewrite re_sub_cons.
  assert (Hs : has_row_abs (re_sub match_row_abs "{ROW_ABS}" s) = false)
    by (apply IH; lia).
  assert (Hcopy : (forall k, match_row_abs (String c s) <> Some (S k)) ->
                  has_row_abs (String c (re_sub match_row_abs "{ROW_ABS}" s)) = false).
  { intros Hm. apply has_row_abs_copy; [|exact Hs].
    intros d t Hc Hd ->. destruct (match_row_abs_triple c d t Hc Hd) as [k Hk].
    now apply Hm in Hk. }
  destruct (match_row_abs (String c s)) as [[|k]|] eqn:Hm.
  - apply Hcopy. discriminate.
  - rewrite has_row_abs_after_ROW_ABS. apply IH.
    pose proof (length_drop k s). lia.
  - apply Hcopy. discriminate.
Qed.

Lemma has_row_abs_re_sub_rel : forall n s,
  String.length s <= n ->
  has_row_abs s = false ->
  has_row_abs (re_sub match_rel "{REL}" s) = false.
Proof.
  induction n as [|n IH]; intros [|c s] Hlen Hfree; simpl in Hlen;
    try reflexivity; try lia.
  rewrite re_sub_cons.
  pose proof (has_row_abs_cons _ _ Hfree) as Hfree'.
  assert (Hs : has_row_abs (re_sub match_rel "{REL}" s) = false)
    by (apply IH; [lia|exact Hfree']).
  assert (Hcopy : has_row_abs (String c (re_sub match_rel "{REL}" s)) = false).
  { apply has_row_abs_copy; [|exact Hs].
    intros d t Hc Hd ->. rewrite has_row_abs_triple, Hc, Hd in Hfree.
    discriminate Hfree. }
  destruct (match_rel (String c s)) as [[|k]|] eqn:Hm; try exact Hcopy.
  rewrite has_row_abs_after_REL. apply IH.
  - pose proof (length_drop k s). lia.
  - now apply has_row_abs_drop.
Qed.

Lemma run_digit_pos s : 0 < run re_digit s -> exists d t, s = String d t /\ re_digit d = true.
Proof.
  destruct s as [|d t]; simpl; [lia|]. destruct (re_digit d) eqn:E; [eauto|lia].
Qed.

Lemma has_rel_unfold c b t :
  has_rel (String c (String b t)) = (re_upper c && re_digit b) || has_rel (String b t).
Proof. reflexivity. Qed.

Lemma match_rel_has_rel : forall s n, match_rel s = Some n -> has_rel s = true.
Proof.
  induction s as [|c s IH]; intros n; [discriminate|].
  unfold match_rel. simpl run. destruct (re_upper c) eqn:Hc; [|discriminate].
  simpl drop. simpl (0 <? S _)%nat. rewrite andb_true_l.
  destruct (0 <? run re_digit (drop (run re_upper s) s))%nat eqn:Hd; [|discriminate].
  intros _. apply Nat.ltb_lt in Hd.
  destruct (run re_upper s) as [|l] eqn:Hl.
  - rewrite drop_0 in Hd. destruct (run_digit_pos _ Hd) as (d & t & -> & Hdig).
    rewrite has_rel_unfold, Hc, Hdig. reflexivity.
  - destruct s as [|b t]; [discriminate|].
    rewrite has_rel_unfold. rewrite (IH (S l + run re_digit (drop (S l) (String b t)))).
    + apply orb_true_r.
    + unfold match_rel. rewrite Hl. simpl (0 <? S l)%nat.
      apply Nat.ltb_lt in Hd. rewrite Hd. reflexivity.
Qed.

Lemma match_row_abs_has_row_abs : forall s n,
  match_row_abs s = Some n -> has_row_abs s = true.
Proof.
  induction s as [|c s IH]; intros n; [discriminate|].
  unfold match_row_abs. simpl run. destruct (re_upper c) eqn:Hc.
  - simpl drop. destruct (run re_upper s) as [|l] eqn:Hl.
    + rewrite drop_0. destruct s as [|b t]; [discriminate|].
      destruct (Ascii.eqb_spec b "$") as [->|Hb].
      * simpl (0 <? 1)%nat. rewrite andb_true_l.
        destruct (0 <? run re_digit t)%nat eqn:Hd; [|discriminate].
        apply Nat.ltb_lt in Hd.
        destruct (run_digit_pos _ Hd) as (d & t' & -> & Hdig).
        intros _. rewrite has_row_abs_triple, Hc, Hdig. reflexivity.
      * destruct b as [[] [] [] [] [] [] [] []]; try discriminate; congruence.
    + intros H. destruct s as [|b t]; [discriminate|].
      assert (Hs : has_row_abs (String b t) = true).
      { destruct (drop (S l) (String b t)) as [|x rest] eqn:Ed; [discriminate|].
        destruct (Ascii.eqb_spec x "$") as [->|Hx].
        - destruct (0 <? run re_digit rest)%nat eqn:Hd;
             [|rewrite andb_false_r in H; discriminate].
          apply (IH (S l + 1 + run re_digit rest)).
          unfold match_row_abs. rewrite Hl, Ed. simpl (0 <? S l)%nat.
          rewrite Hd. reflexivity.
        - destruct x as [[] [] [] [] [] [] [] []]; try discriminate; congruence. }
      destruct t as [|d Y].
      * simpl in Hs. discriminate.
      * rewrite has_row_abs_triple, Hs. apply orb_true_r.
  - simpl. destruct c as [[] [] [] [] [] [] [] []]; discriminate.
Qed.

Lemma has_rel_cons c s : has_rel (String c s) = false -> has_rel s = false.
Proof.
  destruct s as [|b t]; [reflexivity|]. rewrite has_rel_unfold.
  intros H. apply orb_false_iff in H. tauto.
Qed.

Lemma match_col_abs_has_rel s n : match_col_abs s = Some n -> has_rel s = true.
Proof.
  destruct s as [|c s]; [discriminate|]. unfold match_col_abs.
  destruct (Ascii.eqb_spec c "$") as [->|Hc].
  - destruct (match_rel s) as [k|] eqn:Hm; [|discriminate]. intros _.
    apply match_rel_has_rel in Hm.
    destruct (has_rel (String "$" s)) eqn:E; [reflexivity|].
    apply has_rel_cons in E. congruence.
  - destruct c as [[] [] [] [] [] [] [] []]; try discriminate; congruence.
Qed.

Lemma match_abs_has_row_abs s n : match_abs s = Some n -> has_row_abs s = true.
Proof.
  destruct s as [|c s]; [discriminate|]. unfold match_abs.
  destruct (Ascii.eqb_spec c "$") as [->|Hc].
  - destruct (match_row_abs s) as [k|] eqn:Hm; [|discriminate]. intros _.
    apply match_row_abs_has_row_abs in Hm.
    destruct (has_row_abs (String "$" s)) eqn:E; [reflexivity|].
    apply has_row_abs_cons in E. congruence.
  - destruct c as [[] [] [] [] [] [] [] []]; try discriminate; congruence.
Qed.

Lemma re_sub_id (m : string -> option nat) (r : string) (P : string -> bool) :
  (forall c s, P (String c s) = false -> P s = false) ->
  (forall s n, m s = Some n -> P s = true) ->
  forall s, P s = false -> re_sub m r s = s.
Proof.
  intros Hcons Hm. induction s as [|c s IH]; intros HP; [reflexivity|].
  rewrite re_sub_cons.
  destruct (m (String c s)) as [n|] eqn:E.
  - apply Hm in E. congruence.
  - f_equal. apply IH. eapply Hcons; eauto.
Qed.

Lemma normalize_formula_twice f :
  normalize_formula (normalize_formula f) = normalize_formula f.
Proof.
  destruct f as [|c0 f0]; [reflexivity|].
  set (f := String c0 f0).
  change (normalize_formula f)
    with (re_sub match_rel "{REL}"
            (re_sub match_row_abs "{ROW_ABS}"
               (re_sub match_col_abs "{COL_ABS}" (re_sub match_abs "{ABS}" f)))).
  set (f3 := re_sub match_row_abs "{ROW_ABS}" _).
  set (N := re_sub match_rel "{REL}" f3).
  assert (Hrel : has_rel N = false) by (eapply has_rel_re_sub_rel; eauto).
  assert (Hrow : has_row_abs N = false).
  { eapply has_row_abs_re_sub_rel; eauto.
    eapply has_row_abs_re_sub_row_abs; eauto. }
  unfold normalize_formula. destruct (truthy N) eqn:HN; simpl negb; cbv iota.
  - rewrite (re_sub_id match_abs _ has_row_abs
               has_row_abs_cons match_abs_has_row_abs N Hrow).
    rewrite (re_sub_id match_col_abs _ has_rel
               has_rel_cons match_col_abs_has_rel N Hrel).
    rewrite (re_sub_id match_row_abs _ has_row_abs
               has_row_abs_cons match_row_abs_has_row_abs N Hrow).
    apply (re_sub_id match_rel _ has_rel has_rel_cons match_rel_has_rel N Hrel).
  - destruct N; [reflexivity|discriminate].
Qed.

Lemma run_le p : forall s, run p s <= String.length s.
Proof. induction s as [|c s IH]; simpl; [lia|]. destruct (p c); lia. Qed.

Lemma run_app_stop p c t : p c = false ->
  forall a, run p (a ++ String c t)%string = run p a.
Proof.
  intros Hc. induction a as [|x a IH]; simpl; [now rewrite Hc|].
  destruct (p x); [now rewrite IH|reflexivity].
Qed.

Lemma drop_app t : forall k a, k <= String.length a ->
  drop k (a ++ t)%string = (drop k a ++ t)%string.
Proof.
  induction k as [|k IH]; intros a Hk.
  - now rewrite !drop_0.
  - destruct a as [|x a]; simpl in *; [lia|]. apply IH. lia.
Qed.

Lemma length_drop_eq : forall k s, k <= String.length s ->
  String.length (drop k s) = String.length s - k.
Proof.
  induction k as [|k IH]; intros s Hk.
  - rewrite drop_0. lia.
  - destruct s as [|x s]; simpl in *; [lia|]. apply IH. lia.
Qed.

Lemma brace_blind_rel : brace_blind match_rel.
Proof.
  split.
  - intros a t. unfold match_rel.
    rewrite (run_app_stop re_upper "{" t eq_refl a).
    rewrite drop_app by apply run_le.
    now rewrite (run_app_stop re_digit "{" t eq_refl).
  - intros s n. unfold match_rel.
    destruct (_ && _); [|discriminate]. intros [= <-].
    pose proof (run_le re_upper s).
    pose proof (run_le re_digit (drop (run re_upper s) s)).
    rewrite length_drop_eq in H0 by assumption. lia.
Qed.

Lemma brace_blind_row_abs : brace_blind match_row_abs.
Proof.
  split.
  - intros a t. unfold match_row_abs.
    rewrite (run_app_stop re_upper "{" t eq_refl a).
    rewrite drop_app by apply run_le.
    destruct (drop (run re_upper a) a) as [|x rest]; [reflexivity|].
    simpl. destruct (Ascii.eqb_spec x "$") as [->|Hx].
    + now rewrite (run_app_stop re_digit "{" t eq_refl).
    + destruct x as [[] [] [] [] [] [] [] []]; try reflexivity; congruence.
  - intros s n. unfold match_row_abs.
    pose proof (run_le re_upper s) as Hl.
    pose proof (length_drop_eq _ _ Hl) as Hd.
    destruct (drop (run re_upper s) s) as [|x rest]; [discriminate|].
    pose proof (run_le re_digit rest). simpl in Hd.
    destruct (Ascii.eqb_spec x "$") as [->|Hx].
    + destruct (_ && _); [|discriminate]. intros [= <-]. lia.
    + destruct x as [[] [] [] [] [] [] [] []]; try discriminate; congruence.
Qed.

Lemma brace_blind_dollar m :
  brace_blind m ->
  brace_blind (fun s => match s with
                        | String "$" rest => option_map S (m rest)
                        | _ => None
                        end).
Proof.
  intros [H1 H2]. split.
  - intros [|x a] t; [reflexivity|]. simpl.
    destruct (Ascii.eqb_spec x "$") as [->|Hx].
    + now rewrite H1.
    + destruct x as [[] [] [] [] [] [] [] []]; try reflexivity; congruence.
  - intros [|x s] n; [discriminate|].
    destruct (Ascii.eqb_spec x "$") as [->|Hx].
    + destruct (m s) as [k|] eqn:E; [|discriminate]. intros [= <-].
      apply H2 in E. simpl. lia.
    + destruct x as [[] [] [] [] [] [] [] []]; try discriminate; congruence.
Qed.

Lemma append_assoc' (a b c : string) : ((a ++ b) ++ c = a ++ (b ++ c))%string.
Proof. induction a as [|x a IH]; simpl; [reflexivity|now rewrite IH]. Qed.

Lemma re_sub_from_app_brace m r t :
  brace_blind m ->
  forall a k, k <= String.length a ->
  re_sub_from m r k (a ++ String "{" t)%string =
  (re_sub_from m r k a ++ re_sub m r (String "{" t))%string.
Proof.
  intros [H1 H2]. induction a as [|x a IH]; intros k Hk; simpl in Hk.
  - assert (k = 0) as -> by lia. reflexivity.
  - destruct k as [|k].
    + change (String x a ++ String "{" t)%string
        with (String x (a ++ String "{" t)%string).
      cbn [re_sub_from].
      change (String x (a ++ String "{" t)%string)
        with (String x a ++ String "{" t)%string.
      rewrite H1.
      destruct (m (String x a)) as [[|j]|] eqn:E.
      * simpl. now rewrite IH by lia.
      * apply H2 in E. simpl in E. rewrite IH by lia.
        now rewrite append_assoc'.
      * simpl. now rewrite IH by lia.
    + simpl. apply IH. lia.
Qed.

Lemma placeholders_kept :
  Forall (fun pass =>
    Forall (fun placeholder =>
      forall a t,
        re_sub (fst pass) (snd pass) (a ++ snd placeholder ++ t)%string =
        (re_sub (fst pass) (snd pass) a ++ snd placeholder
           ++ re_sub (fst pass) (snd pass) t)%string) passes) passes.
Proof.
  assert (Hb : Forall (fun pass => brace_blind (fst pass)) passes).
  { unfold passes.
    apply Forall_cons; [exact (brace_blind_dollar _ brace_blind_row_abs)|].
    apply Forall_cons; [exact (brace_blind_dollar _ brace_blind_rel)|].
    apply Forall_cons; [exact brace_blind_row_abs|].
    apply Forall_cons; [exact brace_blind_rel|apply Forall_nil]. }
  assert (Hp : forall m r, In (m, r) passes ->
            Forall (fun placeholder => forall t,
              re_sub m r (snd placeholder ++ t)%string
              = (snd placeholder ++ re_sub m r t)%string) passes).
  { intros m r Hin. simpl in Hin.
    repeat (destruct Hin as [[= <- <-]|Hin]); [ | | | | destruct Hin];
      repeat constructor; intros t; reflexivity. }
  rewrite Forall_forall in Hb |- *. intros [m r] Hin. simpl.
  specialize (Hb _ Hin). specialize (Hp _ _ Hin). simpl in Hb.
  rewrite Forall_forall in Hp |- *. intros ph Hph a t.
  specialize (Hp _ Hph t).
  assert (E : exists p', snd ph = String "{" p').
  { simpl in Hph. repeat (destruct Hph as [<-|Hph]); simpl; eauto. destruct Hph. }
  destruct E as [p' E]. rewrite E in *. 
  change (String "{" p' ++ t)%string with (String "{" (p' ++ t)%string).
  unfold re_sub at 1. rewrite re_sub_from_app_brace by (auto; lia).
  fold (re_sub m r a). f_equal. exact Hp.
Qed.

(** C8: [normalize_formula] is idempotent on every formula; it maps
    [=$A$1+B2] to [={ABS}+{REL}] and [=A1+$B1] to [={REL}+{COL_ABS}]; and no
    pass matches a placeholder again: wherever a placeholder stands in a
    string, each pass copies it and works on the text before it and the text
    after it separately. *)
Theorem normalize_formula_idempotent :
  (forall f, normalize_formula (normalize_formula f) = normalize_formula f) /\
  normalize_formula "=$A$1+B2" = "={ABS}+{REL}" /\
  normalize_formula "=A1+$B1" = "={REL}+{COL_ABS}" /\
  Forall (fun pass =>
    Forall (fun placeholder =>
      forall a t,
        re_sub (fst pass) (snd pass) (a ++ snd placeholder ++ t)%string =
        (re_sub (fst pass) (snd pass) a ++ snd placeholder
           ++ re_sub (fst pass) (snd pass) t)%string) passes) passes.
Proof.
  split; [exact normalize_formula_twice|].
  split; [reflexivity|]. split; [reflexivity|].
  exact placeholders_kept.
Qed.

(** ** The scan of a column *)

Section ScanOfAColumn.
Local Open Scope Z_scope.

Section ScanInvariant.
Variable F : Z -> option string.
Variable lo : Z.

Lemma run_upto_mono k r : run_upto F lo k r -> run_upto F lo (k + 1) r.
Proof. unfold run_upto. intuition lia. Qed.

Lemma sorted_snoc (l : list FormulaRange) x :
  StronglySorted before (l ++ [x]) <->
  StronglySorted before l /\ Forall (fun a => before a x) l.
Proof.
  induction l as [|a l IH]; simpl.
  - split; intros; repeat constructor.
  - split.
    + intros H. inversion H as [|? ? Hs Hf]; subst.
      apply IH in Hs as [Hs Hx]. apply Forall_app in Hf as [Hf1 Hf2].
      split; constructor; auto. now inversion Hf2.
    + intros [Hs Hf]. inversion Hs; subst. inversion Hf; subst.
      constructor.
      * apply IH. auto.
      * apply Forall_app. split; auto.
Qed.

Lemma scan_inv_init : scan_inv F lo lo ([], None).
Proof.
  unfold scan_inv, open_list. simpl. repeat split; auto; try constructor.
  intros i Hi. lia.
Qed.

Lemma scan_inv_step k st :
  lo <= k -> scan_inv F lo k st -> scan_inv F lo (k + 1) (scan_step F st k).
Proof.
  intros Hk (Hruns & Hclosed & Hcur & Hcov & Hsort).
  destruct st as [ranges cur]. unfold scan_step, open_list in *. simpl in *.
  destruct (F k) as [f|] eqn:HF.
  - (* a formula *)
    unfold on_formula. simpl.
    destruct cur as [c|].
    + apply Forall_app in Hruns as [Hr Hc]. inversion Hc as [|? ? Hc' _]; subst.
      destruct (String.eqb_spec (pattern c) (normalize_formula f)) as [Heq|Hne].
      * (* extend *)
        unfold scan_inv, open_list. simpl. repeat split.
        -- apply Forall_app. split.
           ++ eapply Forall_impl; [|exact Hr]. apply run_upto_mono.
           ++ constructor; [|constructor].
              destruct Hc' as (H1 & H2 & H3 & H4 & H5 & H6 & H7 & H8 & H9).
              unfold run_upto, has_pattern, differs_at in *. simpl.
              repeat split; try lia; auto.
              ** intros i Hi. destruct (Z.eq_dec i k) as [->|].
                 --- eauto.
                 --- apply H4. lia.
              ** destruct (List.length (formulas c) <? 3)%nat eqn:E.
                 --- apply Nat.ltb_lt in E. rewrite length_app. simpl. lia.
                 --- apply Nat.ltb_ge in E. lia.
              ** destruct (List.length (formulas c) <? 3)%nat; auto.
                 destruct (formulas c); [discriminate|exact H9].
        -- exact Hclosed.
        -- lia.
        -- intros i Hi Hne. apply Exists_app.
           destruct (Z.eq_dec i k) as [->|].
           ++ right. constructor. simpl. destruct Hc' as (?&?&?&_). lia.
           ++ assert (Hi' : lo <= i < k) by lia.
              specialize (Hcov i Hi' Hne). apply Exists_app in Hcov as [Hx|Hx].
              ** now left.
              ** right. inversion Hx as [? ? Hx'|? ? Hx']; subst.
                 --- constructor. simpl. lia.
                 --- inversion Hx'.
        -- apply sorted_snoc in Hsort as [Hs Hf]. apply sorted_snoc. split; auto.
      * (* close and open *)
        unfold scan_inv, open_list. simpl. repeat split.
        -- apply Forall_app. split.
           ++ apply Forall_app. split.
              ** eapply Forall_impl; [|exact Hr]. apply run_upto_mono.
              ** constructor; [|constructor]. now apply run_upto_mono.
           ++ constructor; [|constructor].
              unfold run_upto, has_pattern, differs_at. simpl.
              repeat split; try lia; auto.
              ** intros i Hi. assert (i = k) as -> by lia. eauto.
              ** destruct (Z.eq_dec k lo); [now left|right].
                 intros g Hg. destruct Hc' as (H1 & H2 & H3 & H4 & _).
                 destruct (H4 (end_row c)) as (g' & Hg' & Hp); [lia|].
                 rewrite Hcur in Hg'. rewrite Hg in Hg'. inversion Hg'; subst.
                 congruence.
        -- apply Forall_app. split; auto. constructor; [|constructor].
           intros g Hg. rewrite Hcur in Hg.
           replace (k - 1 + 1) with k in Hg by lia. congruence.
        -- lia.
        -- intros i Hi Hne'. apply Exists_app.
           destruct (Z.eq_dec i k) as [->|].
           ++ right. constructor. simpl. lia.
           ++ left. apply Hcov; auto. lia.
        -- apply sorted_snoc. split; auto.
           apply Forall_app. split.
           ++ eapply Forall_impl; [|exact Hr]. intros r (_&_&H3&_).
              unfold before. simpl. lia.
           ++ constructor; [|constructor]. unfold before. simpl. lia.
    + (* open *)
      rewrite app_nil_r in *.
      unfold scan_inv, open_list. simpl. repeat split.
      * apply Forall_app. split.
        -- eapply Forall_impl; [|exact Hruns]. apply run_upto_mono.
        -- constructor; [|constructor].
           unfold run_upto, has_pattern, differs_at. simpl.
           repeat split; try lia; auto.
           ++ intros i Hi. assert (i = k) as -> by lia. eauto.
           ++ destruct Hcur as [->|Hnone]; [now left|right].
              intros g Hg. congruence.
      * exact Hclosed.
      * lia.
      * intros i Hi Hne'. apply Exists_app.
        destruct (Z.eq_dec i k) as [->|].
        -- right. constructor. simpl. lia.
        -- left. apply Hcov; auto. lia.
      * apply sorted_snoc. split; auto.
        eapply Forall_impl; [|exact Hruns]. intros r (_&_&H3&_).
        unfold before. simpl. lia.
  - (* no formula *)
    unfold save_current. simpl.
    assert (Hcov' : forall i, lo <= i < k + 1 -> F i <> None ->
              Exists (fun r => start_row r <= i <= end_row r)
                     (ranges ++ match cur with Some c => [c] | None => [] end)).
    { intros i Hi Hne. destruct (Z.eq_dec i k) as [->|]; [congruence|].
      apply Hcov; auto. lia. }
    destruct cur as [c|].
    + unfold scan_inv, open_list. simpl. rewrite app_nil_r. repeat split.
      * eapply Forall_impl; [|exact Hruns]. apply run_upto_mono.
      * apply Forall_app. split; auto. constructor; [|constructor].
        intros g Hg. rewrite Hcur in Hg.
        replace (k - 1 + 1) with k in Hg by lia. congruence.
      * right. now replace (k + 1 - 1) with k by lia.
      * exact Hcov'.
      * exact Hsort.
    + unfold scan_inv, open_list. simpl. repeat split.
      * eapply Forall_impl; [|exact Hruns]. apply run_upto_mono.
      * exact Hclosed.
      * right. now replace (k + 1 - 1) with k by lia.
      * exact Hcov'.
      * exact Hsort.
Qed.

End ScanInvariant.

Lemma index_nonneg {A} (l : list A) (i : Z) :
  0 <= i ->
  index l i = match nth_error l (Z.to_nat i) with
              | Some a => Ok a
              | None => Raise IndexError
              end.
Proof.
  intros Hi. unfold index.
  destruct (i <? 0) eqn:E; [apply Z.ltb_lt in E; lia|].
  now rewrite E.
Qed.

Lemma scan_row_step row_data col_idx st i :
  0 <= col_idx -> 0 <= i < Z.of_nat (List.length row_data) ->
  scan_row row_data col_idx st i = Ok (scan_step (formula_at row_data col_idx) st i).
Proof.
  intros Hc Hi. unfold scan_row, scan_step, formula_at.
  rewrite index_nonneg by lia.
  destruct (nth_error row_data (Z.to_nat i)) as [row|] eqn:Er.
  2:{ apply nth_error_None in Er. lia. }
  simpl. destruct (values row) as [row_values|]; [|reflexivity].
  destruct (col_idx <? Z.of_nat (List.length row_values)) eqn:El.
  - apply Z.ltb_lt in El. rewrite index_nonneg by lia.
    destruct (nth_error row_values (Z.to_nat col_idx)) as [cell|] eqn:Ec.
    2:{ apply nth_error_None in Ec. lia. }
    simpl. destruct (formula_of cell); reflexivity.
  - apply Z.ltb_ge in El.
    destruct (nth_error row_values (Z.to_nat col_idx)) as [cell|] eqn:Ec;
      [|reflexivity].
    assert (nth_error row_values (Z.to_nat col_idx) <> None) as Hn by congruence.
    apply nth_error_Some in Hn. lia.
Qed.

Lemma zrange_nil k stop : stop <= k -> zrange k stop = [].
Proof.
  intros H. unfold zrange. replace (Z.to_nat (stop - k)) with 0%nat by lia.
  reflexivity.
Qed.

Lemma zrange_cons k stop : k < stop -> zrange k stop = k :: zrange (k + 1) stop.
Proof.
  intros H. unfold zrange.
  replace (Z.to_nat (stop - k)) with (S (Z.to_nat (stop - (k + 1)))) by lia.
  simpl. f_equal; [lia|].
  rewrite <- seq_shift, map_map. apply map_ext. intros j. lia.
Qed.

Lemma scan_rows_inv row_data col_idx lo :
  0 <= col_idx -> 0 <= lo ->
  forall n k st,
    lo <= k -> k + Z.of_nat n <= Z.of_nat (List.length row_data) ->
    scan_inv (formula_at row_data col_idx) lo k st ->
    exists st',
      scan_rows row_data col_idx (zrange k (k + Z.of_nat n)) st = Ok st' /\
      scan_inv (formula_at row_data col_idx) lo (k + Z.of_nat n) st'.
Proof.
  intros Hc Hlo. induction n as [|n IH]; intros k st Hk Hlen Hinv.
  - rewrite zrange_nil by lia. exists st. split; [reflexivity|].
    now replace (k + Z.of_nat 0) with k by lia.
  - assert (E : k + Z.of_nat (S n) = k + 1 + Z.of_nat n) by lia.
    rewrite E in *. clear E.
    rewrite zrange_cons by lia. cbn [scan_rows].
    rewrite scan_row_step by lia. cbn [bind].
    apply IH; [lia | lia | now apply scan_inv_step].
Qed.

Lemma save_current_open_list st : fst (save_current st) = open_list st.
Proof.
  destruct st as [ranges [c|]]; unfold save_current, open_list; simpl;
    [reflexivity|now rewrite app_nil_r].
Qed.

Lemma scan_result row_data col_idx lo :
  0 <= col_idx -> 0 <= lo ->
  exists st,
    analyze_formula_ranges row_data col_idx lo = Ok (open_list st) /\
    (lo <= Z.of_nat (List.length row_data) ->
     scan_inv (formula_at row_data col_idx) lo (Z.of_nat (List.length row_data)) st) /\
    (Z.of_nat (List.length row_data) < lo -> st = ([], None)).
Proof.
  intros Hc Hlo. unfold analyze_formula_ranges.
  destruct (Z_le_gt_dec lo (Z.of_nat (List.length row_data))) as [Hle|Hgt].
  - destruct (scan_rows_inv row_data col_idx lo Hc Hlo
                (Z.to_nat (Z.of_nat (List.length row_data) - lo)) lo ([], None))
      as (st & Hrun & Hinv); try lia.
    + apply scan_inv_init.
    + replace (lo + Z.of_nat (Z.to_nat (Z.of_nat (List.length row_data) - lo)))
        with (Z.of_nat (List.length row_data)) in * by lia.
      exists st. rewrite Hrun. cbn [bind]. rewrite save_current_open_list.
      split; [reflexivity|]. split; [auto|]. intros H. exfalso. lia.
  - rewrite zrange_nil by lia. exists ([], None). cbn.
    split; [reflexivity|]. split; [|auto]. intros H. exfalso. lia.
Qed.

Lemma scan_rows_fold row_data col_idx rows :
  0 <= col_idx ->
  forall st,
    Forall (fun i => 0 <= i < Z.of_nat (List.length row_data)) rows ->
    scan_rows row_data col_idx rows st =
    Ok (fold_left (scan_step (formula_at row_data col_idx)) rows st).
Proof.
  intros Hc. induction rows as [|i rows IH]; intros st H; [reflexivity|].
  inversion H; subst. cbn [scan_rows fold_left].
  rewrite scan_row_step by assumption. cbn [bind]. now apply IH.
Qed.

Lemma has_formula_at row_data col_idx i :
  0 <= col_idx -> 0 <= i < Z.of_nat (List.length row_data) ->
  (check_row_data <- index row_data i ;; has_formula check_row_data col_idx)
  = Ok (match formula_at row_data col_idx i with
        | Some _ => true
        | None => false
        end).
Proof.
  intros Hc Hi. unfold formula_at, has_formula.
  rewrite index_nonneg by lia.
  destruct (nth_error row_data (Z.to_nat i)) as [row|] eqn:Er.
  2:{ apply nth_error_None in Er. lia. }
  cbn [bind]. destruct (values row) as [row_values|]; [|reflexivity].
  destruct (col_idx <? Z.of_nat (List.length row_values)) eqn:El.
  - apply Z.ltb_lt in El. rewrite index_nonneg by lia.
    destruct (nth_error row_values (Z.to_nat col_idx)) as [cell|] eqn:Ec.
    2:{ apply nth_error_None in Ec. lia. }
    reflexivity.
  - apply Z.ltb_ge in El.
    destruct (nth_error row_values (Z.to_nat col_idx)) as [cell|] eqn:Ec;
      [|reflexivity].
    assert (nth_error row_values (Z.to_nat col_idx) <> None) as Hn by congruence.
    apply nth_error_Some in Hn. lia.
Qed.

Lemma look_ahead_cons row_data col_idx i rest :
  0 <= col_idx -> 0 <= i < Z.of_nat (List.length row_data) ->
  look_ahead row_data col_idx (i :: rest) =
  match formula_at row_data col_idx i with
  | Some _ => Ok (Some (i + 1))
  | None => look_ahead row_data col_idx rest
  end.
Proof.
  intros Hc Hi. cbn [look_ahead].
  destruct (Z.ltb_spec i (Z.of_nat (List.length row_data))) as [_|H]; [|lia].
  pose proof (has_formula_at row_data col_idx i Hc Hi) as H.
  destruct (index row_data i) as [row|e]; cbn [bind] in *; [|discriminate].
  rewrite H. cbn [bind]. destruct (formula_at row_data col_idx i); reflexivity.
Qed.

Lemma column_formulas_cons row_data col_idx i rest :
  0 <= col_idx -> 0 <= i < Z.of_nat (List.length row_data) ->
  column_formulas row_data col_idx (i :: rest) =
  (later <- column_formulas row_data col_idx rest ;;
   Ok (match formula_at row_data col_idx i with
       | Some f => [f]
       | None => []
       end ++ later)).
Proof.
  intros Hc Hi. cbn [column_formulas]. unfold formula_at.
  rewrite index_nonneg by lia.
  destruct (nth_error row_data (Z.to_nat i)) as [row|] eqn:Er.
  2:{ apply nth_error_None in Er. lia. }
  cbn [bind]. destruct (values row) as [row_values|]; [|reflexivity].
  destruct (col_idx <? Z.of_nat (List.length row_values)) eqn:El.
  - apply Z.ltb_lt in El. rewrite index_nonneg by lia.
    destruct (nth_error row_values (Z.to_nat col_idx)) as [cell|] eqn:Ec.
    2:{ apply nth_error_None in Ec. lia. }
    reflexivity.
  - apply Z.ltb_ge in El.
    destruct (nth_error row_values (Z.to_nat col_idx)) as [cell|] eqn:Ec;
      [|reflexivity].
    assert (nth_error row_values (Z.to_nat col_idx) <> None) as Hn by congruence.
    apply nth_error_Some in Hn. lia.
Qed.

Lemma scan_step_open F rs i f :
  F i = Some f ->
  scan_step F (rs, None) i = (rs, Some (new_range i (normalize_formula f) f)).
Proof. intros H. unfold scan_step. now rewrite H. Qed.

Lemma scan_step_extend F rs c i f :
  F i = Some f -> pattern c = normalize_formula f ->
  scan_step F (rs, Some c) i = (rs, Some (extend_range c i f)).
Proof.
  intros H Hp. unfold scan_step, on_formula. rewrite H. cbn [snd fst].
  now rewrite Hp, String.eqb_refl.
Qed.

Lemma scan_step_switch F rs c i f :
  F i = Some f -> pattern c <> normalize_formula f ->
  scan_step F (rs, Some c) i =
  (rs ++ [c], Some (new_range i (normalize_formula f) f)).
Proof.
  intros H Hp. unfold scan_step, on_formula. rewrite H. cbn [snd fst].
  destruct (String.eqb_spec (pattern c) (normalize_formula f)); [contradiction|].
  reflexivity.
Qed.

Lemma scan_step_close F rs c i :
  F i = None -> scan_step F (rs, Some c) i = (rs ++ [c], None).
Proof. intros H. unfold scan_step. now rewrite H. Qed.

Lemma scan_step_idle F rs i :
  F i = None -> scan_step F (rs, None) i = (rs, None).
Proof. intros H. unfold scan_step. now rewrite H. Qed.

(** C9: for a non-negative column index and start row,
    [analyze_formula_ranges] returns, and every range it returns has
    [start_row <= end_row], [formula_count >= 1] and
    [min formula_count 3] entries in [formulas], the first of which is
    [first_formula]; every range ends strictly before each later one
    starts. *)
Theorem formula_ranges_invariants row_data col_idx start :
  0 <= col_idx -> 0 <= start ->
  exists ranges,
    analyze_formula_ranges row_data col_idx start = Ok ranges /\
    Forall range_ok ranges /\
    StronglySorted before ranges.
Proof.
  intros Hc Hlo.
  destruct (scan_result row_data col_idx start Hc Hlo) as (st & Hrun & Hinv & Hempty).
  exists (open_list st). split; [exact Hrun|].
  destruct (Z_le_gt_dec start (Z.of_nat (List.length row_data))) as [Hle|Hgt].
  - destruct (Hinv Hle) as (Hruns & _ & _ & _ & Hsort). split; [|exact Hsort].
    eapply Forall_impl; [|exact Hruns].
    intros r (H1 & H2 & H3 & H4 & H5 & H6 & H7 & H8 & H9).
    unfold range_ok. repeat split; auto. lia.
  - rewrite Hempty by lia. split; constructor.
Qed.

Lemma formula_ranges_invariants_witness :
  0 <= 0 /\ 0 <= 1 /\
  exists ranges,
    analyze_formula_ranges gap_column 0 1 = Ok ranges /\
    Forall range_ok ranges /\
    StronglySorted before ranges.
Proof.
  split; [lia|]. split; [lia|].
  apply (formula_ranges_invariants gap_column 0 1); lia.
Defined.

(** C6: for a non-negative column index and start row, each row of the scan
    acts on the loop state as [scan_step] says: a formula whose signature is
    that of the open range extends it; a formula of another signature saves
    the open range and opens a new one; a formula met with no range open
    opens one; a row without a formula, or without a cell in the column,
    saves the open range, and leaves the state alone when none is open.  The
    list returned holds maximal runs of one signature, covers every row that
    has a formula, and is in scan order. *)
Theorem formula_ranges_maximal_runs row_data col_idx start :
  0 <= col_idx -> 0 <= start ->
  let F := formula_at row_data col_idx in
  let len := Z.of_nat (List.length row_data) in
  (forall st i, 0 <= i < len ->
     scan_row row_data col_idx st i = Ok (scan_step F st i)) /\
  (forall ranges c i f, F i = Some f -> pattern c = normalize_formula f ->
     scan_step F (ranges, Some c) i = (ranges, Some (extend_range c i f))) /\
  (forall ranges c i f, F i = Some f -> pattern c <> normalize_formula f ->
     scan_step F (ranges, Some c) i =
     (ranges ++ [c], Some (new_range i (normalize_formula f) f))) /\
  (forall ranges i f, F i = Some f ->
     scan_step F (ranges, None) i =
     (ranges, Some (new_range i (normalize_formula f) f))) /\
  (forall ranges c i, F i = None ->
     scan_step F (ranges, Some c) i = (ranges ++ [c], None)) /\
  (forall ranges i, F i = None ->
     scan_step F (ranges, None) i = (ranges, None)) /\
  exists ranges,
    analyze_formula_ranges row_data col_idx start = Ok ranges /\
    Forall (maximal_run F start len) ranges /\
    (forall i, start <= i < len -> F i <> None ->
       Exists (fun r => start_row r <= i <= end_row r) ranges) /\
    StronglySorted before ranges.
Proof.
  intros Hc Hlo F len.
  split; [intros st i Hi; now apply scan_row_step|].
  split; [intros; now apply scan_step_extend|].
  split; [intros; now apply scan_step_switch|].
  split; [intros; now apply scan_step_open|].
  split; [intros; now apply scan_step_close|].
  split; [intros; now apply scan_step_idle|].
  destruct (scan_result row_data col_idx start Hc Hlo) as (st & Hrun & Hinv & Hempty).
  exists (open_list st). split; [exact Hrun|].
  destruct (Z_le_gt_dec start len) as [Hle|Hgt].
  - destruct (Hinv Hle) as (Hruns & Hclosed & Hcur & Hcov & Hsort).
    repeat split; auto.
    destruct st as [ranges cur]. unfold open_list in *. simpl in *.
    apply Forall_app in Hruns as [Hr Hc'].
    apply Forall_app. split.
    + rewrite Forall_forall in *. intros r Hin.
      destruct (Hr r Hin) as (H1 & H2 & H3 & H4 & H5 & _).
      unfold maximal_run. repeat split; auto.
    + destruct cur as [c|]; constructor; [|constructor].
      inversion Hc' as [|? ? (H1 & H2 & H3 & H4 & H5 & _) _]; subst.
      unfold maximal_run. repeat split; auto.
  - rewrite Hempty by (unfold len in *; lia). unfold open_list. simpl.
    repeat split; try constructor. intros i Hi. lia.
Qed.

Lemma formula_ranges_maximal_runs_witness :
  0 <= 0 /\ 0 <= 0 /\
  exists ranges,
    analyze_formula_ranges gap_column 0 0 = Ok ranges /\
    Forall (maximal_run (formula_at gap_column 0) 0
                        (Z.of_nat (List.length gap_column))) ranges /\
    StronglySorted before ranges.
Proof.
  split; [lia|]. split; [lia|].
  destruct (formula_ranges_maximal_runs gap_column 0 0)
    as (_ & _ & _ & _ & _ & _ & ranges & H1 & H2 & _ & H4); [lia|lia|].
  exists ranges. auto.
Defined.

(** C7, as stated, fails: in the column [gap_column], which has formulas of
    one shape in rows 1 to 5, none in row 6 and formulas of another shape in
    rows 7 and 8, the flow entry of the first range does not carry a break
    size of 0. *)
Lemma formula_flow_gap_refuted :
  ~ (exists e1 e2,
       column_formula_flow gap_column 0 0 = Ok (Some [e1; e2]) /\
       flow_break e1 = Some {| break_after := true; continues_at_row := 7;
                               break_size := 0 |}).
Proof.
  intros (e1 & e2 & H & Hb). vm_compute in H. injection H as <- <-.
  discriminate Hb.
Qed.

(** C7, amended: for a column of eight rows with formulas of one signature
    in rows 1 to 5 (indices 0 to 4), no formula in row 6 and formulas of one
    signature in rows 7 and 8, scanned from any of its first five rows, the
    analysis yields exactly two ranges, rows [start+1 .. 5] and [7 .. 8]; the
    flow entry of the first carries [break_after], [continues_at_row = 7] and
    [break_size = 1], the one formula-less row between them; the flow entry
    of the second carries no break. *)
Theorem formula_flow_gap row_data col_idx start p q :
  0 <= col_idx -> 0 <= start <= 4 ->
  List.length row_data = 8%nat ->
  (forall i, 0 <= i <= 4 ->
     exists f, formula_at row_data col_idx i = Some f /\ normalize_formula f = p) ->
  formula_at row_data col_idx 5 = None ->
  (forall i, 6 <= i <= 7 ->
     exists f, formula_at row_data col_idx i = Some f /\ normalize_formula f = q) ->
  exists r1 r2 e1 e2,
    analyze_formula_ranges row_data col_idx start = Ok [r1; r2] /\
    (start_row r1 = start /\ end_row r1 = 4 /\ pattern r1 = p) /\
    (start_row r2 = 6 /\ end_row r2 = 7 /\ pattern r2 = q) /\
    column_formula_flow row_data col_idx start = Ok (Some [e1; e2]) /\
    (flow_start_row e1 = start + 1 /\ flow_end_row e1 = 5 /\
     flow_break e1 = Some {| break_after := true; continues_at_row := 7;
                             break_size := 1 |}) /\
    (flow_start_row e2 = 7 /\ flow_end_row e2 = 8 /\ flow_break e2 = None).
Proof.
  intros Hc Hs Hlen Hp Hgap Hq.
  destruct (Hp 0 ltac:(lia)) as (f0 & F0 & N0).
  destruct (Hp 1 ltac:(lia)) as (f1 & F1 & N1).
  destruct (Hp 2 ltac:(lia)) as (f2 & F2 & N2).
  destruct (Hp 3 ltac:(lia)) as (f3 & F3 & N3).
  destruct (Hp 4 ltac:(lia)) as (f4 & F4 & N4).
  destruct (Hq 6 ltac:(lia)) as (g6 & F6 & N6).
  destruct (Hq 7 ltac:(lia)) as (g7 & F7 & N7).
  assert (Hrows : forall rows, Forall (fun i => 0 <= i < 8) rows ->
            Forall (fun i => 0 <= i < Z.of_nat (List.length row_data)) rows).
  { intros rows H. rewrite Hlen. exact H. }
  assert (Hrow : forall i, 0 <= i < 8 -> 0 <= i < Z.of_nat (List.length row_data)).
  { intros i H. rewrite Hlen. exact H. }
  unfold column_formula_flow, analyze_formula_ranges.
  rewrite Hlen. change (Z.of_nat 8) with 8.
  assert (Hstart : start = 0 \/ start = 1 \/ start = 2 \/ start = 3 \/ start = 4) by lia.
  destruct Hstart as [->|[->|[->|[->| ->]]]];
    match goal with
    | |- context [zrange ?a 8] =>
        let l := eval vm_compute in (zrange a 8) in
        change (zrange a 8) with l
    end;
    rewrite scan_rows_fold
      by (try assumption; apply Hrows, Forall_forall; intros i Hi; cbn in Hi; lia);
    cbn [fold_left bind];
    (erewrite scan_step_open; [|eassumption]);
    repeat (erewrite scan_step_extend;
            [| eassumption | cbn [pattern extend_range new_range]; congruence]);
    rewrite scan_step_close by assumption;
    (erewrite scan_step_open; [|eassumption]);
    repeat (erewrite scan_step_extend;
            [| eassumption | cbn [pattern extend_range new_range]; congruence]);
    cbn [save_current snd fst app];
    repeat (rewrite column_formulas_cons by (try assumption; apply Hrow; lia));
    cbn [column_formulas bind];
    rewrite ?F0, ?F1, ?F2, ?F3, ?F4, ?Hgap, ?F6, ?F7;
    cbn [app bind formula_flow];
    unfold flow_entry; rewrite Hlen; change (Z.of_nat 8) with 8;
    cbn [end_row extend_range new_range];
    change (4 <? 8 - 1) with true; change (7 <? 8 - 1) with false; cbv iota;
    change (zrange (4 + 1) (Z.min (4 + 10) 8)) with [5; 6; 7];
    rewrite look_ahead_cons by (try assumption; apply Hrow; lia);
    rewrite Hgap;
    rewrite look_ahead_cons by (try assumption; apply Hrow; lia);
    rewrite F6;
    cbn [bind];
    change (6 + 1 =? 0) with false; cbv iota; cbn [bind];
    do 4 eexists;
    (split; [reflexivity|]);
    (split; [cbn; repeat split; congruence|]);
    (split; [cbn; repeat split; congruence|]);
    (split; [reflexivity|]);
    split; cbn; repeat split.
Qed.

Lemma formula_flow_gap_witness :
  exists r1 r2 e1 e2,
    analyze_formula_ranges gap_column 0 0 = Ok [r1; r2] /\
    (start_row r1 = 0 /\ end_row r1 = 4 /\ pattern r1 = "={REL}") /\
    (start_row r2 = 6 /\ end_row r2 = 7 /\ pattern r2 = "={COL_ABS}") /\
    column_formula_flow gap_column 0 0 = Ok (Some [e1; e2]) /\
    (flow_start_row e1 = 0 + 1 /\ flow_end_row e1 = 5 /\
     flow_break e1 = Some {| break_after := true; continues_at_row := 7;
                             break_size := 1 |}) /\
    (flow_start_row e2 = 7 /\ flow_end_row e2 = 8 /\ flow_break e2 = None).
Proof.
  apply (formula_flow_gap gap_column 0 0 "={REL}" "={COL_ABS}").
  - lia.
  - lia.
  - reflexivity.
  - intros i Hi.
    assert (H : i = 0 \/ i = 1 \/ i = 2 \/ i = 3 \/ i = 4) by lia.
    destruct H as [->|[->|[->|[->| ->]]]]; eexists; split; reflexivity.
  - reflexivity.
  - intros i Hi.
    assert (H : i = 6 \/ i = 7) by lia.
    destruct H as [->| ->]; eexists; split; reflexivity.
Defined.

End ScanOfAColumn.

(** ** The 70% threshold in binary64 *)

Section Threshold.
Local Open Scope Z_scope.

Lemma iter_pos_nat {A} (f : A -> A) : forall p x,
  iter_pos f p x = Nat.iter (Pos.to_nat p) f x.
Proof.
  induction p as [p IH|p IH|]; intros x; cbn [iter_pos].
  - rewrite !IH. rewrite Pos2Nat.inj_xI.
    replace (S (2 * Pos.to_nat p))%nat with (Pos.to_nat p + (Pos.to_nat p + 1))%nat by lia.
    rewrite !Nat.iter_add. reflexivity.
  - rewrite !IH. rewrite Pos2Nat.inj_xO.
    replace (2 * Pos.to_nat p)%nat with (Pos.to_nat p + Pos.to_nat p)%nat by lia.
    rewrite Nat.iter_add. reflexivity.
  - reflexivity.
Qed.

Lemma shr_1_fields mrs : 0 <= shr_m mrs ->
  shr_1 mrs = {| shr_m := shr_m mrs / 2; shr_r := Z.odd (shr_m mrs);
                 shr_s := shr_r mrs || shr_s mrs |}.
Proof.
  destruct mrs as [m r s]. simpl. intros Hm.
  rewrite <- Z.div2_div.
  destruct m as [|[p|p|]|p]; try lia; reflexivity.
Qed.

Lemma shifted_step m k mrs : 0 <= k ->
  shifted m k mrs -> shifted m (k + 1) (shr_1 mrs).
Proof.
  intros Hk (rest & Hq & Hm & Hrest & Hr & Hs).
  rewrite shr_1_fields by assumption.
  set (q := shr_m mrs) in *.
  exists ((q mod 2) * 2 ^ k + rest). cbn [shr_m shr_r shr_s].
  assert (Hp : 0 < 2 ^ k) by (apply Z.pow_pos_nonneg; lia).
  assert (E : 2 ^ (k + 1) = 2 * 2 ^ k) by (rewrite Z.pow_add_r by lia; lia).
  rewrite E.
  pose proof (Z.div_mod q 2 ltac:(lia)) as Hdm.
  pose proof (Z.mod_pos_bound q 2 ltac:(lia)) as Hmb.
  assert (Hodd : Z.odd q = true <-> q mod 2 = 1).
  { rewrite Zmod_odd. destruct (Z.odd q); split; intros; lia || congruence. }
  rewrite Hodd, orb_true_iff, Hr, Hs.
  set (h := q / 2) in *. set (b := q mod 2) in *. set (T := 2 ^ k) in *.
  assert (Hb : b = 0 \/ b = 1) by lia.
  split; [unfold h; apply Z.div_pos; lia|].
  split; [nia|].
  split; [nia|].
  destruct Hb as [Hb|Hb]; rewrite Hb in *; split; lia.
Qed.

Lemma shifted_iter m : forall k : nat,
  0 <= m ->
  shifted m (Z.of_nat k)
    (Nat.iter k shr_1 {| shr_m := m; shr_r := false; shr_s := false |}).
Proof.
  intros k Hm. induction k as [|k IH].
  - exists 0. cbn. repeat split; try lia; try discriminate.
  - rewrite Nat2Z.inj_succ. unfold Z.succ. simpl Nat.iter.
    apply shifted_step; [lia|exact IH].
Qed.

Lemma shr_spec m e n : 0 <= m -> 0 <= n ->
  exists mrs, shr {| shr_m := m; shr_r := false; shr_s := false |} e n = (mrs, e + n)
              /\ shifted m n mrs.
Proof.
  intros Hm Hn. destruct n as [|p|p]; try lia.
  - eexists. split; [unfold shr; f_equal; lia|].
    apply (shifted_iter m 0 Hm).
  - eexists. split; [reflexivity|].
    rewrite iter_pos_nat. rewrite <- (positive_nat_Z p).
    apply shifted_iter. exact Hm.
Qed.

Lemma digits2_bounds p :
  2 ^ (Z.pos (digits2_pos p) - 1) <= Z.pos p < 2 ^ Z.pos (digits2_pos p).
Proof.
  induction p as [p IH|p IH|]; cbn [digits2_pos].
  - rewrite Pos2Z.inj_succ.
    replace (Z.succ (Z.pos (digits2_pos p)) - 1) with (Z.succ (Z.pos (digits2_pos p) - 1)) by lia.
    rewrite !Z.pow_succ_r by lia. lia.
  - rewrite Pos2Z.inj_succ.
    replace (Z.succ (Z.pos (digits2_pos p)) - 1) with (Z.succ (Z.pos (digits2_pos p) - 1)) by lia.
    rewrite !Z.pow_succ_r by lia. lia.
  - cbn. lia.
Qed.

Lemma digits_unique x a b :
  2 ^ (a - 1) <= x < 2 ^ a -> 2 ^ (b - 1) <= x < 2 ^ b -> 1 <= a -> 1 <= b -> a = b.
Proof.
  intros Ha Hb H1 H2.
  destruct (Z.lt_trichotomy a b) as [Hlt|[Heq|Hgt]]; [exfalso| exact Heq |exfalso].
  - assert (2 ^ a <= 2 ^ (b - 1)) by (apply Z.pow_le_mono_r; lia). lia.
  - assert (2 ^ b <= 2 ^ (a - 1)) by (apply Z.pow_le_mono_r; lia). lia.
Qed.

Lemma round_nearest_even_spec m s mrs :
  0 <= s -> shifted m s mrs ->
  let m1 := shr_m mrs in
  let m2 := round_nearest_even m1 (loc_of_shr_record mrs) in
  m1 = m / 2 ^ s /\ m1 <= m2 <= m1 + 1 /\
  2 * m - 2 ^ s <= 2 * (m2 * 2 ^ s) /\
  (m mod 2 ^ s = 0 -> m2 = m1).
Proof.
  intros Hs (rest & Hq & Hm & Hrest & Hr & Hst). cbv zeta.
  assert (Hp : 0 < 2 ^ s) by (apply Z.pow_pos_nonneg; lia).
  assert (Hdiv : shr_m mrs = m / 2 ^ s).
  { apply (Z.div_unique_pos m (2 ^ s) (shr_m mrs) rest); lia. }
  assert (Hmod : m mod 2 ^ s = rest).
  { symmetry. apply (Z.mod_unique_pos m (2 ^ s) (shr_m mrs) rest); lia. }
  split; [exact Hdiv|].
  destruct mrs as [q r st]. cbn [shr_m shr_r shr_s] in *.
  unfold loc_of_shr_record, round_nearest_even.
  destruct r, st; try destruct (Z.even q);
    repeat match goal with
           | H : true = true <-> _ |- _ => destruct H as [H _]; specialize (H eq_refl)
           | H : false = true <-> _ |- _ =>
               destruct H as [_ H];
               assert (~ _) by (intros Hcontra; apply H in Hcontra; discriminate);
               clear H
           end;
    repeat split; try nia.
Qed.

Lemma binary_round_aux_spec P e :
  let D := Z.pos (digits2_pos P) in
  53 <= D -> -1074 <= D + e - 53 -> D + e - 53 < 971 ->
  exists m' e',
    binary_round_aux prec emax false (Z.pos P) e loc_Exact = S754_finite false m' e' /\
    2 ^ 52 <= Z.pos m' < 2 ^ 53 /\ e <= e' <= e + (D - 53) + 1 /\
    let s := D - 53 in
    let V := Z.pos m' * 2 ^ (e' - e) in
    2 * Z.pos P - 2 ^ s <= 2 * V /\
    V <= (Z.pos P / 2 ^ s + 1) * 2 ^ s /\
    (Z.pos P mod 2 ^ s = 0 -> V = Z.pos P).
Proof.
  intros D HD Hlo Hhi.
  pose proof (digits2_bounds P) as HP. fold D in HP.
  set (s := D - 53).
  assert (Hs : 0 <= s) by (unfold s; lia).
  assert (Hps : 0 < 2 ^ s) by (apply Z.pow_pos_nonneg; lia).
  assert (HDs : 2 ^ D = 2 ^ 53 * 2 ^ s).
  { rewrite <- Z.pow_add_r by lia. f_equal. unfold s. lia. }
  assert (HDs' : 2 ^ (D - 1) = 2 ^ 52 * 2 ^ s).
  { rewrite <- Z.pow_add_r by lia. f_equal. unfold s. lia. }
  unfold binary_round_aux, shr_fexp.
  cbn [shr_record_of_loc Zdigits2]. fold D.
  assert (E1 : fexp prec emax (D + e) - e = s).
  { unfold fexp, SpecFloat.emin, prec, emax, s. lia. }
  rewrite E1.
  destruct (shr_spec (Z.pos P) e s ltac:(lia) Hs) as (mrs & Hshr & Hsh).
  rewrite Hshr.
  destruct (round_nearest_even_spec _ _ _ Hs Hsh) as (Hm1 & Hm2 & Hnear & Hexact).
  set (m1 := shr_m mrs) in *.
  set (m2 := round_nearest_even m1 (loc_of_shr_record mrs)) in *.
  assert (Hm1b : 2 ^ 52 <= m1 < 2 ^ 53).
  { destruct Hsh as (rest & _ & Hm & Hrest & _). fold m1 in Hm. nia. }
  assert (Hm2b : 2 ^ 52 <= m2 <= 2 ^ 53) by lia.
  destruct m2 as [|p2|p2] eqn:Em2; try lia.
  cbn [Zdigits2].
  set (D2 := Z.pos (digits2_pos p2)).
  pose proof (digits2_bounds p2) as HP2. fold D2 in HP2.
  assert (HD2 : D2 = 53 \/ (D2 = 54 /\ Z.pos p2 = 2 ^ 53)).
  { destruct (Z.eq_dec (Z.pos p2) (2 ^ 53)) as [E|E].
    - right. split; [|exact E].
      apply (digits_unique (Z.pos p2)); try lia; rewrite E; cbn; lia.
    - left. apply (digits_unique (Z.pos p2)); try lia; cbn; lia. }
  set (s2 := D2 - 53).
  assert (E2 : fexp prec emax (D2 + (e + s)) - (e + s) = s2).
  { unfold fexp, SpecFloat.emin, prec, emax, s2, s. lia. }
  rewrite E2.
  assert (Hs2 : 0 <= s2) by (unfold s2; lia).
  destruct (shr_spec (Z.pos p2) (e + s) s2 ltac:(lia) Hs2) as (mrs2 & Hshr2 & Hsh2).
  rewrite Hshr2.
  destruct Hsh2 as (rest2 & Hq2 & Hmm2 & Hrest2 & _).
  assert (Hfin : shr_m mrs2 * 2 ^ s2 = Z.pos p2 /\ 2 ^ 52 <= shr_m mrs2 < 2 ^ 53).
  { destruct HD2 as [HD2|[HD2 Ep2]]; unfold s2 in *; rewrite HD2 in *.
    - change (2 ^ (53 - 53)) with 1 in *. lia.
    - change (2 ^ (54 - 53)) with 2 in *. rewrite Ep2 in *.
      change (2 ^ 53) with 9007199254740992 in *.
      change (2 ^ 52) with 4503599627370496 in *. lia. }
  destruct Hfin as [Hval Hbnd].
  destruct (shr_m mrs2) as [|m'|m'] eqn:Em'; try lia.
  assert (Hle : (e + s + s2 <=? emax - prec) = true).
  { apply Z.leb_le. unfold emax, prec, s2, s. lia. }
  rewrite Hle.
  exists m', (e + s + s2). split; [reflexivity|].
  split; [exact Hbnd|]. split; [unfold s2, s; lia|].
  cbv zeta. fold s.
  replace (e + s + s2 - e) with (s2 + s) by lia.
  rewrite Z.pow_add_r by lia.
  rewrite !(Z.mul_assoc (Z.pos m') (2 ^ s2) (2 ^ s)), !Hval.
  repeat split.
  - lia.
  - rewrite <- Hm1. nia.
  - intros H0. rewrite (Hexact H0).
    destruct Hsh as (rest & _ & Hm & Hrest & _). fold m1 in Hm.
    assert (rest = Z.pos P mod 2 ^ s).
    { apply (Z.mod_unique_pos _ (2 ^ s) m1); lia. }
    lia.
Qed.

Lemma iter_xO p d : Z.pos (Pos.iter xO p d) = Z.pos p * 2 ^ Z.pos d.
Proof.
  induction d as [|d IH] using Pos.peano_ind.
  - cbn. lia.
  - rewrite Pos.iter_succ, Pos2Z.inj_xO, IH, Pos2Z.inj_succ, Z.pow_succ_r by lia.
    lia.
Qed.

Lemma float_of_int_pos n :
  0 < n < 2 ^ 53 ->
  exists mz ez,
    float_of_int n = S754_finite false mz ez /\
    Z.pos mz = n * 2 ^ (- ez) /\ 2 ^ 52 <= Z.pos mz < 2 ^ 53 /\ -52 <= ez <= 0.
Proof.
  intros Hn. destruct n as [|p|p]; try lia.
  unfold float_of_int, binary_normalize, binary_round.
  set (d := Z.pos (digits2_pos p)).
  pose proof (digits2_bounds p) as Hp. fold d in Hp.
  assert (Hd : 1 <= d <= 53).
  { split; [unfold d; lia|].
    destruct (Z_le_gt_dec d 53) as [H|H]; [exact H|exfalso].
    assert (2 ^ 53 <= 2 ^ (d - 1)) by (apply Z.pow_le_mono_r; lia). lia. }
  assert (Ef : fexp prec emax (d + 0) = d - 53).
  { unfold fexp, SpecFloat.emin, prec, emax. lia. }
  rewrite Ef.
  assert (Hshl : exists mz, shl_align p 0 (d - 53) = (mz, d - 53) /\
                            Z.pos mz = Z.pos p * 2 ^ (53 - d)).
  { unfold shl_align. destruct (d - 53 - 0) as [|q|q] eqn:Eq; try lia.
    - exists p. split; [f_equal; lia|].
      replace (53 - d) with 0 by lia. lia.
    - exists (Pos.iter xO p q). split; [reflexivity|].
      rewrite iter_xO. f_equal. f_equal. lia. }
  destruct Hshl as (mz & -> & Hmz).
  assert (Hpow : 2 ^ 52 = 2 ^ (d - 1) * 2 ^ (53 - d)).
  { rewrite <- Z.pow_add_r by lia. f_equal. lia. }
  assert (Hpow' : 2 ^ 53 = 2 ^ d * 2 ^ (53 - d)).
  { rewrite <- Z.pow_add_r by lia. f_equal. lia. }
  assert (Hu : 0 < 2 ^ (53 - d)) by (apply Z.pow_pos_nonneg; lia).
  assert (Hmzb : 2 ^ 52 <= Z.pos mz < 2 ^ 53) by nia.
  assert (HD : Z.pos (digits2_pos mz) = 53).
  { apply (digits_unique (Z.pos mz) _ 53 (digits2_bounds mz) Hmzb); lia. }
  destruct (binary_round_aux_spec mz (d - 53)) as (m' & e' & Hr & Hb & He & Hv);
    rewrite ?HD; try lia.
  rewrite Hr. cbv zeta in Hv. destruct Hv as (_ & _ & Hv).
  rewrite HD in Hv. change (2 ^ (53 - 53)) with 1 in Hv.
  specialize (Hv (Z.mod_1_r _)).
  assert (He' : e' = d - 53).
  { destruct (Z.eq_dec e' (d - 53)) as [E|E]; [exact E|exfalso].
    assert (2 ^ 1 <= 2 ^ (e' - (d - 53))) by (apply Z.pow_le_mono_r; lia).
    change (2 ^ 1) with 2 in *. nia. }
  subst e'. replace (d - 53 - (d - 53)) with 0 in Hv by lia.
  change (2 ^ 0) with 1 in Hv.
  exists m', (d - 53). split; [reflexivity|].
  replace (- (d - 53)) with (53 - d) by lia.
  repeat split; lia.
Qed.

Lemma int_ge_float_mul_0_7 m n :
  0 <= m -> 0 <= n < 2 ^ 49 ->
  int_ge_float m (float_mul (float_of_int n) float_0_7) = (7 * n <=? 10 * m).
Proof.
  intros Hm Hn.
  destruct (Z.eq_dec n 0) as [->|Hn0].
  { cbn. destruct m; try lia; cbn; reflexivity. }
  destruct (float_of_int_pos n) as (mz & ez & -> & Hmz & Hmzb & Hez).
  { change (2 ^ 53) with 9007199254740992.
    change (2 ^ 49) with 562949953421312 in Hn. lia. }
  unfold float_mul, float_0_7, SFmul. cbn [xorb].
  set (M := 6305039478318694%positive).
  set (P := (mz * M)%positive).
  set (D := Z.pos (digits2_pos P)).
  pose proof (digits2_bounds P) as HP. fold D in HP.
  assert (HPv : Z.pos P = Z.pos mz * Z.pos M) by reflexivity.
  assert (HM : 10 * Z.pos M = 7 * 2 ^ 53 - 4) by reflexivity.
  assert (HPb : 2 ^ 104 <= Z.pos P < 2 ^ 106).
  { change (2 ^ 104) with (2 ^ 52 * 2 ^ 52).
    change (2 ^ 106) with (2 ^ 53 * 2 ^ 53).
    assert (2 ^ 52 <= Z.pos M < 2 ^ 53) by (cbn; lia). nia. }
  assert (HD : 105 <= D <= 106).
  { split.
    - destruct (Z_le_gt_dec 105 D) as [H|H]; [exact H|exfalso].
      assert (2 ^ D <= 2 ^ 104) by (apply Z.pow_le_mono_r; lia). lia.
    - destruct (Z_le_gt_dec D 106) as [H|H]; [exact H|exfalso].
      assert (2 ^ 106 <= 2 ^ (D - 1)) by (apply Z.pow_le_mono_r; lia). lia. }
  destruct (binary_round_aux_spec P (ez + -53)) as (m' & e' & Hr & Hb & He & Hv);
    fold D; try lia.
  rewrite Hr. fold D in He, Hv. cbv zeta in Hv.
  destruct Hv as (Hnear & Hup & Hexact).
  set (s := D - 53) in *.
  set (U := 2 ^ (- ez)) in *.
  assert (HU : 0 < U) by (apply Z.pow_pos_nonneg; lia).
  assert (HU9 : 9 <= U).
  { change (2 ^ 52) with (8 * 2 ^ 49) in Hmzb. nia. }
  assert (Hez4 : ez <= -4).
  { destruct (Z_le_gt_dec ez (-4)) as [H|H]; [exact H|exfalso].
    assert (U <= 2 ^ 3) by (apply Z.pow_le_mono_r; lia).
    change (2 ^ 3) with 8 in *. lia. }
  assert (He'neg : e' < 0) by (unfold s in *; lia).
  unfold int_ge_float, int_compare_float.
  destruct (Z.leb_spec 0 e') as [H|_]; [lia|].
  set (S := 2 ^ s) in *.
  set (W := 2 ^ (e' - (ez + -53))) in *.
  set (Y := 2 ^ (- e')).
  assert (HS : 0 < S) by (apply Z.pow_pos_nonneg; unfold s; lia).
  assert (HW : 0 < W) by (apply Z.pow_pos_nonneg; lia).
  assert (HY : 0 < Y) by (apply Z.pow_pos_nonneg; lia).
  assert (HYW : Y * W = 2 ^ 53 * U).
  { unfold Y, W, U. rewrite <- !Z.pow_add_r by lia. f_equal. lia. }
  set (R := 2 ^ (53 - s)).
  assert (HR : 0 < R) by (apply Z.pow_pos_nonneg; unfold s; lia).
  assert (HSR : S * R = 2 ^ 53).
  { unfold S, R. rewrite <- Z.pow_add_r by (unfold s; lia). f_equal. lia. }
  set (V := Z.pos m' * W) in *.
  set (X := m * (2 ^ 53 * U)).
  assert (HX : X = m * Y * W) by (unfold X; rewrite <- HYW; ring).
  assert (Hiff : m * Y >= Z.pos m' <-> X >= V).
  { rewrite HX. unfold V. split; intros H; apply Z.le_ge.
    - apply Z.mul_le_mono_nonneg_r; lia.
    - apply (Z.mul_le_mono_pos_r _ _ W HW). lia. }
  assert (H10P : 10 * Z.pos P = n * U * (7 * 2 ^ 53 - 4)).
  { rewrite HPv, Hmz, <- HM. ring. }
  assert (Hmain : X >= V <-> 7 * n <= 10 * m).
  { split.
    - (* rounding cannot lift the product past the next integer *)
      intros HXV.
      destruct (Z_le_gt_dec (7 * n) (10 * m)) as [Hok|Hbad]; [exact Hok|exfalso].
      assert (10 * X + 2 ^ 53 * U <= 10 * Z.pos P + 4 * Z.pos mz).
      { rewrite H10P, Hmz. unfold X.
        assert (10 * m + 1 <= 7 * n) by lia.
        assert (0 <= 2 ^ 53 * U) by (change (2 ^ 53) with 9007199254740992; lia).
        assert ((10 * m + 1) * (2 ^ 53 * U) <= 7 * n * (2 ^ 53 * U))
          by (apply Z.mul_le_mono_nonneg_r; lia).
        change (2 ^ 53) with 9007199254740992 in *. lia. }
      assert (S <= 2 ^ 53) by nia.
      change (2 ^ 53) with 9007199254740992 in *. nia.
    - intros Hok.
      assert (HXP : X >= Z.pos P).
      { assert (10 * X >= 10 * Z.pos P); [|lia].
        rewrite H10P. unfold X.
        assert (0 <= n * U) by nia.
        assert (0 <= 2 ^ 53 * U) by (change (2 ^ 53) with 9007199254740992; lia).
        assert (7 * n * (2 ^ 53 * U) <= 10 * m * (2 ^ 53 * U))
          by (apply Z.mul_le_mono_nonneg_r; lia).
        change (2 ^ 53) with 9007199254740992 in *. lia. }
      assert (HXj : X = (m * R * U) * S).
      { unfold X. rewrite <- HSR. ring. }
      pose proof (Z.div_mod (Z.pos P) S ltac:(lia)) as Hdm.
      pose proof (Z.mod_pos_bound (Z.pos P) S HS) as Hmb.
      destruct (Z.eq_dec (Z.pos P mod S) 0) as [H0|H0].
      + rewrite (Hexact H0). exact HXP.
      + set (q := Z.pos P / S) in *. set (j := m * R * U) in *.
        assert (q * S < j * S) by lia.
        assert (q < j) by (apply (Z.mul_lt_mono_pos_r S q j HS); assumption).
        assert ((q + 1) * S <= j * S) by (apply Z.mul_le_mono_nonneg_r; lia).
        lia. }
  fold Y.
  destruct (Z.leb_spec (7 * n) (10 * m)) as [Hle|Hgt].
  - assert (Hge : m * Y >= Z.pos m') by (apply Hiff, Hmain; exact Hle).
    destruct (Z.compare_spec (m * Y) (Z.pos m')); try reflexivity; lia.
  - assert (Hlt : ~ m * Y >= Z.pos m').
    { intros Hc. apply Hiff, Hmain in Hc. lia. }
    destruct (Z.compare_spec (m * Y) (Z.pos m')); try reflexivity; lia.
Qed.

End Threshold.

(** ** The repeating-block search *)

Section RepeatingSearch.
Local Open Scope nat_scope.

Lemma filter_all_true {A} (p : A -> bool) l :
  (forall x, In x l -> p x = true) -> filter p l = l.
Proof.
  induction l as [|a l IH]; intros H; simpl; [reflexivity|].
  rewrite (H a) by (now left). f_equal. apply IH. intros x Hx. apply H. now right.
Qed.

Lemma filter_all_false {A} (p : A -> bool) l :
  (forall x, In x l -> p x = false) -> filter p l = [].
Proof.
  induction l as [|a l IH]; intros H; simpl; [reflexivity|].
  rewrite (H a) by (now left). apply IH. intros x Hx. apply H. now right.
Qed.

Lemma make_blocks_chunks b l : 1 <= b -> make_blocks b l = chunks b l.
Proof.
  intros Hb. unfold make_blocks, chunks, range_step, slice.
  set (n := List.length l).
  rewrite map_map.
  set (f := fun k => firstn (k * b + b - k * b) (skipn (k * b) l)).
  set (c := (n + b - 1) / b). set (d := n / b).
  assert (Hmod : n = b * d + n mod b) by (apply Nat.div_mod_eq).
  assert (Hlt : n mod b < b) by (apply Nat.mod_upper_bound; lia).
  assert (Hdc : d <= c).
  { unfold d, c. apply Nat.Div0.div_le_mono. lia. }
  replace c with (d + (c - d)) by lia.
  rewrite seq_app, map_app, filter_app.
  assert (Hlen : forall k, List.length (f k) = Nat.min b (n - k * b)).
  { intros k. unfold f. rewrite length_firstn, length_skipn. fold n. lia. }
  rewrite filter_all_true, filter_all_false.
  - rewrite app_nil_r. apply map_ext. intros k. unfold f. f_equal. lia.
  - intros x Hx. apply in_map_iff in Hx as (k & <- & Hk). apply in_seq in Hk.
    apply Nat.eqb_neq. rewrite Hlen. nia.
  - intros x Hx. apply in_map_iff in Hx as (k & <- & Hk). apply in_seq in Hk.
    apply Nat.eqb_eq. rewrite Hlen. nia.
Qed.

Lemma length_chunks b l : List.length (chunks b l) = List.length l / b.
Proof. unfold chunks. now rewrite length_map, length_seq. Qed.

Lemma block_sizes_seq l :
  block_sizes l = seq 1 (Nat.min 10 (List.length l / 2)).
Proof. unfold block_sizes, range. f_equal. lia. Qed.

Lemma in_block_sizes b l :
  In b (block_sizes l) <-> 1 <= b <= 10 /\ 2 * b <= List.length l.
Proof.
  rewrite block_sizes_seq, in_seq.
  pose proof (Nat.div_mod_eq (List.length l) 2) as H.
  pose proof (Nat.mod_upper_bound (List.length l) 2 ltac:(lia)).
  split; intros; lia.
Qed.

Lemma chunks_at_least_two b l :
  In b (block_sizes l) -> 2 <= List.length (chunks b l).
Proof.
  intros Hb. apply in_block_sizes in Hb. rewrite length_chunks.
  apply Nat.div_le_lower_bound; lia.
Qed.

Lemma check_blocks_spec b t : forall rest idx m brs,
  check_blocks b t idx rest m brs =
  (m + List.length (filter (chunk_matches t) rest),
   brs ++ breaks_from b t idx rest).
Proof.
  induction rest as [|c rest IH]; intros idx m brs.
  - unfold breaks_from. simpl. now rewrite Nat.add_0_r, app_nil_r.
  - cbn [check_blocks]. unfold breaks_from. cbn [List.length seq combine flat_map filter snd fst].
    fold (chunk_matches t c).
    destruct (chunk_matches t c).
    + rewrite IH. cbn [List.length app]. f_equal. lia.
    + rewrite IH. rewrite <- app_assoc. reflexivity.
Qed.

Lemma chunk_matches_refl c : chunk_matches (block_template c) c = true.
Proof.
  unfold chunk_matches, template_eqb.
  destruct (list_eq_dec string_dec (block_template c) (block_template c)); congruence.
Qed.

Lemma breaks_from_first b first others :
  breaks_from b (block_template first) 0 (first :: others) =
  breaks_from b (block_template first) 1 others.
Proof.
  unfold breaks_from. cbn [List.length seq combine flat_map snd fst].
  now rewrite chunk_matches_refl.
Qed.

Lemma most_match_spec m n :
  (Z.of_nat n < 2 ^ 49)%Z ->
  most_match m n = (7 * n <=? 10 * m)%nat.
Proof.
  intros Hn. unfold most_match. rewrite int_ge_float_mul_0_7 by lia.
  destruct (Nat.leb_spec (7 * n) (10 * m)); [apply Z.leb_le|apply Z.leb_gt]; lia.
Qed.

Lemma try_block_size_spec l b :
  (Z.of_nat (List.length l) < 2 ^ 49)%Z ->
  In b (block_sizes l) ->
  try_block_size l b = if accepts b l then Some (repeating_result b l) else None.
Proof.
  intros Hlen Hb. pose proof (chunks_at_least_two b l Hb) as H2.
  pose proof (proj1 (in_block_sizes b l) Hb) as Hb'.
  unfold try_block_size. rewrite make_blocks_chunks by lia.
  destruct (Nat.ltb_spec (List.length (chunks b l)) 2) as [H|_]; [lia|].
  unfold accepts, repeating_result, chunk_breaks, matching_chunks, first_template.
  destruct (chunks b l) as [|first others] eqn:E; [simpl in H2; lia|].
  cbn [hd]. rewrite check_blocks_spec. cbn [app].
  rewrite most_match_spec.
  2:{ pose proof (length_chunks b l) as HL. rewrite E in HL. rewrite HL.
      assert (List.length l / b <= List.length l) by (apply Nat.Div0.div_le_upper_bound; nia).
      lia. }
  cbn [filter]. rewrite chunk_matches_refl, breaks_from_first.
  cbn [List.length]. reflexivity.
Qed.

Lemma first_return_seq {B} (body : nat -> option B) r : forall k s b,
  s <= b < s + k -> body b = Some r ->
  (forall b', s <= b' < b -> body b' = None) ->
  first_return body (seq s k) = Some r.
Proof.
  induction k as [|k IH]; intros s b Hb Hr Hnone; [lia|].
  cbn [seq first_return].
  destruct (Nat.eq_dec s b) as [->|Hne].
  - now rewrite Hr.
  - rewrite (Hnone s) by lia. apply (IH (S s) b); [lia|exact Hr|].
    intros b' Hb'. apply Hnone. lia.
Qed.

Lemma first_return_none {A B} (body : A -> option B) l :
  (forall a, In a l -> body a = None) -> first_return body l = None.
Proof.
  induction l as [|a l IH]; intros H; [reflexivity|].
  cbn [first_return]. rewrite (H a) by (now left).
  apply IH. intros x Hx. apply H. now right.
Qed.

Lemma first_return_some {A B} (body : A -> option B) l r :
  first_return body l = Some r -> exists a, In a l /\ body a = Some r.
Proof.
  induction l as [|a l IH]; [discriminate|].
  cbn [first_return]. destruct (body a) as [r'|] eqn:E.
  - intros [= <-]. exists a. split; [now left|exact E].
  - intros H. destruct (IH H) as (x & Hx & Hr). exists x. split; [now right|exact Hr].
Qed.

Lemma length_non_empty_of values :
  List.length (non_empty_of values) <= List.length values.
Proof.
  induction values as [|[s|] values IH]; simpl; try lia.
  destruct (truthy s); simpl; lia.
Qed.

Lemma detect_pattern_search values :
  2 <= List.length (non_empty_of values) ->
  List.length (fromkeys (non_empty_of values)) <> 1 ->
  forall r, repeating_search (non_empty_of values) = Some r ->
            detect_pattern values = Ok r.
Proof.
  intros H2 Hu r Hr. unfold detect_pattern.
  destruct values as [|v values]; [simpl in H2; lia|].
  set (l := non_empty_of (v :: values)) in *.
  destruct (Nat.eqb_spec (List.length l) 0); [lia|].
  destruct (Nat.eqb_spec (List.length l) 1); [lia|].
  destruct (Nat.eqb_spec (List.length (fromkeys l)) 1); [lia|].
  now rewrite Hr.
Qed.

Lemma detect_pattern_repeating_inv values r :
  detect_pattern values = Ok r -> is_repeating r = true ->
  repeating_search (non_empty_of values) = Some r.
Proof.
  unfold detect_pattern. destruct values as [|v values]; [intros [= <-]; discriminate|].
  set (l := non_empty_of (v :: values)).
  destruct (List.length l =? 0); [intros [= <-]; discriminate|].
  destruct (List.length l =? 1); [intros [= <-]; discriminate|].
  destruct (List.length (fromkeys l) =? 1); [intros [= <-]; discriminate|].
  destruct (repeating_search l) as [r0|]; [intros [= <-]; reflexivity|].
  destruct (_ && _); [intros [= <-]; discriminate|].
  unfold prefix_check.
  destruct (5 <? List.length l).
  - destruct (count_prefixes l []) as [prefixes|e]; cbn [bind]; [|discriminate].
    destruct (max_by_count prefixes) as [dominant|]; cbn [bind].
    + destruct (dominates dominant l); cbn [bind].
      * intros [= <-]; discriminate.
      * destruct (_ <=? 20); intros [= <-]; discriminate.
    + destruct (_ <=? 20); intros [= <-]; discriminate.
  - cbn [bind]. destruct (_ <=? 20); intros [= <-]; discriminate.
Qed.

Lemma template_value_element v : template_value v = element_template v.
Proof.
  unfold template_value, element_template, numeric_shape.
  destruct (is_date v); [reflexivity|]. destruct v; reflexivity.
Qed.

Lemma block_template_chunk block : block_template block = chunk_template block.
Proof. apply map_ext, template_value_element. Qed.

Lemma chunks_chunk_at b l : chunks b l = map (chunk_at b l) (seq 0 (chunk_count b l)).
Proof. reflexivity. Qed.

Lemma first_chunk b l :
  1 <= chunk_count b l -> hd [] (chunks b l) = chunk_at b l 0.
Proof.
  rewrite chunks_chunk_at. destruct (chunk_count b l); [lia|reflexivity].
Qed.

Lemma first_template_chunk b l :
  1 <= chunk_count b l -> first_template b l = chunk_template (chunk_at b l 0).
Proof.
  intros H. unfold first_template. now rewrite (first_chunk b l H), block_template_chunk.
Qed.

Lemma chunk_matches_same b l k :
  1 <= chunk_count b l ->
  chunk_matches (first_template b l) (chunk_at b l k) = same_template b l k.
Proof.
  intros H. unfold chunk_matches, template_eqb, same_template.
  now rewrite (first_template_chunk b l H), block_template_chunk.
Qed.

Lemma filter_map_length {A B} (p : B -> bool) (f : A -> B) l :
  List.length (filter p (map f l)) = List.length (filter (fun a => p (f a)) l).
Proof.
  induction l as [|a l IH]; [reflexivity|]. cbn [map filter].
  destruct (p (f a)); cbn [List.length]; now rewrite IH.
Qed.

Lemma matching_chunks_count b l :
  1 <= chunk_count b l -> matching_chunks b l = matching_count b l.
Proof.
  intros H. unfold matching_chunks, matching_count.
  rewrite chunks_chunk_at, filter_map_length. f_equal.
  apply filter_ext. intros k. now apply chunk_matches_same.
Qed.

Lemma accepts_threshold b l :
  1 <= chunk_count b l -> accepts b l = reaches_threshold b l.
Proof.
  intros H. unfold accepts, reaches_threshold.
  now rewrite (matching_chunks_count b l H), length_chunks.
Qed.

Lemma breaks_from_map b t (f : nat -> list string) : forall m idx,
  breaks_from b t idx (map f (seq idx m)) =
  map (fun k => {| block_index := k; position := k * b;
                   expected_template := t; actual_values := f k |})
      (filter (fun k => negb (chunk_matches t (f k))) (seq idx m)).
Proof.
  unfold breaks_from. induction m as [|m IH]; intros idx; [reflexivity|].
  cbn [seq map List.length combine flat_map filter fst snd].
  specialize (IH (S idx)). rewrite length_map, length_seq in *.
  destruct (chunk_matches t (f idx)); cbn [negb app map]; now rewrite IH.
Qed.

Lemma chunk_breaks_expected b l :
  1 <= chunk_count b l -> chunk_breaks b l = expected_breaks b l.
Proof.
  intros H. unfold chunk_breaks, expected_breaks.
  rewrite chunks_chunk_at, breaks_from_map.
  rewrite (filter_ext _ (fun k => negb (same_template b l k))).
  - apply map_ext. intros k. unfold break_at.
    now rewrite (first_template_chunk b l H).
  - intros k. now rewrite (chunk_matches_same b l k H).
Qed.

Lemma repeating_result_expected b l :
  1 <= chunk_count b l -> repeating_result b l = expected_result b l.
Proof.
  intros H. unfold repeating_result, expected_result.
  now rewrite (first_template_chunk b l H), (first_chunk b l H),
    (chunk_breaks_expected b l H), length_chunks.
Qed.

Lemma chunk_count_block_size b l : In b (block_sizes l) -> 2 <= chunk_count b l.
Proof.
  intros H. unfold chunk_count. rewrite <- (length_chunks b l).
  now apply chunks_at_least_two.
Qed.

(** C4: for a sequence that reaches the repeating-block rule (at least two
    non-blank values, not all equal), the block sizes tried are
    [1 .. min 10 (n / 2)] in increasing order; the blocks the code builds for
    a size [b] are the complete consecutive chunks of size [b], of which
    there are always at least two; the template the code builds of a block is
    the one of the specification: [<date>] for a date-shaped element,
    [<number>] for an element that is digits once [.] and [-] are removed,
    the element itself otherwise; the result is the [repeating] one of the
    smallest [b] for which the chunks with the template of the first chunk
    are at least 70% of all chunks, with a break entry for every chunk whose
    template differs; and when no size qualifies the result is not a
    [repeating] one.  The length bound keeps the numbers within the range
    where [n * 0.7] is computed without a rounding error of a whole unit. *)
Theorem detect_pattern_repeating_search values :
  (Z.of_nat (List.length values) < 2 ^ 49)%Z ->
  2 <= List.length (non_empty_of values) ->
  List.length (fromkeys (non_empty_of values)) <> 1 ->
  let l := non_empty_of values in
  block_sizes l = seq 1 (Nat.min 10 (List.length l / 2)) /\
  (forall b, In b (block_sizes l) ->
     make_blocks b l = map (chunk_at b l) (seq 0 (chunk_count b l)) /\
     2 <= chunk_count b l) /\
  (forall block, block_template block = chunk_template block) /\
  (forall b, In b (block_sizes l) -> reaches_threshold b l = true ->
     (forall b', In b' (block_sizes l) -> b' < b -> reaches_threshold b' l = false) ->
     detect_pattern values = Ok (expected_result b l)) /\
  ((forall b, In b (block_sizes l) -> reaches_threshold b l = false) ->
     forall r, detect_pattern values = Ok r -> is_repeating r = false).
Proof.
  intros Hlen H2 Hu l.
  assert (Hl : (Z.of_nat (List.length l) < 2 ^ 49)%Z).
  { pose proof (length_non_empty_of values). unfold l. lia. }
  assert (Hone : forall b, In b (block_sizes l) -> 1 <= chunk_count b l).
  { intros b Hb. pose proof (chunk_count_block_size b l Hb). lia. }
  split; [apply block_sizes_seq|]. split; [|split; [|split]].
  - intros b Hb. split; [|now apply chunk_count_block_size].
    rewrite <- chunks_chunk_at.
    apply make_blocks_chunks. apply in_block_sizes in Hb. lia.
  - exact block_template_chunk.
  - intros b Hb Hacc Hmin. apply detect_pattern_search; auto.
    unfold repeating_search. fold l. rewrite block_sizes_seq.
    pose proof Hb as Hb'. rewrite block_sizes_seq in Hb'. apply in_seq in Hb'.
    apply (first_return_seq _ _ _ 1 b); [lia| |].
    + rewrite try_block_size_spec by assumption.
      rewrite (accepts_threshold b l (Hone b Hb)), Hacc.
      now rewrite (repeating_result_expected b l (Hone b Hb)).
    + intros b' Hb'1.
      assert (Hin : In b' (block_sizes l)).
      { rewrite block_sizes_seq. apply in_seq. lia. }
      rewrite try_block_size_spec by assumption.
      rewrite (accepts_threshold b' l (Hone b' Hin)).
      rewrite (Hmin b' Hin) by lia. reflexivity.
  - intros Hnone r Hr. destruct (is_repeating r) eqn:E; [|reflexivity].
    apply detect_pattern_repeating_inv in Hr; [|exact E].
    unfold repeating_search in Hr. fold l in Hr.
    rewrite first_return_none in Hr; [discriminate|].
    intros b Hb. rewrite try_block_size_spec by assumption.
    rewrite (accepts_threshold b l (Hone b Hb)).
    now rewrite (Hnone b Hb).
Qed.

Lemma detect_pattern_repeating_search_witness :
  (Z.of_nat (List.length quarterly_readings) < 2 ^ 49)%Z /\
  2 <= List.length (non_empty_of quarterly_readings) /\
  List.length (fromkeys (non_empty_of quarterly_readings)) <> 1 /\
  block_template ["Q1"; "1/2/2024"; "10"] = ["Q1"; "<date>"; "<number>"] /\
  detect_pattern quarterly_readings =
  Ok (Repeating 3 ["Q1"; "<date>"; "<number>"] 4 13 ["Q1"; "1/2/2024"; "10"]
        (Some [{| block_index := 2; position := 6;
                  expected_template := ["Q1"; "<date>"; "<number>"];
                  actual_values := ["Q1"; "3-4-2024"; "n/a"] |}])).
Proof.
  assert (H1 : (Z.of_nat (List.length quarterly_readings) < 2 ^ 49)%Z) by reflexivity.
  assert (H2 : 2 <= List.length (non_empty_of quarterly_readings))
    by (vm_compute; lia).
  assert (H3 : List.length (fromkeys (non_empty_of quarterly_readings)) <> 1)
    by (vm_compute; discriminate).
  split; [exact H1|]. split; [exact H2|]. split; [exact H3|].
  destruct (detect_pattern_repeating_search quarterly_readings H1 H2 H3)
    as (_ & _ & Ht & H & _).
  split; [exact (Ht ["Q1"; "1/2/2024"; "10"])|].
  apply (H 3).
  - vm_compute. auto.
  - vm_compute. reflexivity.
  - intros b' Hin Hlt. vm_compute in Hin.
    destruct Hin as [<-|[<-|[<-|[<-|[<-|[<-|[]]]]]]]; try lia;
      vm_compute; reflexivity.
Defined.

Lemma length_breaks_from b t : forall cs idx,
  List.length (breaks_from b t idx cs) + List.length (filter (chunk_matches t) cs)
  = List.length cs.
Proof.
  unfold breaks_from. induction cs as [|c cs IH]; intros idx; [reflexivity|].
  cbn [List.length seq combine flat_map filter snd fst].
  destruct (chunk_matches t c); cbn [app List.length]; specialize (IH (S idx)); lia.
Qed.

(** C10: for an input of fewer than [2^49] values, every [repeating] result
    has a block size between 1 and 10, at least two repeats, no more items in
    its blocks than [total_items], which is the number of non-blank values,
    and break entries for at most 30% of its blocks. *)
Theorem detect_pattern_repeating_bounds values bs t rc ti sample brs :
  (Z.of_nat (List.length values) < 2 ^ 49)%Z ->
  detect_pattern values = Ok (Repeating bs t rc ti sample brs) ->
  1 <= bs <= 10 /\ 2 <= rc /\ bs * rc <= ti /\
  ti = List.length (non_empty_of values) /\
  10 * List.length (breaks_of (Repeating bs t rc ti sample brs)) <= 3 * rc.
Proof.
  intros Hlen Hr.
  set (l := non_empty_of values).
  assert (Hl : (Z.of_nat (List.length l) < 2 ^ 49)%Z).
  { pose proof (length_non_empty_of values). unfold l. lia. }
  apply detect_pattern_repeating_inv in Hr; [|reflexivity].
  unfold repeating_search in Hr. fold l in Hr.
  apply first_return_some in Hr as (b & Hb & Hr).
  rewrite try_block_size_spec in Hr by assumption.
  destruct (accepts b l) eqn:Hacc; [|discriminate].
  pose proof (chunks_at_least_two b l Hb) as H2.
  pose proof (proj1 (in_block_sizes b l) Hb) as Hb'.
  unfold accepts, matching_chunks in Hacc. apply Nat.leb_le in Hacc.
  pose proof (length_breaks_from b (first_template b l) (chunks b l) 0) as Hbr.
  fold (chunk_breaks b l) in Hbr.
  unfold repeating_result in Hr. injection Hr as <- <- <- <- <- <-.
  rewrite length_chunks in *.
  assert (Hmul : b * (List.length l / b) <= List.length l)
    by (apply Nat.Div0.mul_div_le).
  repeat split; try lia.
  unfold breaks_of. destruct (chunk_breaks b l) eqn:E; simpl in *; lia.
Qed.

Lemma detect_pattern_repeating_bounds_witness :
  (Z.of_nat (List.length pairs_with_break) < 2 ^ 49)%Z /\
  detect_pattern pairs_with_break =
  Ok (Repeating 2 ["a"; "b"] 4 8 ["a"; "b"]
        (Some [{| block_index := 3; position := 6;
                  expected_template := ["a"; "b"];
                  actual_values := ["a"; "c"] |}])) /\
  1 <= 2 <= 10 /\ 2 <= 4 /\ 2 * 4 <= 8 /\
  8 = List.length (non_empty_of pairs_with_break) /\
  10 * 1 <= 3 * 4.
Proof.
  assert (H1 : (Z.of_nat (List.length pairs_with_break) < 2 ^ 49)%Z) by reflexivity.
  assert (H2 : detect_pattern pairs_with_break =
               Ok (Repeating 2 ["a"; "b"] 4 8 ["a"; "b"]
                     (Some [{| block_index := 3; position := 6;
                               expected_template := ["a"; "b"];
                               actual_values := ["a"; "c"] |}])))
    by (vm_compute; reflexivity).
  split; [exact H1|]. split; [exact H2|].
  exact (detect_pattern_repeating_bounds _ _ _ _ _ _ _ H1 H2).
Defined.

End RepeatingSearch.

(** ** The ranges and the flow of a column *)

Section FormulaFlow.
Local Open Scope Z_scope.

Lemma valid_zrange a b len :
  0 <= a -> b <= len -> Forall (fun i => 0 <= i < len) (zrange a b).
Proof.
  intros Ha Hb. unfold zrange. apply Forall_forall. intros i Hi.
  apply in_map_iff in Hi as (k & <- & Hk). apply in_seq in Hk. lia.
Qed.

Lemma column_formulas_rows row_data col_idx rows :
  0 <= col_idx ->
  Forall (fun i => 0 <= i < Z.of_nat (List.length row_data)) rows ->
  column_formulas row_data col_idx rows = Ok (formula_rows row_data col_idx rows).
Proof.
  intros Hc. induction rows as [|i rows IH]; intros H; [reflexivity|].
  inversion H; subst. rewrite column_formulas_cons by assumption.
  rewrite IH by assumption. reflexivity.
Qed.

Lemma total_count_app a b : total_count (a ++ b) = (total_count a + total_count b)%nat.
Proof. unfold total_count. now rewrite map_app, list_sum_app. Qed.

Lemma total_count_step F st i :
  total_count (open_list (scan_step F st i)) =
  (total_count (open_list st) + match F i with Some _ => 1 | None => 0 end)%nat.
Proof.
  destruct st as [ranges cur]. unfold scan_step, open_list.
  destruct (F i) as [f|].
  - unfold on_formula. cbn [snd fst]. destruct cur as [c|].
    + destruct (String.eqb (pattern c) (normalize_formula f)); cbn [snd fst];
        rewrite !total_count_app; unfold total_count; cbn; lia.
    + cbn [snd fst]. rewrite !total_count_app. unfold total_count. cbn. lia.
  - unfold save_current. cbn [snd fst]. destruct cur as [c|]; cbn [snd fst].
    + rewrite app_nil_r. lia.
    + lia.
Qed.

Lemma total_count_fold F rows : forall st,
  total_count (open_list (fold_left (scan_step F) rows st)) =
  (total_count (open_list st)
   + List.length (flat_map (fun i => match F i with Some f => [f] | None => [] end) rows))%nat.
Proof.
  induction rows as [|i rows IH]; intros st; cbn [fold_left flat_map]; [cbn; lia|].
  rewrite IH, total_count_step, length_app. destruct (F i); cbn; lia.
Qed.

(** X1: for a non-negative column index and start row, the [formula_count]s
    of the ranges [analyze_formula_ranges] returns add up to the number of
    formulas [analyze_column_types] collects for the column in [formulas]:
    every formula of the column is counted in exactly one range. *)
Theorem formula_counts_add_up row_data col_idx start :
  0 <= col_idx -> 0 <= start ->
  exists ranges fs,
    analyze_formula_ranges row_data col_idx start = Ok ranges /\
    column_formulas row_data col_idx
      (zrange start (Z.of_nat (List.length row_data))) = Ok fs /\
    total_count ranges = List.length fs.
Proof.
  intros Hc Hs.
  pose proof (valid_zrange start (Z.of_nat (List.length row_data)) _ Hs (Z.le_refl _)) as Hv.
  unfold analyze_formula_ranges.
  rewrite scan_rows_fold by assumption. cbn [bind].
  rewrite column_formulas_rows by assumption.
  do 2 eexists. split; [reflexivity|]. split; [reflexivity|].
  rewrite save_current_open_list, total_count_fold. reflexivity.
Qed.

Lemma formula_counts_add_up_witness :
  0 <= 0 /\ 0 <= 1 /\
  exists ranges fs,
    analyze_formula_ranges gap_column 0 1 = Ok ranges /\
    column_formulas gap_column 0
      (zrange 1 (Z.of_nat (List.length gap_column))) = Ok fs /\
    total_count ranges = List.length fs.
Proof.
  split; [lia|]. split; [lia|].
  apply (formula_counts_add_up gap_column 0 1); lia.
Defined.

(** X2: every range [analyze_formula_ranges] returns lies within the rows
    scanned, counts exactly the rows from its [start_row] to its [end_row]
    (so none of them is without a formula), has for [first_formula] the
    formula of its [start_row], and for [pattern] the normalisation of that
    formula. *)
Theorem formula_range_fields row_data col_idx start :
  0 <= col_idx -> 0 <= start ->
  exists ranges,
    analyze_formula_ranges row_data col_idx start = Ok ranges /\
    Forall (fun r =>
              start <= start_row r /\
              end_row r < Z.of_nat (List.length row_data) /\
              Z.of_nat (formula_count r) = end_row r - start_row r + 1 /\
              formula_at row_data col_idx (start_row r) = Some (first_formula r) /\
              pattern r = normalize_formula (first_formula r)) ranges.
Proof.
  intros Hc Hlo.
  destruct (scan_result row_data col_idx start Hc Hlo) as (st & Hrun & Hinv & Hempty).
  exists (open_list st). split; [exact Hrun|].
  destruct (Z_le_gt_dec start (Z.of_nat (List.length row_data))) as [Hle|Hgt].
  - destruct (Hinv Hle) as (Hruns & _).
    eapply Forall_impl; [|exact Hruns].
    intros r (H1 & H2 & H3 & H4 & H5 & H6 & H7 & H8 & H9).
    repeat split; auto.
    destruct (H4 (start_row r) ltac:(lia)) as (f & Hf & Hp). congruence.
  - rewrite Hempty by lia. constructor.
Qed.

Lemma formula_range_fields_witness :
  0 <= 0 /\ 0 <= 1 /\
  exists ranges,
    analyze_formula_ranges gap_column 0 1 = Ok ranges /\
    Forall (fun r =>
              1 <= start_row r /\
              end_row r < Z.of_nat (List.length gap_column) /\
              Z.of_nat (formula_count r) = end_row r - start_row r + 1 /\
              formula_at gap_column 0 (start_row r) = Some (first_formula r) /\
              pattern r = normalize_formula (first_formula r)) ranges.
Proof.
  split; [lia|]. split; [lia|].
  apply (formula_range_fields gap_column 0 1); lia.
Defined.

(** X3: [analyze_formula_ranges] returns the empty list exactly when no row
    from [start_row] on has a non-empty formula in the column. *)
Theorem formula_ranges_empty_iff row_data col_idx start :
  0 <= col_idx -> 0 <= start ->
  analyze_formula_ranges row_data col_idx start = Ok [] <->
  (forall i, start <= i < Z.of_nat (List.length row_data) ->
             formula_at row_data col_idx i = None).
Proof.
  intros Hc Hlo.
  destruct (scan_result row_data col_idx start Hc Hlo) as (st & Hrun & Hinv & Hempty).
  rewrite Hrun. split.
  - intros [= E] i Hi.
    destruct (Hinv ltac:(lia)) as (_ & _ & _ & Hcov & _).
    destruct (formula_at row_data col_idx i) eqn:HF; [|reflexivity].
    assert (Hne : formula_at row_data col_idx i <> None) by congruence.
    specialize (Hcov i Hi Hne). rewrite E in Hcov. inversion Hcov.
  - intros Hnone. f_equal.
    destruct (Z_le_gt_dec start (Z.of_nat (List.length row_data))) as [Hle|Hgt].
    + destruct (Hinv Hle) as (Hruns & _).
      destruct (open_list st) as [|r rs]; [reflexivity|exfalso].
      inversion Hruns as [|? ? (H1 & H2 & H3 & H4 & _) _]; subst.
      destruct (H4 (start_row r) ltac:(lia)) as (f & Hf & _).
      rewrite Hnone in Hf by lia. discriminate.
    + now rewrite Hempty by lia.
Qed.

Lemma formula_ranges_empty_iff_witness :
  0 <= 0 /\ 0 <= 1 /\
  (forall i, 1 <= i < Z.of_nat (List.length plain_column) ->
             formula_at plain_column 0 i = None) /\
  analyze_formula_ranges plain_column 0 1 = Ok [] /\
  formula_at plain_column 0 0 = Some "=A1" /\
  analyze_formula_ranges plain_column 0 0 <> Ok [].
Proof.
  assert (Hc : 0 <= 0) by lia.
  assert (Hs : 0 <= 1) by lia.
  assert (Hrows : forall i, 1 <= i < Z.of_nat (List.length plain_column) ->
                            formula_at plain_column 0 i = None).
  { intros i Hi. cbn in Hi.
    assert (E : i = 1 \/ i = 2 \/ i = 3) by lia.
    destruct E as [E|[E|E]]; subst i; reflexivity. }
  split; [exact Hc|]. split; [exact Hs|]. split; [exact Hrows|].
  split; [exact (proj2 (formula_ranges_empty_iff plain_column 0 1 Hc Hs) Hrows)|].
  split; [reflexivity|].
  intros E.
  assert (H0 : 0 <= 0 < Z.of_nat (List.length plain_column)) by (cbn; lia).
  pose proof (proj1 (formula_ranges_empty_iff plain_column 0 0 Hc Hc) E 0 H0) as H.
  discriminate H.
Defined.

(** *** Flow *)

Lemma look_ahead_spec row_data col_idx :
  0 <= col_idx ->
  forall n a,
    0 <= a -> a + Z.of_nat n <= Z.of_nat (List.length row_data) ->
    exists res,
      look_ahead row_data col_idx (zrange a (a + Z.of_nat n)) = Ok res /\
      match res with
      | Some k =>
          a <= k - 1 < a + Z.of_nat n /\
          formula_at row_data col_idx (k - 1) <> None /\
          (forall i, a <= i < k - 1 -> formula_at row_data col_idx i = None)
      | None =>
          forall i, a <= i < a + Z.of_nat n -> formula_at row_data col_idx i = None
      end.
Proof.
  intros Hc. induction n as [|n IH]; intros a Ha Hlen.
  - rewrite zrange_nil by lia. exists None. split; [reflexivity|]. intros i Hi. lia.
  - assert (E : a + Z.of_nat (S n) = a + 1 + Z.of_nat n) by lia.
    rewrite E in *. clear E.
    rewrite zrange_cons by lia. rewrite look_ahead_cons by lia.
    destruct (formula_at row_data col_idx a) as [f|] eqn:HF.
    + exists (Some (a + 1)). split; [reflexivity|].
      replace (a + 1 - 1) with a by lia.
      split; [lia|]. split; [congruence|]. intros i Hi. lia.
    + destruct (IH (a + 1) ltac:(lia) Hlen) as (res & Hres & Hspec).
      exists res. split; [exact Hres|].
      destruct res as [k|].
      * destruct Hspec as (H1 & H2 & H3).
        split; [lia|]. split; [exact H2|].
        intros i Hi. destruct (Z.eq_dec i a) as [->|]; [exact HF|apply H3; lia].
      * intros i Hi. destruct (Z.eq_dec i a) as [->|]; [exact HF|apply Hspec; lia].
Qed.

Lemma flow_entry_spec row_data col_idx r :
  0 <= col_idx -> 0 <= end_row r ->
  exists e,
    flow_entry row_data col_idx r = Ok e /\
    mirrors r e /\
    break_ok (formula_at row_data col_idx) (Z.of_nat (List.length row_data)) r e.
Proof.
  intros Hc Hr. unfold flow_entry.
  set (len := Z.of_nat (List.length row_data)).
  destruct (Z.ltb_spec (end_row r) (len - 1)) as [Hlt|Hge].
  - set (a := end_row r + 1).
    set (n := Z.to_nat (Z.min (end_row r + 10) len - a)).
    assert (Hn : Z.min (end_row r + 10) len = a + Z.of_nat n) by (unfold n, a; lia).
    rewrite Hn.
    destruct (look_ahead_spec row_data col_idx Hc n a) as (res & -> & Hspec);
      [unfold a; lia | fold len; lia |].
    cbn [bind]. destruct res as [k|].
    + destruct Hspec as (H1 & H2 & H3).
      destruct (Z.eqb_spec k 0) as [E|_]; [lia|]. cbn [bind].
      eexists. split; [reflexivity|]. split; [repeat split|].
      unfold break_ok. cbn [flow_break flow_end_row break_after continues_at_row break_size].
      fold a. repeat split; try lia; auto.
      intros j Hj. apply H3. lia.
    + cbn [bind]. eexists. split; [reflexivity|]. split; [repeat split|].
      unfold break_ok. cbn [flow_break flow_end_row]. fold a.
      intros j Hj Hjl. apply Hspec. lia.
  - cbn [bind]. eexists. split; [reflexivity|]. split; [repeat split|].
    unfold break_ok. cbn [flow_break flow_end_row]. intros j Hj Hjl. fold len in Hjl. lia.
Qed.

Lemma formula_flow_spec row_data col_idx : forall ranges,
  0 <= col_idx -> Forall (fun r => 0 <= end_row r) ranges ->
  exists flow,
    formula_flow row_data col_idx ranges = Ok flow /\
    Forall2 (fun r e =>
               mirrors r e /\
               break_ok (formula_at row_data col_idx)
                        (Z.of_nat (List.length row_data)) r e) ranges flow.
Proof.
  intros ranges Hc. induction ranges as [|r ranges IH]; intros H.
  - exists []. split; [reflexivity|constructor].
  - inversion H; subst.
    destruct (flow_entry_spec row_data col_idx r Hc) as (e & He & Hm & Hb); [assumption|].
    destruct IH as (flow & Hf & Hall); [assumption|].
    exists (e :: flow). cbn [formula_flow]. rewrite He, Hf. cbn [bind].
    split; [reflexivity|]. constructor; auto.
Qed.

Lemma scan_summary row_data col_idx start :
  0 <= col_idx -> 0 <= start ->
  exists st,
    analyze_formula_ranges row_data col_idx start = Ok (open_list st) /\
    column_formulas row_data col_idx
      (zrange start (Z.of_nat (List.length row_data))) =
    Ok (formula_rows row_data col_idx
          (zrange start (Z.of_nat (List.length row_data)))) /\
    total_count (open_list st) =
    List.length (formula_rows row_data col_idx
                   (zrange start (Z.of_nat (List.length row_data)))) /\
    (start <= Z.of_nat (List.length row_data) ->
     scan_inv (formula_at row_data col_idx) start
              (Z.of_nat (List.length row_data)) st) /\
    (Z.of_nat (List.length row_data) < start -> st = ([], None)).
Proof.
  intros Hc Hs.
  destruct (scan_result row_data col_idx start Hc Hs) as (st & Hrun & Hinv & Hempty).
  exists st. split; [exact Hrun|].
  pose proof (valid_zrange start (Z.of_nat (List.length row_data)) _ Hs (Z.le_refl _)) as Hv.
  split; [now apply column_formulas_rows|]. split; [|split; assumption].
  unfold analyze_formula_ranges in Hrun.
  rewrite scan_rows_fold in Hrun by assumption. cbn [bind] in Hrun.
  rewrite save_current_open_list in Hrun. injection Hrun as Hrun.
  rewrite <- Hrun, total_count_fold. reflexivity.
Qed.

Lemma ranges_nonneg F lo k rs :
  0 <= lo -> Forall (run_upto F lo k) rs -> Forall (fun r => 0 <= end_row r) rs.
Proof.
  intros Hlo H. eapply Forall_impl; [|exact H].
  intros r (H1 & H2 & _). lia.
Qed.

Lemma total_count_zero F lo k rs :
  Forall (run_upto F lo k) rs -> total_count rs = 0%nat -> rs = [].
Proof.
  destruct rs as [|r rs]; [reflexivity|]. intros H.
  inversion H as [|? ? (H1 & H2 & H3 & H4 & H5 & H6 & H7 & _) _]; subst.
  unfold total_count. cbn. lia.
Qed.

Lemma column_flow_summary row_data col_idx start :
  0 <= col_idx -> 0 <= start ->
  exists ranges flow,
    analyze_formula_ranges row_data col_idx start = Ok ranges /\
    formula_flow row_data col_idx ranges = Ok flow /\
    column_formula_flow row_data col_idx start =
      Ok (match ranges with [] => None | _ :: _ => Some flow end) /\
    Forall2 (fun r e =>
               mirrors r e /\
               break_ok (formula_at row_data col_idx)
                        (Z.of_nat (List.length row_data)) r e) ranges flow /\
    Forall (run_upto (formula_at row_data col_idx) start
                     (Z.of_nat (List.length row_data))) ranges /\
    (forall i, start <= i < Z.of_nat (List.length row_data) ->
               formula_at row_data col_idx i <> None ->
               Exists (fun r => start_row r <= i <= end_row r) ranges) /\
    StronglySorted before ranges.
Proof.
  intros Hc Hs.
  destruct (scan_summary row_data col_idx start Hc Hs)
    as (st & Hrun & Hcf & Hcount & Hinv & Hempty).
  assert (Hfacts :
    Forall (run_upto (formula_at row_data col_idx) start
                     (Z.of_nat (List.length row_data))) (open_list st) /\
    (forall i, start <= i < Z.of_nat (List.length row_data) ->
               formula_at row_data col_idx i <> None ->
               Exists (fun r => start_row r <= i <= end_row r) (open_list st)) /\
    StronglySorted before (open_list st)).
  { destruct (Z_le_gt_dec start (Z.of_nat (List.length row_data))) as [Hle|Hgt].
    - destruct (Hinv Hle) as (Hruns & _ & _ & Hcov & Hsort). auto.
    - rewrite Hempty by lia. unfold open_list. cbn.
      split; [constructor|]. split; [|constructor]. intros i Hi. lia. }
  destruct Hfacts as (Hruns & Hcov & Hsort).
  destruct (formula_flow_spec row_data col_idx (open_list st) Hc) as (flow & Hf & H2).
  { eapply ranges_nonneg; eauto. }
  exists (open_list st), flow. split; [exact Hrun|]. split; [exact Hf|].
  split; [|auto].
  unfold column_formula_flow. rewrite Hcf. cbn [bind].
  destruct (formula_rows row_data col_idx _) as [|f fs] eqn:E.
  - cbn in Hcount. rewrite (total_count_zero _ _ _ _ Hruns Hcount). reflexivity.
  - rewrite Hrun. cbn [bind]. rewrite Hf. cbn [bind].
    destruct (open_list st); [discriminate Hcount|reflexivity].
Qed.

(** X4: the [formula_flow] of a column is absent exactly when the column has
    no range, and otherwise has one entry per range, in order.  An entry
    repeats its range with 1-based rows and the first three formulas as
    [examples].  Its break keys, when set, name the first of the nine rows
    after the range that has a formula, the rows in between having none, and
    [break_size] is the number of rows in between; when they are not set,
    none of the nine rows after the range (as far as the sheet goes) has a
    formula. *)
Theorem column_formula_flow_entries row_data col_idx start :
  0 <= col_idx -> 0 <= start ->
  exists ranges flow,
    analyze_formula_ranges row_data col_idx start = Ok ranges /\
    formula_flow row_data col_idx ranges = Ok flow /\
    column_formula_flow row_data col_idx start =
      Ok (match ranges with [] => None | _ :: _ => Some flow end) /\
    Forall2 (fun r e =>
               mirrors r e /\
               break_ok (formula_at row_data col_idx)
                        (Z.of_nat (List.length row_data)) r e) ranges flow.
Proof.
  intros Hc Hs.
  destruct (column_flow_summary row_data col_idx start Hc Hs)
    as (ranges & flow & H1 & H2 & H3 & H4 & _).
  exists ranges, flow. auto.
Qed.

Lemma column_formula_flow_entries_witness :
  0 <= 0 /\ 0 <= 1 /\
  exists ranges flow,
    analyze_formula_ranges gap_column 0 1 = Ok ranges /\
    formula_flow gap_column 0 ranges = Ok flow /\
    column_formula_flow gap_column 0 1 =
      Ok (match ranges with [] => None | _ :: _ => Some flow end) /\
    Forall2 (fun r e =>
               mirrors r e /\
               break_ok (formula_at gap_column 0)
                        (Z.of_nat (List.length gap_column)) r e) ranges flow.
Proof.
  split; [lia|]. split; [lia|].
  apply (column_formula_flow_entries gap_column 0 1); lia.
Defined.

Lemma sorted_trichotomy {A} (R : A -> A -> Prop) l :
  StronglySorted R l ->
  forall a b, In a l -> In b l -> a = b \/ R a b \/ R b a.
Proof.
  induction 1 as [|x l Hs IH Hx]; intros a b Ha Hb; [destruct Ha|].
  rewrite Forall_forall in Hx.
  destruct Ha as [<-|Ha], Hb as [<-|Hb]; auto.
Qed.

Lemma Forall2_in_r {A B} (P : A -> B -> Prop) l1 l2 :
  Forall2 P l1 l2 -> forall b, In b l2 -> exists a, In a l1 /\ P a b.
Proof.
  induction 1 as [|a b l1 l2 Hab H IH]; intros y Hy; [destruct Hy|].
  destruct Hy as [<-|Hy].
  - exists a. split; [now left|exact Hab].
  - destruct (IH y Hy) as (x & Hx & Hp). exists x. split; [now right|exact Hp].
Qed.

Lemma Forall2_in_l {A B} (P : A -> B -> Prop) l1 l2 :
  Forall2 P l1 l2 -> forall a, In a l1 -> exists b, In b l2 /\ P a b.
Proof.
  induction 1 as [|a b l1 l2 Hab H IH]; intros x Hx; [destruct Hx|].
  destruct Hx as [<-|Hx].
  - exists b. split; [now left|exact Hab].
  - destruct (IH x Hx) as (y & Hy & Hp). exists y. split; [now right|exact Hp].
Qed.

(** X5: when an entry of a column's [formula_flow] carries a break, the row
    it names in [continues_at_row] is the [start_row] of an entry of the same
    flow: the column does go on there. *)
Theorem flow_continues_at_an_entry row_data col_idx start flow e b :
  0 <= col_idx -> 0 <= start ->
  column_formula_flow row_data col_idx start = Ok (Some flow) ->
  In e flow -> flow_break e = Some b ->
  exists e', In e' flow /\ flow_start_row e' = continues_at_row b.
Proof.
  intros Hc Hs Hflow He Hb.
  destruct (column_flow_summary row_data col_idx start Hc Hs)
    as (ranges & flow' & _ & _ & H3 & H4 & Hruns & Hcov & Hsort).
  rewrite H3 in Hflow. destruct ranges as [|r0 rs] eqn:Er; [discriminate|].
  injection Hflow as ->. rewrite <- Er in *. clear Er r0 rs H3.
  destruct (Forall2_in_r _ _ _ H4 e He) as (r & Hr & Hm & Hbrk).
  unfold break_ok in Hbrk. rewrite Hb in Hbrk.
  destruct Hbrk as (_ & Hrange & Hlen & _ & Hthere & Hgap).
  destruct Hm as (_ & Hend & _).
  set (F := formula_at row_data col_idx) in *.
  set (c := continues_at_row b - 1) in *.
  rewrite Forall_forall in Hruns.
  destruct (Hruns r Hr) as (Hr1 & Hr2 & Hr3 & _).
  assert (Hc' : start <= c < Z.of_nat (List.length row_data)) by (unfold c; lia).
  specialize (Hcov c Hc' Hthere). apply Exists_exists in Hcov as (r' & Hr' & Hin).
  destruct (Hruns r' Hr') as (Hs1 & Hs2 & Hs3 & Hpat & _).
  assert (Hstart : start_row r' = c).
  { destruct (Z.eq_dec (start_row r') c) as [E|E]; [exact E|exfalso].
    assert (Hlow : start_row r' <= end_row r).
    { destruct (Z_le_gt_dec (start_row r') (end_row r)) as [H|H]; [exact H|exfalso].
      destruct (Hpat (start_row r') ltac:(lia)) as (f & Hf & _).
      pose proof (Hgap (start_row r' + 1) ltac:(unfold c in *; lia)) as Hg.
      replace (start_row r' + 1 - 1) with (start_row r') in Hg by lia.
      congruence. }
    destruct (sorted_trichotomy _ _ Hsort r r' Hr Hr') as [->|[Hbefore|Hbefore]];
      unfold before in *; unfold c in *; lia. }
  destruct (Forall2_in_l _ _ _ H4 r' Hr') as (e' & He' & (Hm' & _) & _).
  exists e'. split; [exact He'|]. unfold c in *. lia.
Qed.

Lemma flow_continues_at_an_entry_witness :
  0 <= 0 /\ 0 <= 1 /\
  exists flow e b,
    column_formula_flow gap_column 0 1 = Ok (Some flow) /\
    In e flow /\ flow_break e = Some b /\ continues_at_row b = 7 /\
    exists e', In e' flow /\ flow_start_row e' = continues_at_row b.
Proof.
  split; [lia|]. split; [lia|].
  do 3 eexists.
  split; [vm_compute; reflexivity|].
  split; [left; reflexivity|].
  split; [reflexivity|].
  split; [reflexivity|].
  eapply (flow_continues_at_an_entry gap_column 0 1).
  - lia.
  - lia.
  - vm_compute. reflexivity.
  - left. reflexivity.
  - reflexivity.
Defined.

(** *** One formula copied down *)

(** X6: when every row from [start_row] to the last one has a formula in the
    column, and all these formulas have the signature [p], as the copies of
    one formula filled down a column have, [analyze_formula_ranges] returns a
    single range; it runs from [start_row] to the last row, counts all of
    them, and has the pattern [p]. *)
Theorem formula_ranges_one_signature row_data col_idx start p :
  0 <= col_idx -> 0 <= start < Z.of_nat (List.length row_data) ->
  (forall i, start <= i < Z.of_nat (List.length row_data) ->
             exists f, formula_at row_data col_idx i = Some f /\
                       normalize_formula f = p) ->
  exists r,
    analyze_formula_ranges row_data col_idx start = Ok [r] /\
    start_row r = start /\ end_row r = Z.of_nat (List.length row_data) - 1 /\
    pattern r = p /\
    Z.of_nat (formula_count r) = Z.of_nat (List.length row_data) - start /\
    formula_at row_data col_idx start = Some (first_formula r).
Proof.
  intros Hc Hs Hall.
  set (len := Z.of_nat (List.length row_data)) in *.
  set (F := formula_at row_data col_idx) in *.
  destruct (scan_summary row_data col_idx start Hc ltac:(lia))
    as (st & Hrun & _ & _ & Hinv & _).
  destruct (Hinv ltac:(lia)) as (Hruns & _ & Hcur & _ & Hsort).
  fold len F in Hruns, Hcur.
  assert (Hpat : forall r, run_upto F start len r -> pattern r = p).
  { intros r (H1 & H2 & H3 & H4 & _).
    destruct (H4 (start_row r) ltac:(lia)) as (f & Hf & Hn).
    destruct (Hall (start_row r) ltac:(lia)) as (f' & Hf' & Hn').
    congruence. }
  assert (Hstart : forall r, run_upto F start len r -> start_row r = start).
  { intros r Hr. pose proof (Hpat r Hr) as Hp.
    destruct (Z.eq_dec (start_row r) start) as [E|E]; [exact E|exfalso].
    destruct Hr as (H1 & H2 & H3 & _ & [H5|H5] & _); [contradiction|].
    destruct (Hall (start_row r - 1) ltac:(lia)) as (f & Hf & Hn).
    apply (H5 f Hf). congruence. }
  destruct st as [saved [c|]]; cbn [snd fst] in *.
  - unfold open_list in *. cbn [fst snd] in *.
    apply Forall_app in Hruns as [Hsaved Hc'].
    inversion Hc' as [|? ? Hrc _]; subst.
    assert (Hnil : saved = []).
    { destruct saved as [|r saved]; [reflexivity|exfalso].
      inversion Hsaved as [|? ? Hr _]; subst.
      cbn [app] in Hsort. inversion Hsort as [|? ? _ Hbefore]; subst.
      rewrite Forall_forall in Hbefore.
      specialize (Hbefore c ltac:(apply in_or_app; right; now left)).
      unfold before in Hbefore.
      pose proof (Hstart r Hr). pose proof (Hstart c Hrc).
      destruct Hr as (_ & ? & _). lia. }
    subst saved. cbn [app] in Hrun. exists c.
    split; [exact Hrun|]. split; [now apply Hstart|]. split; [exact Hcur|].
    split; [now apply Hpat|].
    pose proof (Hstart c Hrc) as Hsc.
    destruct Hrc as (_ & _ & _ & _ & _ & Hfirst & Hcount & _).
    split; [lia|]. now rewrite <- Hsc.
  - exfalso. destruct Hcur as [Hcur|Hcur]; [lia|].
    destruct (Hall (len - 1) ltac:(lia)) as (f & Hf & _). congruence.
Qed.

Lemma formula_ranges_one_signature_witness :
  0 <= 0 /\ 0 <= 1 < Z.of_nat (List.length copied_column) /\
  (forall i, 1 <= i < Z.of_nat (List.length copied_column) ->
             exists f, formula_at copied_column 0 i = Some f /\
                       normalize_formula f = "={REL}*{ABS}") /\
  exists r,
    analyze_formula_ranges copied_column 0 1 = Ok [r] /\
    start_row r = 1 /\ end_row r = Z.of_nat (List.length copied_column) - 1 /\
    pattern r = "={REL}*{ABS}" /\
    Z.of_nat (formula_count r) = Z.of_nat (List.length copied_column) - 1 /\
    formula_at copied_column 0 1 = Some (first_formula r).
Proof.
  assert (H1 : 0 <= 0) by lia.
  assert (H2 : 0 <= 1 < Z.of_nat (List.length copied_column)) by (cbn; lia).
  assert (H3 : forall i, 1 <= i < Z.of_nat (List.length copied_column) ->
                         exists f, formula_at copied_column 0 i = Some f /\
                                   normalize_formula f = "={REL}*{ABS}").
  { intros i Hi. cbn in Hi.
    assert (E : i = 1 \/ i = 2 \/ i = 3) by lia.
    destruct E as [E | [E | E]]; subst i; eexists; (split; [reflexivity|reflexivity]). }
  split; [exact H1|]. split; [exact H2|]. split; [exact H3|].
  exact (formula_ranges_one_signature copied_column 0 1 "={REL}*{ABS}" H1 H2 H3).
Defined.


End FormulaFlow.

(** ** The formula keys of a column *)

Section ColumnReport.
Local Open Scope Z_scope.

(** X23: in the entry [analyze_column_types] writes for a column with
    formulas, [formula_count] is the sum of the [row_count]s of the entries
    of [formula_flow], and [formula_ranges] is the number of these entries,
    which is at least 1 and at most [formula_count]; every entry counts at
    least one row, and exactly the rows from its [start_row] to its
    [end_row]. *)
Theorem column_report_counts row_data col_idx start keys :
  0 <= col_idx -> 0 <= start ->
  Report.formula_keys row_data col_idx start = Ok (Some keys) ->
  Report.column_formula_count keys =
    list_sum (map row_count (Report.column_formula_flow_key keys)) /\
  Report.column_formula_ranges keys =
    List.length (Report.column_formula_flow_key keys) /\
  (1 <= Report.column_formula_ranges keys <= Report.column_formula_count keys)%nat /\
  Forall (fun e => (1 <= row_count e)%nat /\
                   Z.of_nat (row_count e) = flow_end_row e - flow_start_row e + 1)
         (Report.column_formula_flow_key keys) /\
  column_formula_flow row_data col_idx start =
    Ok (Some (Report.column_formula_flow_key keys)).
Proof.
  intros Hc Hs Hk.
  destruct (scan_summary row_data col_idx start Hc Hs)
    as (st & Hrun & Hcf & Hcount & Hinv & Hempty).
  destruct (column_flow_summary row_data col_idx start Hc Hs)
    as (ranges & flow & H1 & H2 & H3 & H4 & Hruns & _).
  assert (Er : ranges = open_list st) by congruence. subst ranges.
  unfold Report.formula_keys in Hk. rewrite Hcf in Hk. cbn [bind] in Hk.
  destruct (formula_rows row_data col_idx _) as [|f fs] eqn:E; [discriminate|].
  rewrite H1 in Hk. cbn [bind] in Hk. rewrite H2 in Hk. cbn [bind] in Hk.
  injection Hk as <-. cbn [Report.column_formula_count Report.column_formula_ranges
                            Report.column_formula_flow_key].
  assert (Hlen : List.length (open_list st) = List.length flow)
    by (eapply Forall2_length; eauto).
  assert (Hsum : total_count (open_list st) = list_sum (map row_count flow)).
  { clear - H4. unfold total_count.
    induction H4 as [|r e rs es [(_ & _ & Hm & _) _] _ IH]; [reflexivity|].
    change (list_sum (map formula_count (r :: rs)))
      with (formula_count r + list_sum (map formula_count rs))%nat.
    change (list_sum (map row_count (e :: es)))
      with (row_count e + list_sum (map row_count es))%nat.
    now rewrite Hm, IH. }
  assert (Hrows : Forall (fun e => (1 <= row_count e)%nat /\
                    Z.of_nat (row_count e) = flow_end_row e - flow_start_row e + 1)
                    flow).
  { clear - H4 Hruns.
    induction H4 as [|r e rs es [(Ha & Hb & Hm & _) _] _ IH]; [constructor|].
    inversion Hruns as [|? ? (_ & H2 & _ & _ & _ & _ & H7 & _) Hruns']; subst.
    constructor; [|now apply IH]. rewrite Hm, Ha, Hb. lia. }
  assert (Hge : (List.length flow <= list_sum (map row_count flow))%nat).
  { clear - Hrows. induction Hrows as [|e es [He _] _ IH]; [reflexivity|].
    change (list_sum (map row_count (e :: es)))
      with (row_count e + list_sum (map row_count es))%nat.
    cbn [List.length]. lia. }
  assert (Hne : (1 <= List.length flow)%nat).
  { rewrite <- Hlen. destruct (open_list st); [discriminate Hcount|cbn; lia]. }
  assert (Hsome : match open_list st with [] => None | _ :: _ => Some flow end
                  = Some flow)
    by (destruct (open_list st); [discriminate Hcount|reflexivity]).
  cbn [List.length] in Hcount.
  split; [lia|]. split; [exact Hlen|]. split; [lia|].
  split; [exact Hrows|]. now rewrite H3, Hsome.
Qed.

Lemma column_report_counts_witness :
  0 <= 0 /\ 0 <= 1 /\
  exists keys,
    Report.formula_keys gap_column 0 1 = Ok (Some keys) /\
    Report.column_formula_count keys = 6%nat /\
    Report.column_formula_count keys =
      list_sum (map row_count (Report.column_formula_flow_key keys)) /\
    Report.column_formula_ranges keys =
      List.length (Report.column_formula_flow_key keys) /\
    (1 <= Report.column_formula_ranges keys <= Report.column_formula_count keys)%nat /\
    Forall (fun e => (1 <= row_count e)%nat /\
                     Z.of_nat (row_count e) = flow_end_row e - flow_start_row e + 1)
           (Report.column_formula_flow_key keys) /\
    column_formula_flow gap_column 0 1 =
      Ok (Some (Report.column_formula_flow_key keys)).
Proof.
  split; [lia|]. split; [lia|].
  eexists. split; [vm_compute; reflexivity|]. split; [reflexivity|].
  apply (column_report_counts gap_column 0 1).
  - lia.
  - lia.
  - vm_compute. reflexivity.
Defined.

End ColumnReport.


(** ** The examples of a range *)

Section RangeExamples.
Local Open Scope Z_scope.

Lemma zrange_snoc a b : a <= b -> zrange a (b + 1) = zrange a b ++ [b].
Proof.
  intros H. unfold zrange.
  replace (Z.to_nat (b + 1 - a)) with (S (Z.to_nat (b - a))) by lia.
  rewrite seq_S, map_app. cbn [map Nat.add]. f_equal. f_equal. lia.
Qed.

Lemma formulas_between_one F i f :
  F i = Some f -> formulas_between F i i = [f].
Proof.
  intros H. unfold formulas_between. rewrite zrange_cons by lia.
  rewrite zrange_nil by lia. cbn. now rewrite H.
Qed.

Lemma formulas_between_snoc F lo k f :
  lo <= k -> F k = Some f ->
  formulas_between F lo k = formulas_between F lo (k - 1) ++ [f].
Proof.
  intros Hk H. unfold formulas_between.
  replace (k - 1 + 1) with k by lia.
  rewrite zrange_snoc by lia. rewrite flat_map_app. cbn. now rewrite H.
Qed.

Lemma firstn_snoc {A} (l : list A) x :
  firstn 3 (l ++ [x]) =
  if (List.length (firstn 3 l) <? 3)%nat then firstn 3 l ++ [x] else firstn 3 l.
Proof.
  destruct l as [|a [|b [|c l]]]; try reflexivity.
Qed.

Lemma keeps_first_three_step F lo k st :
  lo <= k -> scan_inv F lo k st ->
  Forall (keeps_first_three F) (open_list st) ->
  Forall (keeps_first_three F) (open_list (scan_step F st k)).
Proof.
  intros Hk (Hruns & _ & Hcur & _) HQ. destruct st as [saved cur].
  unfold scan_step, open_list in *. cbn [fst snd] in *.
  destruct (F k) as [f|] eqn:HF.
  - assert (Hnew : keeps_first_three F (new_range k (normalize_formula f) f)).
    { unfold keeps_first_three. cbn [formulas start_row end_row new_range].
      now rewrite (formulas_between_one F k f HF). }
    unfold on_formula. cbn [fst snd]. destruct cur as [c|]; cbn [fst snd].
    + apply Forall_app in HQ as [HQs HQc]. inversion HQc as [|? ? Hc _]; subst.
      destruct (String.eqb (pattern c) (normalize_formula f)); cbn [fst snd].
      * apply Forall_app. split; [exact HQs|]. constructor; [|constructor].
        apply Forall_app in Hruns as [_ Hrc].
        inversion Hrc as [|? ? (H1 & H2 & _) _]; subst.
        unfold keeps_first_three in *.
        cbn [formulas start_row end_row extend_range].
        rewrite (formulas_between_snoc F (start_row c) k f) by (assumption || lia).
        replace (k - 1) with (end_row c) by lia.
        rewrite firstn_snoc, <- Hc. reflexivity.
      * rewrite <- app_assoc. apply Forall_app. split; [exact HQs|].
        constructor; [exact Hc|]. constructor; [exact Hnew|constructor].
    + apply Forall_app. split; [|constructor; [exact Hnew|constructor]].
      now apply Forall_app in HQ as [HQs _].
  - unfold save_current. cbn [fst snd]. destruct cur as [c|]; cbn [fst snd].
    + now rewrite app_nil_r.
    + exact HQ.
Qed.

Lemma keeps_first_three_fold F lo : forall n k st,
  lo <= k -> scan_inv F lo k st ->
  Forall (keeps_first_three F) (open_list st) ->
  Forall (keeps_first_three F)
         (open_list (fold_left (scan_step F) (zrange k (k + Z.of_nat n)) st)).
Proof.
  induction n as [|n IH]; intros k st Hk Hinv HQ.
  - rewrite zrange_nil by lia. exact HQ.
  - replace (k + Z.of_nat (S n)) with (k + 1 + Z.of_nat n) by lia.
    rewrite zrange_cons by lia. cbn [fold_left].
    apply IH; [lia|now apply scan_inv_step|now apply (keeps_first_three_step F lo)].
Qed.

(** X24: the [formulas] kept in a range are the formulas of its first three
    rows (of all its rows when it has fewer), in order, and so are the
    [examples] of its flow entry. *)
Theorem formula_range_examples row_data col_idx start :
  0 <= col_idx -> 0 <= start ->
  exists ranges flow,
    analyze_formula_ranges row_data col_idx start = Ok ranges /\
    formula_flow row_data col_idx ranges = Ok flow /\
    Forall (keeps_first_three (formula_at row_data col_idx)) ranges /\
    Forall (fun e =>
              examples e =
              firstn 3 (formulas_between (formula_at row_data col_idx)
                          (flow_start_row e - 1) (flow_end_row e - 1))) flow.
Proof.
  intros Hc Hs.
  destruct (column_flow_summary row_data col_idx start Hc Hs)
    as (ranges & flow & H1 & H2 & _ & H4 & _).
  exists ranges, flow. split; [exact H1|]. split; [exact H2|].
  assert (HQ : Forall (keeps_first_three (formula_at row_data col_idx)) ranges).
  { pose proof (valid_zrange start (Z.of_nat (List.length row_data)) _ Hs
                  (Z.le_refl _)) as Hv.
    unfold analyze_formula_ranges in H1.
    rewrite scan_rows_fold in H1 by assumption. cbn [bind] in H1.
    rewrite save_current_open_list in H1. injection H1 as <-.
    destruct (Z_le_gt_dec start (Z.of_nat (List.length row_data))) as [Hle|Hgt].
    - replace (zrange start (Z.of_nat (List.length row_data)))
        with (zrange start
                (start + Z.of_nat (Z.to_nat (Z.of_nat (List.length row_data) - start))))
        by (f_equal; lia).
      apply (keeps_first_three_fold _ start); [lia|apply scan_inv_init|constructor].
    - rewrite zrange_nil by lia. constructor. }
  split; [exact HQ|].
  clear - H4 HQ. induction H4 as [|r e rs es [(Ha & Hb & _ & _ & _ & He) _] _ IH];
    [constructor|].
  inversion HQ as [|? ? Hr HQ']; subst. constructor; [|now apply IH].
  rewrite He, Ha, Hb. unfold keeps_first_three in Hr. rewrite Hr.
  replace (start_row r + 1 - 1) with (start_row r) by lia.
  replace (end_row r + 1 - 1) with (end_row r) by lia.
  now rewrite firstn_firstn.
Qed.

Lemma formula_range_examples_witness :
  0 <= 0 /\ 0 <= 1 /\
  exists ranges flow,
    analyze_formula_ranges gap_column 0 1 = Ok ranges /\
    formula_flow gap_column 0 ranges = Ok flow /\
    Forall (keeps_first_three (formula_at gap_column 0)) ranges /\
    Forall (fun e =>
              examples e =
              firstn 3 (formulas_between (formula_at gap_column 0)
                          (flow_start_row e - 1) (flow_end_row e - 1))) flow.
Proof.
  split; [lia|]. split; [lia|].
  apply (formula_range_examples gap_column 0 1); lia.
Defined.

End RangeExamples.


(** ** The rules of [detect_pattern] *)

Section PatternRules.
Local Open Scope nat_scope.

(** *** The distinct values *)

Lemma fromkeys_acc : forall l seen,
  NoDup seen ->
  let out := fold_left
               (fun seen v => if existsb (String.eqb v) seen then seen else seen ++ [v])
               l seen in
  NoDup out /\ (forall x, In x out <-> In x seen \/ In x l).
Proof.
  induction l as [|v l IH]; intros seen Hnd; cbn [fold_left].
  - split; [exact Hnd|]. intros x. cbn. tauto.
  - destruct (existsb (String.eqb v) seen) eqn:E.
    + destruct (IH seen Hnd) as [H1 H2]. split; [exact H1|].
      intros x. rewrite H2. cbn.
      apply existsb_exists in E as (y & Hy & Heq). apply String.eqb_eq in Heq. subst y.
      split; [tauto|]. intros [H|[<-|H]]; auto.
    + assert (Hnot : ~ In v seen).
      { intros Hin. assert (existsb (String.eqb v) seen = true); [|congruence].
        apply existsb_exists. exists v. split; [exact Hin|apply String.eqb_refl]. }
      destruct (IH (seen ++ [v])) as [H1 H2].
      { apply NoDup_app; [exact Hnd|repeat constructor; auto|].
        intros a Ha [<-|[]]. contradiction. }
      split; [exact H1|]. intros x. rewrite H2, in_app_iff. cbn. tauto.
Qed.

Lemma fromkeys_NoDup l : NoDup (fromkeys l).
Proof. apply (fromkeys_acc l []). constructor. Qed.

Lemma fromkeys_In l x : In x (fromkeys l) <-> In x l.
Proof.
  destruct (fromkeys_acc l [] (NoDup_nil _)) as [_ H]. unfold fromkeys.
  rewrite H. cbn. tauto.
Qed.

Lemma fromkeys_one l :
  List.length (fromkeys l) = 1 <-> exists v, In v l /\ forall x, In x l -> x = v.
Proof.
  split.
  - intros H. destruct (fromkeys l) as [|v [|w t]] eqn:E; try discriminate.
    exists v. split.
    + apply fromkeys_In. rewrite E. now left.
    + intros x Hx. apply fromkeys_In in Hx. rewrite E in Hx.
      destruct Hx as [<-|[]]. reflexivity.
  - intros (v & Hv & Hall).
    pose proof (fromkeys_NoDup l) as Hnd.
    destruct (fromkeys l) as [|a [|b t]] eqn:E.
    + apply fromkeys_In in Hv. rewrite E in Hv. destruct Hv.
    + reflexivity.
    + exfalso. assert (a = v) by (apply Hall, fromkeys_In; rewrite E; cbn; auto).
      assert (b = v) by (apply Hall, fromkeys_In; rewrite E; cbn; auto).
      subst. inversion Hnd; subst. apply H1. now left.
Qed.

(** *** The priority chain *)

Lemma detect_pattern_cases values r :
  detect_pattern values = Ok r ->
  let l := non_empty_of values in
  (values = [] /\ r = Empty) \/
  (values <> [] /\ l = [] /\ r = AllEmpty (List.length values)) \/
  (exists v, l = [v] /\ r = Single v) \/
  (2 <= List.length l /\ List.length (fromkeys l) = 1 /\
   r = Uniform (hd "" l) (List.length values)) \/
  (2 <= List.length l /\ List.length (fromkeys l) <> 1 /\
   ((repeating_search l = Some r /\ is_repeating r = true) \/
    (repeating_search l = None /\
     ((3 <= List.length l /\ mostly_dates l = true /\
       r = DateSequence (List.length l) (hd "" l) (last l "") (firstn 5 l)) \/
      (~ (3 <= List.length l /\ mostly_dates l = true) /\
       ((exists prefixes dominant,
           5 < List.length l /\ count_prefixes l [] = Ok prefixes /\
           max_by_count prefixes = Some dominant /\ dominates dominant l = true /\
           r = VariedWithPrefix (fst dominant) (snd dominant) (List.length l)
                                (firstn 5 l)) \/
        (prefix_check l = Ok None /\
         ((List.length (fromkeys l) <= 20 /\
           r = ListResult (fromkeys l) (List.length values)) \/
          (20 < List.length (fromkeys l) /\
           r = Varied (List.length (fromkeys l)) (List.length values)
                      (firstn 10 l)))))))))).
Proof.
  unfold detect_pattern. destruct values as [|v0 values].
  { intros [= <-]. left. auto. }
  cbv zeta. set (l := non_empty_of (v0 :: values)).
  destruct (Nat.eqb_spec (List.length l) 0) as [E0|E0].
  { intros [= <-]. right; left. split; [discriminate|].
    split; [|reflexivity]. destruct l; [reflexivity|discriminate]. }
  destruct (Nat.eqb_spec (List.length l) 1) as [E1|E1].
  { intros [= <-]. right; right; left.
    destruct l as [|v [|w t]]; try discriminate. exists v. auto. }
  destruct (Nat.eqb_spec (List.length (fromkeys l)) 1) as [Eu|Eu].
  { intros [= <-]. right; right; right; left. repeat split; auto. lia. }
  intros H. right; right; right; right.
  split; [lia|]. split; [exact Eu|].
  destruct (repeating_search l) as [r0|] eqn:Es.
  { injection H as <-. left. split; [reflexivity|].
    unfold repeating_search in Es. apply first_return_some in Es as (b & _ & Hb).
    unfold try_block_size in Hb.
    destruct (_ <? 2); [discriminate|].
    destruct (make_blocks b l); [discriminate|].
    destruct (check_blocks _ _ _ _ _ _). destruct (most_match _ _); [|discriminate].
    injection Hb as <-. reflexivity. }
  right. split; [reflexivity|].
  destruct ((3 <=? List.length l) && mostly_dates l) eqn:Ed.
  { injection H as <-. left. apply andb_true_iff in Ed as [Ea Eb].
    apply Nat.leb_le in Ea. auto. }
  right. split.
  { intros [Ha Hb]. apply Nat.leb_le in Ha. rewrite Ha, Hb in Ed. discriminate. }
  unfold prefix_check in *.
  destruct (5 <? List.length l) eqn:E5.
  - apply Nat.ltb_lt in E5.
    destruct (count_prefixes l []) as [prefixes|e]; cbn [bind] in *; [|discriminate].
    destruct (max_by_count prefixes) as [dominant|] eqn:Em; cbn [bind] in *.
    + destruct (dominates dominant l) eqn:Edom; cbn [bind] in *.
      * injection H as <-. left. exists prefixes, dominant. auto.
      * right. split; [reflexivity|].
        destruct (Nat.leb_spec (List.length (fromkeys l)) 20);
          injection H as <-; [left|right]; auto.
    + right. split; [reflexivity|].
      destruct (Nat.leb_spec (List.length (fromkeys l)) 20);
        injection H as <-; [left|right]; auto.
  - cbn [bind] in *. right. split; [reflexivity|].
    destruct (Nat.leb_spec (List.length (fromkeys l)) 20);
      injection H as <-; [left|right]; auto.
Qed.

(** X7: when [detect_pattern] returns each of its four first results.
    [empty]: for the empty list and no other; [all_empty]: for a non-empty
    list without a non-blank value, with the length of the list as [count];
    [single]: when exactly one value is not blank, that value; [uniform]:
    when there are at least two non-blank values and they are all equal, with
    that value and the length of the whole list, blanks included. *)
Theorem detect_pattern_cheap_rules values :
  (detect_pattern values = Ok Empty <-> values = []) /\
  (forall c, detect_pattern values = Ok (AllEmpty c) <->
             values <> [] /\ non_empty_of values = [] /\ c = List.length values) /\
  (forall v, detect_pattern values = Ok (Single v) <-> non_empty_of values = [v]) /\
  (forall v c, detect_pattern values = Ok (Uniform v c) <->
               2 <= List.length (non_empty_of values) /\
               (forall x, In x (non_empty_of values) -> x = v) /\
               c = List.length values).
Proof.
  assert (Hcases : forall r, detect_pattern values = Ok r ->
            is_repeating r = false -> rule_is_cheap r = true ->
            (values = [] /\ r = Empty) \/
            (values <> [] /\ non_empty_of values = [] /\
             r = AllEmpty (List.length values)) \/
            (exists v, non_empty_of values = [v] /\ r = Single v) \/
            (2 <= List.length (non_empty_of values) /\
             List.length (fromkeys (non_empty_of values)) = 1 /\
             r = Uniform (hd "" (non_empty_of values)) (List.length values))).
  { intros r Hr Hrep Hcheap.
    destruct (detect_pattern_cases values r Hr)
      as [H|[H|[H|[H|(_ & _ & [[_ H]|(_ & [H|(_ & [H|(_ & [H|H])])])])]]]]; auto.
    - congruence.
    - destruct H as (_ & _ & ->). discriminate.
    - destruct H as (? & ? & _ & _ & _ & _ & ->). discriminate.
    - destruct H as (_ & ->). discriminate.
    - destruct H as (_ & ->). discriminate. }
  split; [|split; [|split]].
  - split.
    + intros H. destruct (Hcases _ H eq_refl eq_refl)
        as [[E _]|[(_ & _ & E)|[(? & _ & E)|(_ & _ & E)]]]; auto; discriminate.
    + intros ->. reflexivity.
  - intros c. split.
    + intros H. destruct (Hcases _ H eq_refl eq_refl)
        as [[_ E]|[(E1 & E2 & E)|[(? & _ & E)|(_ & _ & E)]]]; try discriminate.
      injection E as ->. auto.
    + intros (Hne & Hl & ->). unfold detect_pattern.
      destruct values; [contradiction|]. now rewrite Hl.
  - intros v. split.
    + intros H. destruct (Hcases _ H eq_refl eq_refl)
        as [[_ E]|[(_ & _ & E)|[(w & Hw & E)|(_ & _ & E)]]]; try discriminate.
      injection E as ->. exact Hw.
    + intros Hl. unfold detect_pattern.
      destruct values; [discriminate|]. now rewrite Hl.
  - intros v c. split.
    + intros H. destruct (Hcases _ H eq_refl eq_refl)
        as [[_ E]|[(_ & _ & E)|[(w & Hw & E)|(H2 & Hu & E)]]]; try discriminate.
      injection E as -> ->. split; [exact H2|]. split; [|reflexivity].
      apply fromkeys_one in Hu as (w & Hw & Hall).
      intros x Hx. rewrite (Hall x Hx).
      destruct (non_empty_of values) as [|y t]; [destruct Hw|].
      cbn. symmetry. apply Hall. now left.
    + intros (H2 & Hall & ->). unfold detect_pattern.
      destruct values as [|v0 values]; [cbn in H2; lia|].
      set (l := non_empty_of (v0 :: values)) in *.
      destruct (Nat.eqb_spec (List.length l) 0); [lia|].
      destruct (Nat.eqb_spec (List.length l) 1); [lia|].
      assert (Hhd : hd "" l = v).
      { destruct l as [|y t]; [cbn in H2; lia|]. cbn. apply Hall. now left. }
      assert (Hu : List.length (fromkeys l) = 1).
      { apply fromkeys_one. exists v. split; [|exact Hall].
        destruct l as [|y t]; [cbn in H2; lia|]. left. apply Hall. now left. }
      rewrite Hu, Hhd. reflexivity.
Qed.

(** *** When it raises *)

Lemma value_prefix_blank v :
  blank_with_space v = true \/ exists p, value_prefix v = Ok p.
Proof.
  destruct (blank_with_space v) eqn:E; [now left|right].
  now apply value_prefix_returns.
Qed.

Lemma count_prefixes_raises : forall l prefixes e,
  count_prefixes l prefixes = Raise e <->
  exists v, In v l /\ blank_with_space v = true.
Proof.
  induction l as [|v l IH]; intros prefixes e; cbn [count_prefixes].
  - split; [discriminate|]. intros (v & [] & _).
  - destruct (value_prefix_blank v) as [Hb|[p Hp]].
    + rewrite (value_prefix_raises v Hb). cbn [bind]. split.
      * intros _. exists v. split; [now left|exact Hb].
      * intros _. destruct e. reflexivity.
    + rewrite Hp. cbn [bind]. rewrite IH. split.
      * intros (x & Hx & Hbx). exists x. split; [now right|exact Hbx].
      * intros (x & [<-|Hx] & Hbx).
        -- pose proof (value_prefix_raises _ Hbx). congruence.
        -- exists x. auto.
Qed.

(** X8: [detect_pattern] raises (an [IndexError]) exactly when the input
    reaches the common-prefix rule, that is, it has more than five non-blank
    values, not all equal, no block size is accepted and the values are not
    mostly dates, and one of the non-blank values contains a space and
    nothing but whitespace. *)
Theorem detect_pattern_raises_iff values e :
  detect_pattern values = Raise e <->
  5 < List.length (non_empty_of values) /\
  List.length (fromkeys (non_empty_of values)) <> 1 /\
  repeating_search (non_empty_of values) = None /\
  mostly_dates (non_empty_of values) = false /\
  exists v, In v (non_empty_of values) /\ blank_with_space v = true.
Proof.
  unfold detect_pattern. destruct values as [|v0 values].
  { split; [discriminate|]. cbn. intros (H & _). lia. }
  set (l := non_empty_of (v0 :: values)).
  destruct (Nat.eqb_spec (List.length l) 0) as [E0|E0].
  { split; [discriminate|]. intros (H & _). lia. }
  destruct (Nat.eqb_spec (List.length l) 1) as [E1|E1].
  { split; [discriminate|]. intros (H & _). lia. }
  destruct (Nat.eqb_spec (List.length (fromkeys l)) 1) as [Eu|Eu].
  { split; [discriminate|]. intros (_ & H & _). contradiction. }
  destruct (repeating_search l) as [r0|] eqn:Es.
  { split; [discriminate|]. intros (_ & _ & H & _). discriminate. }
  destruct (Nat.leb_spec 3 (List.length l)) as [E3|E3]; cbn [andb].
  - destruct (mostly_dates l) eqn:Ed.
    { split; [discriminate|]. intros (_ & _ & _ & H & _). discriminate. }
    unfold prefix_check. destruct (Nat.ltb_spec 5 (List.length l)) as [E5|E5].
    + destruct (count_prefixes l []) as [prefixes|e'] eqn:Ec; cbn [bind].
      * split.
        -- destruct (max_by_count prefixes) as [dominant|]; cbn [bind];
             [destruct (dominates dominant l); cbn [bind]|];
             try discriminate;
             destruct (_ <=? 20); discriminate.
        -- intros (_ & _ & _ & _ & Hb).
           apply (count_prefixes_raises l [] e) in Hb. congruence.
      * split.
        -- intros _. repeat split; auto.
           apply (count_prefixes_raises l [] e'). exact Ec.
        -- intros _. destruct e, e'. reflexivity.
    + cbn [bind]. split; [destruct (_ <=? 20); discriminate|].
      intros (H & _). lia.
  - unfold prefix_check. destruct (Nat.ltb_spec 5 (List.length l)) as [E5|E5]; [lia|].
    cbn [bind]. split; [destruct (_ <=? 20); discriminate|]. intros (H & _). lia.
Qed.

(** *** The fallback results *)

(** X9: a [list] result holds every non-blank value of the input once, and
    nothing else; it has between 2 and 20 values, and its [total] is the
    length of the input, blanks included. *)
Theorem detect_pattern_list_result values vs total :
  detect_pattern values = Ok (ListResult vs total) ->
  NoDup vs /\
  (forall x, In x vs <-> In x (non_empty_of values)) /\
  2 <= List.length vs <= 20 /\
  total = List.length values.
Proof.
  intros H.
  destruct (detect_pattern_cases values _ H)
    as [[_ E]|[(_ & _ & E)|[(? & _ & E)|[(_ & _ & E)|(H2 & Hu & [[_ E]|(_ & [(_ & _ & E)|(_ & [E|(_ & [E|E])])])])]]]];
    try discriminate.
  - destruct E as (? & ? & _ & _ & _ & _ & E). discriminate.
  - destruct E as [Hle E]. injection E as -> ->.
    split; [apply fromkeys_NoDup|]. split; [apply fromkeys_In|]. split; [|reflexivity].
    split; [|exact Hle].
    destruct (fromkeys (non_empty_of values)) as [|a [|b t]] eqn:Ef; cbn in *; try lia.
    destruct (non_empty_of values) as [|y t] eqn:El; [cbn in H2; lia|].
    assert (In y []) as []. rewrite <- Ef. apply fromkeys_In. now left.
  - destruct E as [_ E]. discriminate.
Qed.

Lemma detect_pattern_list_result_witness :
  detect_pattern three_names = Ok (ListResult ["Alpha"; "Beta"; "Gamma"] 5) /\
  NoDup ["Alpha"; "Beta"; "Gamma"] /\
  (forall x, In x ["Alpha"; "Beta"; "Gamma"] <-> In x (non_empty_of three_names)) /\
  2 <= List.length ["Alpha"; "Beta"; "Gamma"] <= 20 /\
  5 = List.length three_names.
Proof.
  assert (H : detect_pattern three_names =
              Ok (ListResult ["Alpha"; "Beta"; "Gamma"] 5))
    by (vm_compute; reflexivity).
  split; [exact H|].
  exact (detect_pattern_list_result three_names _ _ H).
Defined.

(** X10: in a [varied] result, [unique_count] is the number of distinct
    non-blank values and is more than 20, [total] is the length of the input,
    blanks included, and [sample] holds the first ten non-blank values. *)
Theorem detect_pattern_varied_result values unique_count total sample :
  detect_pattern values = Ok (Varied unique_count total sample) ->
  20 < unique_count /\
  (exists distinct, NoDup distinct /\
                    (forall x, In x distinct <-> In x (non_empty_of values)) /\
                    unique_count = List.length distinct) /\
  total = List.length values /\
  sample = firstn 10 (non_empty_of values).
Proof.
  intros H.
  destruct (detect_pattern_cases values _ H)
    as [[_ E]|[(_ & _ & E)|[(? & _ & E)|[(_ & _ & E)|(H2 & Hu & [[_ E]|(_ & [(_ & _ & E)|(_ & [E|(_ & [E|E])])])])]]]];
    try discriminate.
  - destruct E as (? & ? & _ & _ & _ & _ & E). discriminate.
  - destruct E as [_ E]. discriminate.
  - destruct E as [Hlt E]. injection E as -> -> ->.
    split; [exact Hlt|]. split; [|auto].
    exists (fromkeys (non_empty_of values)).
    split; [apply fromkeys_NoDup|]. split; [apply fromkeys_In|reflexivity].
Qed.

Lemma detect_pattern_varied_result_witness :
  detect_pattern twenty_five_letters =
  Ok (Varied 25 25 ["A"; "B"; "C"; "D"; "E"; "F"; "G"; "H"; "I"; "J"]) /\
  20 < 25 /\
  (exists distinct, NoDup distinct /\
                    (forall x, In x distinct <-> In x (non_empty_of twenty_five_letters)) /\
                    25 = List.length distinct) /\
  25 = List.length twenty_five_letters /\
  ["A"; "B"; "C"; "D"; "E"; "F"; "G"; "H"; "I"; "J"] =
  firstn 10 (non_empty_of twenty_five_letters).
Proof.
  assert (H : detect_pattern twenty_five_letters =
              Ok (Varied 25 25 ["A"; "B"; "C"; "D"; "E"; "F"; "G"; "H"; "I"; "J"]))
    by (vm_compute; reflexivity).
  split; [exact H|].
  exact (detect_pattern_varied_result twenty_five_letters _ _ _ H).
Defined.

(** *** Date sequences *)

Lemma int_gt_ge m x : int_gt_float m x = true -> int_ge_float m x = true.
Proof.
  unfold int_gt_float, int_ge_float.
  destruct (int_compare_float m x) as [[]|]; congruence.
Qed.

Lemma chunks_one l : chunks 1 l = map (fun v => [v]) l.
Proof.
  unfold chunks. rewrite Nat.div_1_r.
  induction l as [|a l IH]; [reflexivity|].
  cbn [List.length seq map]. f_equal.
  rewrite <- seq_shift, map_map. rewrite <- IH.
  apply map_ext. intros k. rewrite !Nat.mul_1_r. reflexivity.
Qed.

Lemma filter_length_le {A} (p q : A -> bool) l :
  (forall x, p x = true -> q x = true) ->
  List.length (filter p l) <= List.length (filter q l).
Proof.
  intros H. induction l as [|a l IH]; [reflexivity|]. cbn [filter].
  destruct (p a) eqn:E.
  - rewrite (H a E). cbn. lia.
  - destruct (q a); cbn; lia.
Qed.

Lemma dates_match_date_template l :
  List.length (filter is_date l) <=
  List.length (filter (chunk_matches ["<date>"]) (map (fun v => [v]) l)).
Proof.
  induction l as [|v vs IH]; [reflexivity|]. cbn [map filter].
  destruct (is_date v) eqn:E.
  - assert (Hm : chunk_matches ["<date>"] [v] = true).
    { unfold chunk_matches, block_template, template_value. cbn [map]. rewrite E.
      reflexivity. }
    rewrite Hm. cbn [List.length]. lia.
  - destruct (chunk_matches ["<date>"] [v]); cbn [List.length]; lia.
Qed.

Lemma dates_match_a_date l :
  is_date (hd "" l) = true ->
  List.length (filter is_date l) <= matching_chunks 1 l.
Proof.
  intros Hd. unfold matching_chunks, first_template. rewrite chunks_one.
  destruct l as [|a l]; [reflexivity|]. cbn [hd] in Hd.
  assert (Ht : block_template (hd [] (map (fun v => [v]) (a :: l))) = ["<date>"]).
  { cbn [map hd]. unfold block_template, template_value. cbn [map]. now rewrite Hd. }
  rewrite Ht. apply dates_match_date_template.
Qed.

Lemma first_return_all_none {A B} (body : A -> option B) l :
  first_return body l = None -> forall a, In a l -> body a = None.
Proof.
  induction l as [|x l IH]; intros H a Ha; [destruct Ha|].
  cbn [first_return] in H. destruct (body x) eqn:E; [discriminate|].
  destruct Ha as [<-|Ha]; [exact E|now apply IH].
Qed.

(** X11: for an input of fewer than [2^49] values, a [date_sequence] result
    has the number of non-blank values as [count], at least 3; [first] and
    [last] are the first and the last non-blank value, [sample] the first
    five; at least 70% of the non-blank values are dates; and [first] is
    not a date: were it one, block size 1 would have been accepted, so a list
    that begins with a date is never reported as a date sequence. *)
Theorem detect_pattern_date_sequence values count first last sample :
  (Z.of_nat (List.length values) < 2 ^ 49)%Z ->
  detect_pattern values = Ok (DateSequence count first last sample) ->
  count = List.length (non_empty_of values) /\ 3 <= count /\
  hd_error (non_empty_of values) = Some first /\
  (exists before_last, non_empty_of values = before_last ++ [last]) /\
  sample = firstn 5 (non_empty_of values) /\
  7 * count <= 10 * List.length (filter is_date (non_empty_of values)) /\
  is_date first = false.
Proof.
  intros Hlen H.
  pose proof (detect_pattern_cases values _ H) as Hcases. cbv zeta in Hcases.
  pose proof (length_non_empty_of values) as Hle.
  set (l := non_empty_of values) in *.
  destruct Hcases
    as [[_ E]|[(_ & _ & E)|[(? & _ & E)|[(_ & _ & E)|(H2 & Hu & [[_ E]|(Hs & [E|(_ & [E|(_ & [E|E])])])])]]]];
    try discriminate.
  - destruct E as (H3 & Hd & E). injection E as -> -> -> ->.
    assert (Hdates : 7 * List.length l <= 10 * List.length (filter is_date l)).
    { unfold mostly_dates in Hd. apply int_gt_ge in Hd.
      rewrite int_ge_float_mul_0_7 in Hd by lia.
      apply Z.leb_le in Hd. lia. }
    split; [reflexivity|]. split; [exact H3|].
    split; [destruct l; [cbn in H3; lia|reflexivity]|].
    split.
    { exists (removelast l). apply app_removelast_last.
      destruct l; [cbn in H3; lia|discriminate]. }
    split; [reflexivity|]. split; [exact Hdates|].
    destruct (is_date (hd "" l)) eqn:Efirst; [exfalso|reflexivity].
    assert (Hin : In 1 (block_sizes l)) by (apply in_block_sizes; lia).
    unfold repeating_search in Hs.
    pose proof (first_return_all_none _ _ Hs 1 Hin) as Hnone.
    rewrite try_block_size_spec in Hnone by (assumption || lia).
    destruct (accepts 1 l) eqn:Hacc; [discriminate|].
    unfold accepts in Hacc. apply Nat.leb_gt in Hacc.
    rewrite length_chunks, Nat.div_1_r in Hacc.
    pose proof (dates_match_a_date l Efirst). lia.
  - destruct E as (? & ? & _ & _ & _ & _ & E). discriminate.
  - destruct E as [_ E]. discriminate.
  - destruct E as [_ E]. discriminate.
Qed.

Lemma detect_pattern_date_sequence_witness :
  (Z.of_nat (List.length note_then_dates) < 2 ^ 49)%Z /\
  detect_pattern note_then_dates =
  Ok (DateSequence 4 "note" "4-1-2024"
        ["note"; "1/2/2024"; "2024-01-03"; "4-1-2024"]) /\
  4 = List.length (non_empty_of note_then_dates) /\ 3 <= 4 /\
  hd_error (non_empty_of note_then_dates) = Some "note" /\
  (exists before_last, non_empty_of note_then_dates = before_last ++ ["4-1-2024"]) /\
  ["note"; "1/2/2024"; "2024-01-03"; "4-1-2024"] =
    firstn 5 (non_empty_of note_then_dates) /\
  7 * 4 <= 10 * List.length (filter is_date (non_empty_of note_then_dates)) /\
  is_date "note" = false.
Proof.
  assert (H1 : (Z.of_nat (List.length note_then_dates) < 2 ^ 49)%Z) by reflexivity.
  assert (H2 : detect_pattern note_then_dates =
               Ok (DateSequence 4 "note" "4-1-2024"
                     ["note"; "1/2/2024"; "2024-01-03"; "4-1-2024"]))
    by (vm_compute; reflexivity).
  split; [exact H1|]. split; [exact H2|].
  exact (detect_pattern_date_sequence note_then_dates _ _ _ _ H1 H2).
Defined.

(** *** Anatomy of a repeating result *)

Lemma try_block_size_shape l b r :
  In b (block_sizes l) -> try_block_size l b = Some r -> r = repeating_result b l.
Proof.
  intros Hb. pose proof (chunks_at_least_two b l Hb) as H2.
  pose proof (proj1 (in_block_sizes b l) Hb) as Hb'.
  unfold try_block_size. rewrite make_blocks_chunks by lia.
  destruct (Nat.ltb_spec (List.length (chunks b l)) 2) as [H|_]; [lia|].
  unfold repeating_result, chunk_breaks, first_template.
  destruct (chunks b l) as [|first others] eqn:E; [simpl in H2; lia|].
  cbn [hd]. rewrite check_blocks_spec. cbn [app].
  destruct (most_match _ _); [|discriminate].
  intros [= <-]. rewrite breaks_from_first. reflexivity.
Qed.

Lemma chunk_matches_false t c : chunk_matches t c = false <-> block_template c <> t.
Proof.
  unfold chunk_matches, template_eqb.
  destruct (list_eq_dec string_dec (block_template c) t); split; congruence.
Qed.

Lemma in_breaks_from b t br : forall cs idx,
  In br (breaks_from b t idx cs) <->
  exists k c, nth_error cs k = Some c /\ chunk_matches t c = false /\
              br = {| block_index := idx + k; position := (idx + k) * b;
                      expected_template := t; actual_values := c |}.
Proof.
  unfold breaks_from. induction cs as [|c cs IH]; intros idx.
  - cbn. split; [intros []|]. intros (k & c & H & _). destruct k; discriminate.
  - cbn [List.length seq combine flat_map snd fst]. rewrite in_app_iff, IH. split.
    + intros [H|(k & c' & Hk & Hm & ->)].
      * destruct (chunk_matches t c) eqn:E; [destruct H|].
        destruct H as [<-|[]]. exists 0, c. rewrite Nat.add_0_r. auto.
      * exists (S k), c'. rewrite Nat.add_succ_r. auto.
    + intros ([|k] & c' & Hk & Hm & ->).
      * injection Hk as ->. rewrite Hm. left. left. now rewrite Nat.add_0_r.
      * right. exists k, c'. rewrite Nat.add_succ_r. auto.
Qed.

Lemma nth_error_chunks b l k c :
  nth_error (chunks b l) k = Some c <->
  k < List.length l / b /\ c = firstn b (skipn (k * b) l).
Proof.
  unfold chunks. rewrite nth_error_map. split.
  - intros H. destruct (nth_error (seq 0 (List.length l / b)) k) as [j|] eqn:E;
      [|discriminate].
    assert (Hk : k < List.length l / b).
    { assert (Hlt : k < List.length (seq 0 (List.length l / b)))
        by (apply nth_error_Some; congruence).
      now rewrite length_seq in Hlt. }
    rewrite nth_error_seq in E.
    destruct (Nat.ltb_spec k (List.length l / b)); [|lia].
    injection E as <-. cbn in H. injection H as <-. auto.
  - intros [Hk ->]. rewrite nth_error_seq.
    destruct (Nat.ltb_spec k (List.length l / b)); [|lia]. reflexivity.
Qed.

Lemma breaks_from_sorted b t : forall cs idx,
  StronglySorted (fun x y => block_index x < block_index y) (breaks_from b t idx cs).
Proof.
  induction cs as [|c cs IH]; intros idx; [constructor|].
  assert (Hrest : breaks_from b t idx (c :: cs) =
                  (if chunk_matches t c then []
                   else [{| block_index := idx; position := idx * b;
                            expected_template := t; actual_values := c |}])
                  ++ breaks_from b t (S idx) cs) by reflexivity.
  rewrite Hrest. destruct (chunk_matches t c); cbn [app]; [apply IH|].
  constructor; [apply IH|].
  apply Forall_forall. intros br Hbr.
  apply in_breaks_from in Hbr as (k & c' & _ & _ & ->). cbn. lia.
Qed.

(** X12: the anatomy of a [repeating] result.  [sample_first_block] is the
    first [block_size] non-blank values, [template] is its template and has
    [block_size] entries, [repeat_count] is the number of complete blocks;
    the key [breaks] is never an empty list; the break entries are in
    increasing order of [block_index], and they are exactly the entries with
    [1 <= block_index < repeat_count], [position = block_index * block_size],
    the template as [expected_template] and the values of that block as
    [actual_values], for the blocks whose template is not the template. *)
Theorem detect_pattern_repeating_breaks values bs t rc ti sample brs :
  detect_pattern values = Ok (Repeating bs t rc ti sample brs) ->
  sample = firstn bs (non_empty_of values) /\
  t = block_template sample /\ List.length t = bs /\
  rc = List.length (non_empty_of values) / bs /\
  brs <> Some [] /\
  StronglySorted (fun x y => block_index x < block_index y)
                 (breaks_of (Repeating bs t rc ti sample brs)) /\
  forall br, In br (breaks_of (Repeating bs t rc ti sample brs)) <->
             1 <= block_index br < rc /\
             position br = block_index br * bs /\
             expected_template br = t /\
             actual_values br = firstn bs (skipn (position br) (non_empty_of values)) /\
             block_template (actual_values br) <> t.
Proof.
  intros Hr. set (l := non_empty_of values).
  apply detect_pattern_repeating_inv in Hr; [|reflexivity].
  unfold repeating_search in Hr. fold l in Hr.
  apply first_return_some in Hr as (b & Hb & Hr).
  apply (try_block_size_shape l b _ Hb) in Hr.
  pose proof (chunks_at_least_two b l Hb) as H2.
  pose proof (proj1 (in_block_sizes b l) Hb) as Hb'.
  unfold repeating_result in Hr. injection Hr as -> -> -> -> -> ->.
  assert (Hhd : hd [] (chunks b l) = firstn b l).
  { destruct (chunks b l) as [|c cs] eqn:E; [cbn in H2; lia|].
    assert (Hn : nth_error (chunks b l) 0 = Some c) by (rewrite E; reflexivity).
    apply nth_error_chunks in Hn as [_ ->]. reflexivity. }
  assert (Hbreaks : breaks_of (Repeating b (first_template b l)
                                 (List.length (chunks b l)) (List.length l)
                                 (hd [] (chunks b l))
                                 match chunk_breaks b l with
                                 | [] => None
                                 | _ :: _ => Some (chunk_breaks b l)
                                 end) = chunk_breaks b l).
  { cbn [breaks_of]. destruct (chunk_breaks b l); reflexivity. }
  rewrite Hbreaks. clear Hbreaks.
  split; [exact Hhd|]. split; [reflexivity|].
  split.
  { unfold first_template, block_template. rewrite Hhd, length_map, length_firstn. lia. }
  split; [apply length_chunks|].
  split; [destruct (chunk_breaks b l); discriminate|].
  split; [apply breaks_from_sorted|].
  intros br. unfold chunk_breaks. rewrite in_breaks_from. rewrite length_chunks. split.
  - intros (k & c & Hk & Hm & ->). cbn [block_index position expected_template
                                         actual_values Nat.add].
    apply nth_error_chunks in Hk as [Hk ->].
    destruct k as [|k].
    { exfalso. apply chunk_matches_false in Hm. apply Hm.
      unfold first_template. now rewrite Hhd. }
    split; [lia|]. split; [reflexivity|]. split; [reflexivity|].
    split; [reflexivity|]. now apply chunk_matches_false.
  - intros (Hk & Hpos & Ht & Ha & Hne). exists (block_index br), (actual_values br).
    split; [apply nth_error_chunks; split; [lia|]; now rewrite Ha, Hpos|].
    split; [now apply chunk_matches_false|].
    destruct br as [bi po et av]. cbn in *. subst. reflexivity.
Qed.

Lemma detect_pattern_repeating_breaks_witness :
  detect_pattern pairs_with_break =
  Ok (Repeating 2 ["a"; "b"] 4 8 ["a"; "b"]
        (Some [{| block_index := 3; position := 6;
                  expected_template := ["a"; "b"];
                  actual_values := ["a"; "c"] |}])) /\
  ["a"; "b"] = firstn 2 (non_empty_of pairs_with_break) /\
  ["a"; "b"] = block_template ["a"; "b"] /\ List.length ["a"; "b"] = 2 /\
  4 = List.length (non_empty_of pairs_with_break) / 2 /\
  Some [{| block_index := 3; position := 6;
           expected_template := ["a"; "b"]; actual_values := ["a"; "c"] |}]
    <> Some [] /\
  StronglySorted (fun x y => block_index x < block_index y)
    [{| block_index := 3; position := 6;
        expected_template := ["a"; "b"]; actual_values := ["a"; "c"] |}] /\
  forall br, In br [{| block_index := 3; position := 6;
                       expected_template := ["a"; "b"];
                       actual_values := ["a"; "c"] |}] <->
             1 <= block_index br < 4 /\
             position br = block_index br * 2 /\
             expected_template br = ["a"; "b"] /\
             actual_values br = firstn 2 (skipn (position br) (non_empty_of pairs_with_break)) /\
             block_template (actual_values br) <> ["a"; "b"].
Proof.
  assert (H : detect_pattern pairs_with_break =
              Ok (Repeating 2 ["a"; "b"] 4 8 ["a"; "b"]
                    (Some [{| block_index := 3; position := 6;
                              expected_template := ["a"; "b"];
                              actual_values := ["a"; "c"] |}])))
    by (vm_compute; reflexivity).
  split; [exact H|].
  exact (detect_pattern_repeating_breaks pairs_with_break _ _ _ _ _ _ H).
Defined.

(** *** The common-prefix rule *)

Section PrefixThreshold.
Local Open Scope Z_scope.

Lemma int_gt_float_mul_0_3 m n :
  0 <= m -> 0 <= n < 2 ^ 49 ->
  int_gt_float m (float_mul (float_of_int n) float_0_3) = true ->
  3 * n <= 10 * m.
Proof.
  intros Hm Hn Hgt.
  destruct (Z.eq_dec n 0) as [->|Hn0]; [lia|].
  destruct (float_of_int_pos n) as (mz & ez & Hf & Hmz & Hmzb & Hez).
  { change (2 ^ 53) with 9007199254740992.
    change (2 ^ 49) with 562949953421312 in Hn. lia. }
  rewrite Hf in Hgt.
  unfold float_mul, float_0_3, SFmul in Hgt. cbn [xorb] in Hgt.
  set (M := 5404319552844595%positive) in *.
  set (P := (mz * M)%positive) in *.
  set (D := Z.pos (digits2_pos P)) in *.
  pose proof (digits2_bounds P) as HP. fold D in HP.
  assert (HPv : Z.pos P = Z.pos mz * Z.pos M) by reflexivity.
  assert (HM : 10 * Z.pos M = 3 * 2 ^ 54 - 2) by reflexivity.
  assert (HPb : 2 ^ 104 <= Z.pos P < 2 ^ 106).
  { change (2 ^ 104) with (2 ^ 52 * 2 ^ 52).
    change (2 ^ 106) with (2 ^ 53 * 2 ^ 53).
    assert (2 ^ 52 <= Z.pos M < 2 ^ 53) by (cbn; lia). nia. }
  assert (HD : 105 <= D <= 106).
  { split.
    - destruct (Z_le_gt_dec 105 D) as [H|H]; [exact H|exfalso].
      assert (2 ^ D <= 2 ^ 104) by (apply Z.pow_le_mono_r; lia). lia.
    - destruct (Z_le_gt_dec D 106) as [H|H]; [exact H|exfalso].
      assert (2 ^ 106 <= 2 ^ (D - 1)) by (apply Z.pow_le_mono_r; lia). lia. }
  destruct (binary_round_aux_spec P (ez + -54)) as (m' & e' & Hr & Hb & He & Hv);
    fold D; try lia.
  rewrite Hr in Hgt. fold D in He, Hv. cbv zeta in Hv.
  destruct Hv as (Hnear & _ & _).
  set (s := D - 53) in *.
  set (U := 2 ^ (- ez)) in *.
  assert (HU : 0 < U) by (apply Z.pow_pos_nonneg; lia).
  assert (HU9 : 9 <= U).
  { change (2 ^ 52) with (8 * 2 ^ 49) in Hmzb. nia. }
  assert (Hez4 : ez <= -4).
  { destruct (Z_le_gt_dec ez (-4)) as [H|H]; [exact H|exfalso].
    assert (U <= 2 ^ 3) by (apply Z.pow_le_mono_r; lia).
    change (2 ^ 3) with 8 in *. lia. }
  assert (He'neg : e' < 0) by (unfold s in *; lia).
  unfold int_gt_float, int_compare_float in Hgt.
  destruct (Z.leb_spec 0 e') as [H|_]; [lia|].
  set (S := 2 ^ s) in *.
  set (W := 2 ^ (e' - (ez + -54))) in *.
  set (Y := 2 ^ (- e')) in *.
  assert (HS : 0 < S) by (apply Z.pow_pos_nonneg; unfold s; lia).
  assert (HS53 : S <= 2 ^ 53) by (apply Z.pow_le_mono_r; unfold s; lia).
  assert (HW : 0 < W) by (apply Z.pow_pos_nonneg; lia).
  assert (HY : 0 < Y) by (apply Z.pow_pos_nonneg; lia).
  assert (HYW : Y * W = 2 ^ 54 * U).
  { unfold Y, W, U. rewrite <- !Z.pow_add_r by lia. f_equal. lia. }
  assert (Hcmp : Z.pos m' < m * Y).
  { destruct (Z.compare_spec (m * Y) (Z.pos m')); try discriminate. lia. }
  set (V := Z.pos m' * W) in *.
  set (X := m * (2 ^ 54 * U)).
  assert (HXV : V < X).
  { unfold X, V. rewrite <- HYW. nia. }
  destruct (Z_le_gt_dec (3 * n) (10 * m)) as [Hok|Hbad]; [exact Hok|exfalso].
  assert (H10P : 10 * Z.pos P = n * U * (3 * 2 ^ 54 - 2)).
  { rewrite HPv, Hmz, <- HM. ring. }
  assert (Hm49 : m < 2 ^ 49) by lia.
  change (2 ^ 53) with 9007199254740992 in *.
  change (2 ^ 54) with 18014398509481984 in *.
  change (2 ^ 49) with 562949953421312 in *.
  assert (H30 : 30 * Z.pos P >= (10 * m + 1) * U * (3 * 18014398509481984 - 2)) by nia.
  unfold X in HXV.
  nia.
Qed.

End PrefixThreshold.

Lemma dict_incr_count k q : forall d,
  count_in (dict_incr k d) q = count_in d q + (if String.eqb k q then 1 else 0).
Proof.
  unfold count_in. induction d as [|[k' n] d IH]; cbn [dict_incr find fst snd].
  - destruct (String.eqb_spec k q); reflexivity.
  - destruct (String.eqb_spec k' k) as [->|Hne]; cbn [find fst snd].
    + destruct (String.eqb_spec k q); cbn [snd]; [lia|]. lia.
    + destruct (String.eqb_spec k' q) as [->|Hq]; cbn [snd].
      * destruct (String.eqb_spec k q); [congruence|]. lia.
      * apply IH.
Qed.

Lemma dict_incr_keys k q : forall d,
  In q (map fst (dict_incr k d)) <-> q = k \/ In q (map fst d).
Proof.
  induction d as [|[k' n] d IH]; cbn [dict_incr map fst In].
  - intuition.
  - destruct (String.eqb_spec k' k) as [->|Hne]; cbn [map fst In].
    + intuition.
    + rewrite IH. intuition.
Qed.

Lemma dict_incr_NoDup k : forall d,
  NoDup (map fst d) -> NoDup (map fst (dict_incr k d)).
Proof.
  induction d as [|[k' n] d IH]; cbn [dict_incr map fst]; intros Hnd.
  - repeat constructor. intros [].
  - inversion Hnd as [|? ? Hnot Hnd']; subst.
    destruct (String.eqb_spec k' k) as [->|Hne]; cbn [map fst].
    + now constructor.
    + constructor; [|now apply IH].
      rewrite dict_incr_keys. intros [->|H]; [congruence|contradiction].
Qed.

Lemma count_prefixes_spec : forall l d d',
  count_prefixes l d = Ok d' -> NoDup (map fst d) ->
  NoDup (map fst d') /\
  forall q, count_in d' q = count_in d q + prefix_count_of q l.
Proof.
  induction l as [|v l IH]; intros d d' H Hnd; cbn [count_prefixes] in H.
  - injection H as <-. split; [exact Hnd|]. intros q. cbn. lia.
  - destruct (value_prefix v) as [p|e] eqn:Ev; cbn [bind] in H; [|discriminate].
    destruct (IH _ _ H (dict_incr_NoDup p d Hnd)) as [Hnd' Hc].
    split; [exact Hnd'|]. intros q. rewrite Hc, dict_incr_count.
    unfold prefix_count_of. cbn [filter]. rewrite Ev.
    destruct (String.eqb p q); cbn [List.length]; lia.
Qed.

Lemma max_by_count_spec d best :
  max_by_count d = Some best ->
  In best d /\ forall it, In it d -> snd it <= snd best.
Proof.
  unfold max_by_count. destruct d as [|item rest]; [discriminate|].
  intros [= <-].
  set (pick := fun best it : string * nat => if snd best <? snd it then it else best).
  assert (H : forall (rest : list (string * nat)) (item : string * nat),
            (fold_left pick rest item = item \/ In (fold_left pick rest item) rest) /\
            snd item <= snd (fold_left pick rest item) /\
            forall it, In it rest -> snd it <= snd (fold_left pick rest item)).
  { clear. induction rest as [|x rest IH]; intros item; cbn [fold_left].
    - split; [now left|]. split; [lia|]. intros it [].
    - unfold pick at 2 4 6 8. 
      destruct (Nat.ltb_spec (snd item) (snd x)) as [Hlt|Hge].
      + destruct (IH x) as (Hin & Hle & Hall). split.
        { right. destruct Hin as [->|Hin]; [now left|now right]. }
        split; [lia|]. intros it [<-|Hit]; [exact Hle|now apply Hall].
      + destruct (IH item) as (Hin & Hle & Hall). split.
        { destruct Hin as [Hin|Hin]; [now left|right; now right]. }
        split; [exact Hle|]. intros it [<-|Hit]; [lia|now apply Hall]. }
  destruct (H rest item) as (Hin & Hle & Hall). split.
  - destruct Hin as [->|Hin]; [now left|now right].
  - intros it [<-|Hit]; [exact Hle|now apply Hall].
Qed.

Lemma count_in_item : forall d k n,
  NoDup (map fst d) -> In (k, n) d -> count_in d k = n.
Proof.
  unfold count_in. induction d as [|[k' n'] d IH]; intros k n Hnd Hin; [destruct Hin|].
  inversion Hnd as [|? ? Hnot Hnd']; subst. cbn [find fst snd].
  destruct Hin as [[= -> ->]|Hin].
  - now rewrite String.eqb_refl.
  - destruct (String.eqb_spec k' k) as [->|Hne]; [|now apply IH].
    exfalso. apply Hnot. apply in_map_iff. exists (k, n). auto.
Qed.

Lemma count_in_cases d q : count_in d q = 0 \/ In (q, count_in d q) d.
Proof.
  unfold count_in. destruct (find _ d) as [[k n]|] eqn:E; [right|now left].
  apply find_some in E as [Hin Heq]. cbn in Heq. apply String.eqb_eq in Heq.
  subst. exact Hin.
Qed.

(** X13: for an input of fewer than [2^49] values, in a
    [varied_with_prefix] result [total] is the number of non-blank values
    and is more than 5, [sample] holds the first five, [prefix_count] is
    the number of non-blank values whose prefix is [common_prefix], no
    prefix occurs more often, the count is at least 30% of [total], and no
    block size was accepted. *)
Theorem detect_pattern_varied_with_prefix values p c total sample :
  (Z.of_nat (List.length values) < 2 ^ 49)%Z ->
  detect_pattern values = Ok (VariedWithPrefix p c total sample) ->
  total = List.length (non_empty_of values) /\ 5 < total /\
  sample = firstn 5 (non_empty_of values) /\
  c = prefix_count_of p (non_empty_of values) /\
  (forall q, prefix_count_of q (non_empty_of values) <= c) /\
  3 * total <= 10 * c /\
  repeating_search (non_empty_of values) = None.
Proof.
  intros Hlen H.
  pose proof (detect_pattern_cases values _ H) as Hcases. cbv zeta in Hcases.
  pose proof (length_non_empty_of values) as Hle.
  set (l := non_empty_of values) in *.
  destruct Hcases
    as [[_ E]|[(_ & _ & E)|[(? & _ & E)|[(_ & _ & E)|(H2 & Hu & [[_ E]|(Hs & [(_ & _ & E)|(_ & [E|(_ & [E|E])])])])]]]];
    try discriminate.
  - destruct E as (prefixes & dominant & H5 & Hc & Hmax & Hdom & E).
    injection E as -> -> -> ->.
    destruct (count_prefixes_spec l [] prefixes Hc (NoDup_nil _)) as [Hnd Hcount].
    destruct (max_by_count_spec prefixes dominant Hmax) as [Hin Hbest].
    assert (Hsnd : snd dominant = prefix_count_of (fst dominant) l).
    { rewrite <- (count_in_item prefixes (fst dominant) (snd dominant) Hnd).
      - now rewrite Hcount.
      - now destruct dominant. }
    split; [reflexivity|]. split; [exact H5|]. split; [reflexivity|].
    split; [exact Hsnd|]. split.
    { intros q. specialize (Hcount q). cbn in Hcount. rewrite <- Hcount.
      destruct (count_in_cases prefixes q) as [->|Hq]; [lia|].
      apply (Hbest _ Hq). }
    split; [|exact Hs].
    unfold dominates in Hdom. apply int_gt_float_mul_0_3 in Hdom; lia.
  - destruct E as [_ E]. discriminate.
  - destruct E as [_ E]. discriminate.
Qed.

Lemma detect_pattern_varied_with_prefix_witness :
  (Z.of_nat (List.length sales_lines) < 2 ^ 49)%Z /\
  detect_pattern sales_lines =
  Ok (VariedWithPrefix "Total" 3 6
        ["Total sales"; "Total cost"; "Net"; "Total tax"; "Gross"]) /\
  6 = List.length (non_empty_of sales_lines) /\ 5 < 6 /\
  ["Total sales"; "Total cost"; "Net"; "Total tax"; "Gross"] =
    firstn 5 (non_empty_of sales_lines) /\
  3 = prefix_count_of "Total" (non_empty_of sales_lines) /\
  (forall q, prefix_count_of q (non_empty_of sales_lines) <= 3) /\
  3 * 6 <= 10 * 3 /\
  repeating_search (non_empty_of sales_lines) = None.
Proof.
  assert (H1 : (Z.of_nat (List.length sales_lines) < 2 ^ 49)%Z) by reflexivity.
  assert (H2 : detect_pattern sales_lines =
               Ok (VariedWithPrefix "Total" 3 6
                     ["Total sales"; "Total cost"; "Net"; "Total tax"; "Gross"]))
    by (vm_compute; reflexivity).
  split; [exact H1|]. split; [exact H2|].
  exact (detect_pattern_varied_with_prefix sales_lines _ _ _ _ H1 H2).
Defined.

(** *** Values of one template *)

Section OneTemplate.
Local Open Scope nat_scope.

Lemma no_member_nil {A} (l : list A) : (forall x, ~ In x l) -> l = [].
Proof. destruct l as [|a l]; [reflexivity|]. intros H. destruct (H a). now left. Qed.

(** X14: for an input of fewer than [2^49] values with at least two
    non-blank values, not all equal, that all have one template [t] (all
    dates, or all numbers), the result is [repeating] with block size 1, the
    template [[t]], one block per value and no break: a row of distinct
    years or of dates is reported as a repetition, not as a sequence or a
    list. *)
Theorem detect_pattern_one_template values t :
  (Z.of_nat (List.length values) < 2 ^ 49)%Z ->
  2 <= List.length (non_empty_of values) ->
  List.length (fromkeys (non_empty_of values)) <> 1 ->
  (forall v, In v (non_empty_of values) -> template_value v = t) ->
  detect_pattern values =
  Ok (Repeating 1 [t] (List.length (non_empty_of values))
                (List.length (non_empty_of values))
                [hd "" (non_empty_of values)] None).
Proof.
  intros Hlen H2 Hu Ht.
  pose proof (length_non_empty_of values) as Hle.
  set (l := non_empty_of values) in *.
  apply detect_pattern_search; [exact H2|exact Hu|]. fold l.
  assert (Hin : In 1 (block_sizes l)) by (apply in_block_sizes; lia).
  assert (Hall : forall c, In c (chunks 1 l) -> chunk_matches [t] c = true).
  { intros c Hc. rewrite chunks_one in Hc. apply in_map_iff in Hc as (v & <- & Hv).
    unfold chunk_matches, block_template, template_eqb. cbn [map].
    rewrite (Ht v Hv). destruct (list_eq_dec string_dec [t] [t]); congruence. }
  assert (Hfirst : first_template 1 l = [t]).
  { unfold first_template. rewrite chunks_one.
    destruct l as [|v l']; [cbn in H2; lia|]. cbn [map hd block_template].
    rewrite (Ht v); [reflexivity|now left]. }
  assert (Hhd : hd [] (chunks 1 l) = [hd "" l]).
  { rewrite chunks_one. destruct l; [cbn in H2; lia|reflexivity]. }
  assert (Hacc : accepts 1 l = true).
  { unfold accepts, matching_chunks. rewrite Hfirst.
    rewrite filter_all_true by exact Hall. apply Nat.leb_le. lia. }
  assert (Hbr : chunk_breaks 1 l = []).
  { apply no_member_nil. intros br Hbrk. unfold chunk_breaks in Hbrk.
    rewrite Hfirst in Hbrk.
    apply in_breaks_from in Hbrk as (k & c & Hk & Hm & _).
    apply nth_error_In in Hk. rewrite (Hall c Hk) in Hm. discriminate. }
  unfold repeating_search.
  pose proof (block_sizes_seq l) as Hseq.
  assert (Hmin : 1 <= Nat.min 10 (List.length l / 2)).
  { assert (1 <= List.length l / 2) by (apply Nat.div_le_lower_bound; lia). lia. }
  destruct (Nat.min 10 (List.length l / 2)) as [|k]; [lia|].
  rewrite Hseq. cbn [seq first_return].
  rewrite try_block_size_spec by (assumption || lia).
  rewrite Hacc. unfold repeating_result.
  rewrite Hfirst, Hhd, Hbr, length_chunks, Nat.div_1_r. reflexivity.
Qed.

Lemma detect_pattern_one_template_witness :
  (Z.of_nat (List.length years) < 2 ^ 49)%Z /\
  2 <= List.length (non_empty_of years) /\
  List.length (fromkeys (non_empty_of years)) <> 1 /\
  (forall v, In v (non_empty_of years) -> template_value v = "<number>") /\
  detect_pattern years = Ok (Repeating 1 ["<number>"] 3 3 ["2019"] None).
Proof.
  assert (H1 : (Z.of_nat (List.length years) < 2 ^ 49)%Z) by reflexivity.
  assert (H2 : 2 <= List.length (non_empty_of years)) by (cbn; lia).
  assert (H3 : List.length (fromkeys (non_empty_of years)) <> 1)
    by (vm_compute; discriminate).
  assert (H4 : forall v, In v (non_empty_of years) -> template_value v = "<number>").
  { intros v Hv. cbn in Hv.
    destruct Hv as [<-|[<-|[<-|[]]]]; vm_compute; reflexivity. }
  split; [exact H1|]. split; [exact H2|]. split; [exact H3|]. split; [exact H4|].
  exact (detect_pattern_one_template years "<number>" H1 H2 H3 H4).
Defined.

End OneTemplate.


End PatternRules.

(** ** References in a formula *)

Section References.
Local Open Scope nat_scope.

Lemma run_app p b : forall a,
  run p (a ++ b)%string =
  if run p a =? String.length a then String.length a + run p b else run p a.
Proof.
  induction a as [|x a IH]; [reflexivity|]. cbn [append run String.length].
  destruct (p x); [|reflexivity]. rewrite IH.
  cbn [Nat.eqb]. destruct (run p a =? String.length a); reflexivity.
Qed.

Lemma run_all p : forall s, str_all p s = true -> run p s = String.length s.
Proof.
  induction s as [|c s IH]; [reflexivity|]. cbn [str_all run String.length].
  intros H. apply andb_true_iff in H as [-> H]. now rewrite IH.
Qed.

Lemma last_char_cons x c a :
  last_char (String x (String c a)) = last_char (String c a).
Proof. reflexivity. Qed.

Lemma closes_cons x c a : closes (String x (String c a)) = closes (String c a).
Proof. reflexivity. Qed.

Lemma run_lt_last p : forall a c,
  last_char a = Some c -> p c = false -> run p a < String.length a.
Proof.
  induction a as [|x a IH]; intros c Hl Hc; [discriminate|].
  destruct a as [|y a].
  - injection Hl as ->. cbn. rewrite Hc. lia.
  - rewrite last_char_cons in Hl. specialize (IH c Hl Hc).
    cbn [run String.length] in *. destruct (p x); lia.
Qed.

Lemma opens_run b : opens b = true -> run re_digit b = 0.
Proof.
  destruct b as [|c b]; [reflexivity|]. cbn. now destruct (re_digit c).
Qed.

Lemma run_digit_app a b : opens b = true ->
  run re_digit (a ++ b)%string = run re_digit a.
Proof.
  intros Hb. rewrite run_app, (opens_run b Hb).
  destruct (Nat.eqb_spec (run re_digit a) (String.length a)); lia.
Qed.

Lemma closes_upper a c :
  last_char a = Some c -> closes a = true -> re_upper c = false /\ c <> "$"%char.
Proof.
  unfold closes. intros ->. intros H. apply andb_true_iff in H as [H1 H2].
  apply negb_true_iff in H1, H2. split; [exact H1|].
  intros ->. discriminate.
Qed.

Lemma last_char_some a : a <> "" -> exists c, last_char a = Some c.
Proof.
  induction a as [|x a IH]; [congruence|]. intros _.
  destruct a as [|y a]; [now exists x|].
  rewrite last_char_cons. apply IH. discriminate.
Qed.

Lemma last_char_drop : forall k a,
  k < String.length a -> last_char (drop k a) = last_char a.
Proof.
  induction k as [|k IH]; intros a Hk; [now rewrite drop_0|].
  destruct a as [|x a]; [cbn in Hk; lia|]. cbn [drop].
  destruct a as [|y a]; [cbn in Hk; lia|].
  rewrite last_char_cons. apply IH. cbn in *. lia.
Qed.

Lemma match_rel_app a b :
  a <> "" -> closes a = true -> opens b = true ->
  match_rel (a ++ b) = match_rel a.
Proof.
  intros Ha Hc Hb. destruct (last_char_some a Ha) as [c Hl].
  destruct (closes_upper a c Hl Hc) as [Hu _].
  pose proof (run_lt_last re_upper a c Hl Hu) as Hlt.
  unfold match_rel. rewrite run_app.
  destruct (Nat.eqb_spec (run re_upper a) (String.length a)); [lia|].
  rewrite drop_app by lia. now rewrite run_digit_app.
Qed.

Lemma match_row_abs_app a b :
  a <> "" -> closes a = true -> opens b = true ->
  match_row_abs (a ++ b) = match_row_abs a.
Proof.
  intros Ha Hc Hb. destruct (last_char_some a Ha) as [c Hl].
  destruct (closes_upper a c Hl Hc) as [Hu Hd].
  pose proof (run_lt_last re_upper a c Hl Hu) as Hlt.
  unfold match_row_abs. rewrite run_app.
  destruct (Nat.eqb_spec (run re_upper a) (String.length a)); [lia|].
  rewrite drop_app by lia.
  pose proof (last_char_drop _ a Hlt) as Hld.
  destruct (drop (run re_upper a) a) as [|x rest]; [now rewrite Hl in Hld|].
  cbn [append].
  destruct (Ascii.eqb_spec x "$") as [->|Hx].
  - now rewrite run_digit_app.
  - destruct x as [[] [] [] [] [] [] [] []]; try reflexivity; congruence.
Qed.

Lemma match_dollar_app (m : string -> option nat) a b :
  (forall a, a <> "" -> closes a = true -> m (a ++ b)%string = m a) ->
  a <> "" -> closes a = true ->
  match (a ++ b)%string with
  | String "$" rest => option_map S (m rest)
  | _ => None
  end =
  match a with
  | String "$" rest => option_map S (m rest)
  | _ => None
  end.
Proof.
  intros Hm Ha Hc. destruct a as [|x a]; [congruence|]. cbn [append].
  destruct (Ascii.eqb_spec x "$") as [->|Hx].
  - destruct a as [|y a]; [discriminate Hc|].
    rewrite closes_cons in Hc. rewrite Hm; [reflexivity|discriminate|exact Hc].
  - destruct x as [[] [] [] [] [] [] [] []]; try reflexivity; congruence.
Qed.

Lemma re_sub_from_app m r b :
  seam_blind m b ->
  forall a k, closes a = true -> k <= String.length a ->
  re_sub_from m r k (a ++ b)%string = (re_sub_from m r k a ++ re_sub m r b)%string.
Proof.
  intros [H1 H2]. induction a as [|x a IH]; intros k Hc Hk; cbn [String.length] in Hk.
  - assert (k = 0) as -> by lia. reflexivity.
  - assert (Hc' : closes a = true).
    { destruct a as [|y a]; [reflexivity|]. now rewrite closes_cons in Hc. }
    destruct k as [|k].
    + change (String x a ++ b)%string with (String x (a ++ b)%string).
      cbn [re_sub_from].
      change (String x (a ++ b)%string) with (String x a ++ b)%string.
      rewrite H1 by (discriminate || assumption).
      destruct (m (String x a)) as [[|j]|] eqn:E.
      * cbn [append]. now rewrite IH by (assumption || lia).
      * apply H2 in E. cbn [String.length] in E. rewrite IH by (assumption || lia).
        now rewrite append_assoc'.
      * cbn [append]. now rewrite IH by (assumption || lia).
    + cbn [append re_sub_from]. apply IH; [assumption|lia].
Qed.

Lemma closes_app r t :
  r <> "" -> closes r = true -> closes t = true -> closes (r ++ t) = true.
Proof.
  intros Hr Hcr Hct. induction r as [|x r IH]; [congruence|].
  destruct r as [|y r].
  - cbn [append]. destruct t as [|z t]; [exact Hcr|]. now rewrite closes_cons.
  - change (String x (String y r) ++ t)%string
      with (String x (String y (r ++ t)%string)).
    rewrite closes_cons. apply IH; [discriminate|]. now rewrite closes_cons in Hcr.
Qed.

Lemma re_sub_from_nonempty m r : r <> "" ->
  forall a, a <> "" -> re_sub_from m r 0 a <> "".
Proof.
  intros Hr [|x a] Ha; [congruence|]. cbn [re_sub_from].
  destruct (m (String x a)) as [[|j]|]; try discriminate.
  destruct r; [congruence|discriminate].
Qed.

Lemma closes_re_sub_from m r :
  r <> "" -> closes r = true ->
  forall a k, closes a = true -> closes (re_sub_from m r k a) = true.
Proof.
  intros Hr Hcr. induction a as [|x a IH]; intros k Hc; [reflexivity|].
  assert (Hc' : closes a = true).
  { destruct a as [|y a]; [reflexivity|]. now rewrite closes_cons in Hc. }
  cbn [re_sub_from]. destruct k as [|k]; [|now apply IH].
  destruct (m (String x a)) as [[|j]|].
  - destruct a as [|y a]; [exact Hc|].
    pose proof (re_sub_from_nonempty m r Hr (String y a) ltac:(discriminate)) as Hne.
    specialize (IH 0 Hc').
    destruct (re_sub_from m r 0 (String y a)) as [|z t]; [congruence|].
    now rewrite closes_cons.
  - apply closes_app; auto.
  - destruct a as [|y a]; [exact Hc|].
    pose proof (re_sub_from_nonempty m r Hr (String y a) ltac:(discriminate)) as Hne.
    specialize (IH 0 Hc').
    destruct (re_sub_from m r 0 (String y a)) as [|z t]; [congruence|].
    now rewrite closes_cons.
Qed.

Lemma opens_re_sub m r b :
  opens r = true -> r <> "" -> opens b = true -> opens (re_sub m r b) = true.
Proof.
  intros Hor Hr Hb. destruct b as [|c b]; [reflexivity|].
  rewrite re_sub_cons. destruct (m (String c b)) as [[|j]|]; try exact Hb.
  destruct r; [congruence|exact Hor].
Qed.

Lemma seam_blind_passes b :
  opens b = true -> Forall (fun pass => seam_blind (fst pass) b) passes.
Proof.
  intros Hb. unfold passes.
  assert (Hrel : seam_blind match_rel b).
  { split; [intros; now apply match_rel_app|apply brace_blind_rel]. }
  assert (Hrow : seam_blind match_row_abs b).
  { split; [intros; now apply match_row_abs_app|apply brace_blind_row_abs]. }
  apply Forall_cons; [|apply Forall_cons; [|apply Forall_cons; [|apply Forall_cons]]];
    cbn [fst]; try assumption; try apply Forall_nil.
  - split; [|apply (brace_blind_dollar _ brace_blind_row_abs)].
    intros a Ha Hc. apply (match_dollar_app match_row_abs a b); auto.
    intros; now apply match_row_abs_app.
  - split; [|apply (brace_blind_dollar _ brace_blind_rel)].
    intros a Ha Hc. apply (match_dollar_app match_rel a b); auto.
    intros; now apply match_rel_app.
Qed.

Lemma pass_app m r a b :
  In (m, r) passes -> closes a = true -> opens b = true ->
  re_sub m r (a ++ b) = (re_sub m r a ++ re_sub m r b)%string /\
  closes (re_sub m r a) = true /\ opens (re_sub m r b) = true.
Proof.
  intros Hin Hc Hb.
  pose proof (seam_blind_passes b Hb) as Hs. rewrite Forall_forall in Hs.
  specialize (Hs _ Hin). cbn [fst] in Hs.
  assert (Hr : r <> "" /\ closes r = true /\ opens r = true).
  { cbn in Hin. repeat (destruct Hin as [[= <- <-]|Hin]); [ | | | |destruct Hin];
      (split; [discriminate|split; reflexivity]). }
  destruct Hr as (Hr & Hcr & Hor).
  split; [|split].
  - unfold re_sub at 1. now rewrite re_sub_from_app by (auto; lia).
  - now apply closes_re_sub_from.
  - now apply opens_re_sub.
Qed.

Lemma normalize_formula_passes f :
  normalize_formula f =
  re_sub match_rel "{REL}"
    (re_sub match_row_abs "{ROW_ABS}"
       (re_sub match_col_abs "{COL_ABS}" (re_sub match_abs "{ABS}" f))).
Proof. destruct f; reflexivity. Qed.

Lemma normalize_formula_app a b :
  closes a = true -> opens b = true ->
  normalize_formula (a ++ b) = (normalize_formula a ++ normalize_formula b)%string /\
  closes (normalize_formula a) = true /\ opens (normalize_formula b) = true.
Proof.
  intros Hc Hb. rewrite !normalize_formula_passes.
  destruct (pass_app match_abs "{ABS}" a b) as (E1 & Hc1 & Hb1); auto.
  { cbn. auto. }
  rewrite E1.
  destruct (pass_app match_col_abs "{COL_ABS}" _ _ ltac:(cbn; auto) Hc1 Hb1)
    as (E2 & Hc2 & Hb2).
  rewrite E2.
  destruct (pass_app match_row_abs "{ROW_ABS}" _ _ ltac:(cbn; auto) Hc2 Hb2)
    as (E3 & Hc3 & Hb3).
  rewrite E3.
  destruct (pass_app match_rel "{REL}" _ _ ltac:(cbn; auto 6) Hc3 Hb3)
    as (E4 & Hc4 & Hb4).
  rewrite E4. auto.
Qed.

Lemma str_length_app b : forall a,
  String.length (a ++ b) = String.length a + String.length b.
Proof. induction a as [|x a IH]; cbn; [reflexivity|now rewrite IH]. Qed.

Lemma drop_length b : forall a, drop (String.length a) (a ++ b) = b.
Proof. induction a as [|x a IH]; [apply drop_0|exact IH]. Qed.

Lemma re_sub_prefix m r X b :
  X <> "" -> m (X ++ b)%string = Some (String.length X) ->
  re_sub m r (X ++ b) = (r ++ re_sub m r b)%string.
Proof.
  destruct X as [|c X]; [congruence|]. intros _ Hm.
  change (String c X ++ b)%string with (String c (X ++ b)%string) in *.
  rewrite re_sub_cons, Hm. cbn [String.length]. now rewrite drop_length.
Qed.

Lemma column_name_spec col :
  column_name col = true ->
  col <> "" /\ 0 < String.length col /\ str_all re_upper col = true.
Proof.
  unfold column_name. intros H. apply andb_true_iff in H as [H1 H2].
  destruct col; [discriminate|]. cbn. repeat split; auto; [discriminate|lia].
Qed.

Lemma row_number_spec row :
  row_number row = true ->
  0 < String.length row /\ str_all re_digit row = true /\
  exists d t, row = String d t /\ re_digit d = true.
Proof.
  unfold row_number. intros H. apply andb_true_iff in H as [H1 H2].
  destruct row as [|d t]; [discriminate|]. cbn. repeat split; auto; [lia|].
  exists d, t. split; [reflexivity|]. cbn in H2. now apply andb_true_iff in H2.
Qed.

Lemma match_rel_reference col row :
  column_name col = true -> row_number row = true ->
  match_rel (col ++ row) = Some (String.length (col ++ row)).
Proof.
  intros Hcol Hrow.
  destruct (column_name_spec col Hcol) as (_ & Hlc & Hu).
  destruct (row_number_spec row Hrow) as (Hlr & Hd & d & t & E & Hdd).
  unfold match_rel. rewrite run_app, (run_all _ _ Hu), Nat.eqb_refl.
  assert (H0 : run re_upper row = 0).
  { rewrite E. cbn. now rewrite (digit_not_upper d Hdd). }
  rewrite H0, Nat.add_0_r, drop_length, (run_all _ _ Hd).
  destruct (Nat.ltb_spec 0 (String.length col)); [|lia].
  destruct (Nat.ltb_spec 0 (String.length row)); [|lia].
  cbn [andb]. now rewrite str_length_app.
Qed.

Lemma match_row_abs_reference col row :
  column_name col = true -> row_number row = true ->
  match_row_abs (col ++ "$" ++ row) = Some (String.length (col ++ "$" ++ row)).
Proof.
  intros Hcol Hrow.
  destruct (column_name_spec col Hcol) as (_ & Hlc & Hu).
  destruct (row_number_spec row Hrow) as (Hlr & Hd & _).
  unfold match_row_abs. rewrite run_app, (run_all _ _ Hu), Nat.eqb_refl.
  cbn [append run re_upper]. 
  change (re_upper "$") with false. cbv iota.
  rewrite Nat.add_0_r.
  change (String "$" row) with ("$" ++ row)%string.
  rewrite drop_length. cbn [append]. rewrite (run_all _ _ Hd).
  destruct (Nat.ltb_spec 0 (String.length col)); [|lia].
  destruct (Nat.ltb_spec 0 (String.length row)); [|lia].
  cbn [andb]. rewrite str_length_app. cbn [String.length]. f_equal. lia.
Qed.

Lemma no_dollar_app a b : no_dollar a = true -> no_dollar b = true ->
  no_dollar (a ++ b) = true.
Proof.
  unfold no_dollar. induction a as [|x a IH]; intros Ha Hb; [exact Hb|].
  cbn [append str_all] in *. apply andb_true_iff in Ha as [-> Ha]. now apply IH.
Qed.

Lemma upper_no_dollar s : str_all re_upper s = true -> no_dollar s = true.
Proof.
  unfold no_dollar. induction s as [|c s IH]; [reflexivity|]. cbn [str_all].
  intros H. apply andb_true_iff in H as [Hc H]. rewrite IH by exact H.
  destruct (Ascii.eqb_spec c "$") as [->|]; [discriminate Hc|reflexivity].
Qed.

Lemma digit_no_dollar s : str_all re_digit s = true -> no_dollar s = true.
Proof.
  unfold no_dollar. induction s as [|c s IH]; [reflexivity|]. cbn [str_all].
  intros H. apply andb_true_iff in H as [Hc H]. rewrite IH by exact H.
  destruct (Ascii.eqb_spec c "$") as [->|]; [discriminate Hc|reflexivity].
Qed.

Lemma has_col_abs_unfold a b t :
  has_col_abs (String a (String b t)) =
  (Ascii.eqb a "$" && re_upper b) || has_col_abs (String b t).
Proof. reflexivity. Qed.

Lemma has_col_abs_cons c s : has_col_abs (String c s) = false -> has_col_abs s = false.
Proof.
  destruct s as [|b t]; [reflexivity|]. rewrite has_col_abs_unfold.
  intros H. now apply orb_false_iff in H as [_ H].
Qed.

Lemma no_dollar_has_col_abs : forall s, no_dollar s = true -> has_col_abs s = false.
Proof.
  unfold no_dollar. induction s as [|a s IH]; [reflexivity|]. cbn [str_all].
  intros H. apply andb_true_iff in H as [Ha H].
  destruct s as [|b t]; [reflexivity|]. rewrite has_col_abs_unfold, (IH H).
  apply negb_true_iff in Ha. now rewrite Ha.
Qed.

Lemma no_dollar_has_row_abs : forall s x,
  no_dollar s = true -> has_row_abs (String x s) = false.
Proof.
  unfold no_dollar. induction s as [|a s IH]; intros x H; [reflexivity|].
  cbn [str_all] in H. apply andb_true_iff in H as [Ha H].
  rewrite has_row_abs_unfold. rewrite (IH a H).
  apply negb_true_iff in Ha.
  destruct (Ascii.eqb_spec a "$") as [->|Hne]; [discriminate|].
  destruct a as [[] [] [] [] [] [] [] []]; try reflexivity; congruence.
Qed.

Lemma run_upper_pos s : 0 < run re_upper s ->
  exists b t, s = String b t /\ re_upper b = true.
Proof.
  destruct s as [|b t]; cbn; [lia|]. destruct (re_upper b) eqn:E; [eauto|lia].
Qed.

Lemma match_rel_upper s n : match_rel s = Some n ->
  exists b t, s = String b t /\ re_upper b = true.
Proof.
  unfold match_rel. destruct (Nat.ltb_spec 0 (run re_upper s)); [|discriminate].
  intros _. now apply run_upper_pos.
Qed.

Lemma match_row_abs_upper s n : match_row_abs s = Some n ->
  exists b t, s = String b t /\ re_upper b = true.
Proof.
  unfold match_row_abs. destruct (drop (run re_upper s) s) as [|x rest]; [discriminate|].
  destruct (Ascii.eqb_spec x "$") as [->|Hx].
  - destruct (Nat.ltb_spec 0 (run re_upper s)); [|discriminate].
    intros _. now apply run_upper_pos.
  - destruct x as [[] [] [] [] [] [] [] []]; try discriminate; congruence.
Qed.

Lemma match_dollar_has_col_abs (m : string -> option nat) s n :
  (forall s n, m s = Some n -> exists b t, s = String b t /\ re_upper b = true) ->
  match s with
  | String "$" rest => option_map S (m rest)
  | _ => None
  end = Some n -> has_col_abs s = true.
Proof.
  intros Hm. destruct s as [|x s]; [discriminate|].
  destruct (Ascii.eqb_spec x "$") as [->|Hx].
  - destruct (m s) as [k|] eqn:E; [|discriminate]. intros _.
    destruct (Hm _ _ E) as (b & t & -> & Hb).
    rewrite has_col_abs_unfold, Hb. reflexivity.
  - destruct x as [[] [] [] [] [] [] [] []]; try discriminate; congruence.
Qed.

Lemma match_abs_has_col_abs s n : match_abs s = Some n -> has_col_abs s = true.
Proof. apply (match_dollar_has_col_abs match_row_abs), match_row_abs_upper. Qed.

Lemma match_col_abs_has_col_abs s n : match_col_abs s = Some n -> has_col_abs s = true.
Proof. apply (match_dollar_has_col_abs match_rel), match_rel_upper. Qed.

Lemma has_col_abs_row_absolute row : row_number row = true ->
  forall col, str_all re_upper col = true -> has_col_abs (col ++ "$" ++ row) = false.
Proof.
  intros Hrow. destruct (row_number_spec row Hrow) as (_ & Hd & d & t & E & Hdd).
  assert (Hbase : has_col_abs ("$" ++ row) = false).
  { rewrite E. cbn [append]. rewrite has_col_abs_unfold.
    rewrite (digit_not_upper d Hdd). cbn [andb orb].
    apply no_dollar_has_col_abs. rewrite <- E. now apply digit_no_dollar. }
  induction col as [|c col IH]; intros Hu; [exact Hbase|].
  cbn [str_all] in Hu. apply andb_true_iff in Hu as [Hc Hu].
  specialize (IH Hu).
  destruct (col ++ "$" ++ row)%string as [|b rest] eqn:Erest.
  { destruct col; discriminate. }
  change (String c col ++ "$" ++ row)%string with (String c (col ++ "$" ++ row)%string).
  rewrite Erest, has_col_abs_unfold, IH.
  destruct (Ascii.eqb_spec c "$") as [->|]; [discriminate Hc|reflexivity].
Qed.

Lemma re_sub_whole m r X :
  X <> "" -> m X = Some (String.length X) -> re_sub m r X = r.
Proof.
  intros HX Hm. pose proof (re_sub_prefix m r X "" HX) as H.
  assert (E : (X ++ "")%string = X).
  { clear. induction X as [|c X IH]; [reflexivity|]. cbn. now rewrite IH. }
  rewrite E in H. rewrite (H Hm). cbn.
  clear. induction r as [|c r IH]; [reflexivity|]. cbn. now rewrite IH.
Qed.

Lemma normalize_formula_of_reference style col row :
  column_name col = true -> row_number row = true ->
  normalize_formula (reference style col row) = placeholder style.
Proof.
  intros Hcol Hrow. rewrite normalize_formula_passes.
  destruct (column_name_spec col Hcol) as (Hne & Hlc & Hu).
  destruct (row_number_spec row Hrow) as (Hlr & Hd & _).
  pose proof (no_dollar_app col row (upper_no_dollar _ Hu) (digit_no_dollar _ Hd))
    as Hnd.
  destruct style; unfold reference, placeholder.
  - assert (Hca : has_col_abs (col ++ row) = false) by now apply no_dollar_has_col_abs.
    assert (Hra : has_row_abs (col ++ row) = false).
    { destruct col as [|c col]; [congruence|]. cbn [append].
      apply no_dollar_has_row_abs.
      cbn [str_all] in Hu. apply andb_true_iff in Hu as [_ Hu].
      apply no_dollar_app; [now apply upper_no_dollar|now apply digit_no_dollar]. }
    rewrite (re_sub_id match_abs _ has_col_abs
               has_col_abs_cons match_abs_has_col_abs _ Hca).
    rewrite (re_sub_id match_col_abs _ has_col_abs
               has_col_abs_cons match_col_abs_has_col_abs _ Hca).
    rewrite (re_sub_id match_row_abs _ has_row_abs
               has_row_abs_cons match_row_abs_has_row_abs _ Hra).
    apply re_sub_whole; [destruct col; [congruence|discriminate]|].
    now apply match_rel_reference.
  - assert (Hra : has_row_abs ("$" ++ col ++ row) = false)
      by (apply no_dollar_has_row_abs; exact Hnd).
    rewrite (re_sub_id match_abs _ has_row_abs
               has_row_abs_cons match_abs_has_row_abs _ Hra).
    rewrite (re_sub_whole match_col_abs "{COL_ABS}" ("$" ++ col ++ row));
      [reflexivity|discriminate|].
    cbn [append match_col_abs String.length].
    now rewrite match_rel_reference.
  - assert (Hca : has_col_abs (col ++ "$" ++ row) = false)
      by now apply has_col_abs_row_absolute.
    rewrite (re_sub_id match_abs _ has_col_abs
               has_col_abs_cons match_abs_has_col_abs _ Hca).
    rewrite (re_sub_id match_col_abs _ has_col_abs
               has_col_abs_cons match_col_abs_has_col_abs _ Hca).
    rewrite (re_sub_whole match_row_abs "{ROW_ABS}" (col ++ "$" ++ row));
      [reflexivity|destruct col; [congruence|discriminate]|].
    now apply match_row_abs_reference.
  - rewrite (re_sub_whole match_abs "{ABS}" ("$" ++ col ++ "$" ++ row));
      [reflexivity|discriminate|].
    cbn [append match_abs String.length].
    pose proof (match_row_abs_reference col row Hcol Hrow) as H.
    cbn [append] in H. now rewrite H.
Qed.

Lemma opens_reference style col row b :
  column_name col = true -> opens (reference style col row ++ b) = true.
Proof.
  intros Hcol. destruct (column_name_spec col Hcol) as (Hne & _ & Hu).
  destruct col as [|c col]; [congruence|]. cbn [str_all] in Hu.
  apply andb_true_iff in Hu as [Hc _].
  destruct style; cbn; try reflexivity;
    (destruct (re_digit c) eqn:E; [|reflexivity]);
    apply digit_not_upper in E; congruence.
Qed.

Lemma last_char_app_cons a c t :
  last_char (a ++ String c t) = last_char (String c t).
Proof.
  induction a as [|x a IH]; [reflexivity|].
  change (String x a ++ String c t)%string with (String x (a ++ String c t)%string).
  destruct (a ++ String c t)%string as [|y u] eqn:E; [destruct a; discriminate|].
  rewrite last_char_cons. exact IH.
Qed.

Lemma closes_digits row : row_number row = true -> closes row = true.
Proof.
  intros Hrow. destruct (row_number_spec row Hrow) as (_ & Hd & d & t & -> & _).
  clear Hrow. revert d Hd. induction t as [|e t IH]; intros d Hd.
  - cbn in Hd. apply andb_true_iff in Hd as [Hd _]. unfold closes. cbn [last_char].
    rewrite (digit_not_upper d Hd).
    destruct (Ascii.eqb_spec d "$") as [->|]; [discriminate Hd|reflexivity].
  - rewrite closes_cons. apply IH. cbn [str_all] in Hd.
    now apply andb_true_iff in Hd as [_ Hd].
Qed.

Lemma closes_reference style col row :
  row_number row = true -> closes (reference style col row) = true.
Proof.
  intros Hrow. pose proof (closes_digits row Hrow) as Hc.
  destruct (row_number_spec row Hrow) as (_ & _ & d & t & E & _).
  assert (H : forall a, closes (a ++ row) = true).
  { intros a. unfold closes in *. rewrite E in *. now rewrite last_char_app_cons. }
  destruct style; unfold reference.
  - apply H.
  - rewrite <- append_assoc'. apply H.
  - rewrite <- append_assoc'. apply H.
  - rewrite <- !append_assoc'. apply H.
Qed.

(** X15: a reference to a column (capitals) and a row (digits), written in
    any of the four styles, is replaced by the placeholder of its style,
    whatever the column and the row are, wherever the text before it does
    not end with a capital or [$] and the text after it does not begin with
    a digit; the texts before and after are normalised on their own.  So two
    formulas that differ only in the columns and rows referred to have the
    same signature. *)
Theorem normalize_formula_reference style col row a b :
  column_name col = true -> row_number row = true ->
  closes a = true -> opens b = true ->
  normalize_formula (a ++ reference style col row ++ b) =
  (normalize_formula a ++ placeholder style ++ normalize_formula b)%string.
Proof.
  intros Hcol Hrow Ha Hb.
  destruct (normalize_formula_app a (reference style col row ++ b) Ha
              (opens_reference style col row b Hcol)) as [-> _].
  destruct (normalize_formula_app (reference style col row) b
              (closes_reference style col row Hrow) Hb) as [-> _].
  now rewrite normalize_formula_of_reference.
Qed.

Lemma normalize_formula_reference_witness :
  column_name "AB" = true /\ row_number "12" = true /\
  closes "=SUM(" = true /\ opens ":C7)" = true /\
  normalize_formula ("=SUM(" ++ reference RowAbsolute "AB" "12" ++ ":C7)") =
  ("=SUM(" ++ "{ROW_ABS}" ++ ":{REL})")%string.
Proof.
  split; [reflexivity|]. split; [reflexivity|].
  split; [reflexivity|]. split; [reflexivity|].
  exact (normalize_formula_reference RowAbsolute "AB" "12" "=SUM(" ":C7)"
           eq_refl eq_refl eq_refl eq_refl).
Defined.

(** X16: [normalize_formula] works on the two sides of a seam separately:
    when [a] does not end with a capital or [$] and [b] does not begin with
    a digit, the signature of [a ++ b] is the signature of [a] followed by
    the signature of [b]. *)
Theorem normalize_formula_concat a b :
  closes a = true -> opens b = true ->
  normalize_formula (a ++ b) = (normalize_formula a ++ normalize_formula b)%string.
Proof. intros Ha Hb. now destruct (normalize_formula_app a b Ha Hb). Qed.

Lemma normalize_formula_concat_witness :
  closes "=A1*" = true /\ opens "$B$2" = true /\
  normalize_formula ("=A1*" ++ "$B$2") = ("={REL}*" ++ "{ABS}")%string.
Proof.
  split; [reflexivity|]. split; [reflexivity|].
  exact (normalize_formula_concat "=A1*" "$B$2" eq_refl eq_refl).
Defined.

(** *** Nothing left to replace *)

Lemma has_rel_drop k : forall s, has_rel s = false -> has_rel (drop k s) = false.
Proof.
  induction k as [|k IH]; intros s H; [now rewrite drop_0|].
  destruct s as [|c s]; [reflexivity|]. cbn [drop]. apply IH.
  eapply has_rel_cons; eauto.
Qed.

Lemma normalize_formula_clean f :
  has_rel (normalize_formula f) = false /\ has_row_abs (normalize_formula f) = false.
Proof.
  rewrite normalize_formula_passes. split.
  - eapply has_rel_re_sub_rel; eauto.
  - eapply has_row_abs_re_sub_rel; eauto.
    eapply has_row_abs_re_sub_row_abs; eauto.
Qed.

Lemma no_match_anywhere s :
  has_rel s = false -> has_row_abs s = false ->
  forall k pass, In pass passes -> fst pass (drop k s) = None.
Proof.
  intros Hrel Hrow k pass Hin.
  pose proof (has_rel_drop k s Hrel) as H1.
  pose proof (has_row_abs_drop k s Hrow) as H2.
  cbn in Hin. repeat (destruct Hin as [<-|Hin]); [ | | | |destruct Hin]; cbn [fst].
  - destruct (match_abs (drop k s)) eqn:E; [|reflexivity].
    apply match_abs_has_row_abs in E. congruence.
  - destruct (match_col_abs (drop k s)) eqn:E; [|reflexivity].
    apply match_col_abs_has_rel in E. congruence.
  - destruct (match_row_abs (drop k s)) eqn:E; [|reflexivity].
    apply match_row_abs_has_row_abs in E. congruence.
  - destruct (match_rel (drop k s)) eqn:E; [|reflexivity].
    apply match_rel_has_rel in E. congruence.
Qed.

(** X17: in a signature nothing is left to replace: at no position of the
    result of [normalize_formula] does any of the four patterns match. *)
Theorem normalize_formula_no_reference_left f k :
  match_abs (drop k (normalize_formula f)) = None /\
  match_col_abs (drop k (normalize_formula f)) = None /\
  match_row_abs (drop k (normalize_formula f)) = None /\
  match_rel (drop k (normalize_formula f)) = None.
Proof.
  destruct (normalize_formula_clean f) as [Hrel Hrow].
  pose proof (no_match_anywhere _ Hrel Hrow k) as H.
  split; [apply (H (match_abs, "{ABS}")); cbn; auto|].
  split; [apply (H (match_col_abs, "{COL_ABS}")); cbn; auto|].
  split; [apply (H (match_row_abs, "{ROW_ABS}")); cbn; auto|].
  apply (H (match_rel, "{REL}")); cbn; auto 6.
Qed.

Lemma has_rel_match : forall s, has_rel s = true ->
  exists k, match_rel (drop k s) <> None.
Proof.
  induction s as [|a s IH]; [discriminate|].
  destruct s as [|b t]; [discriminate|]. rewrite has_rel_unfold.
  intros H. apply orb_true_iff in H as [H|H].
  - apply andb_true_iff in H as [Ha Hb]. exists 0. rewrite drop_0.
    unfold match_rel. cbn [run]. rewrite Ha.
    pose proof (digit_not_upper b Hb) as Hnb. rewrite Hnb. cbn [drop run].
    rewrite Hb. cbn. discriminate.
  - destruct (IH H) as [k Hk]. exists (S k). exact Hk.
Qed.

Lemma has_row_abs_match : forall s, has_row_abs s = true ->
  exists k, match_row_abs (drop k s) <> None.
Proof.
  induction s as [|a s IH]; [discriminate|].
  intros H.
  destruct (re_upper a) eqn:Ha.
  - destruct s as [|b t]; [discriminate|].
    destruct (Ascii.eqb_spec b "$") as [->|Hb].
    + destruct t as [|d u]; [discriminate|].
      destruct (re_digit d) eqn:Hd.
      * exists 0. rewrite drop_0. unfold match_row_abs. cbn [run]. rewrite Ha.
        change (re_upper "$") with false. cbv iota. cbn [drop run]. rewrite Hd.
        cbn. discriminate.
      * rewrite has_row_abs_unfold in H. rewrite Ha, Hd in H. cbn [andb orb] in H.
        destruct (IH H) as [k Hk]. exists (S k). exact Hk.
    + assert (H' : has_row_abs (String b t) = true).
      { rewrite has_row_abs_unfold in H.
        destruct b as [[] [] [] [] [] [] [] []]; try exact H; congruence. }
      destruct (IH H') as [k Hk]. exists (S k). exact Hk.
  - assert (H' : has_row_abs s = true).
    { rewrite has_row_abs_unfold in H. rewrite Ha in H.
      destruct s as [|b t]; [discriminate|].
      destruct (Ascii.eqb_spec b "$") as [->|Hb].
      - destruct t as [|d u]; exact H.
      - destruct b as [[] [] [] [] [] [] [] []]; try exact H; congruence. }
    destruct (IH H') as [k Hk]. exists (S k). exact Hk.
Qed.

(** X18: [normalize_formula] returns a formula unchanged exactly when neither
    [[A-Z]+\d+] nor [[A-Z]+\$\d+] matches anywhere in it. *)
Theorem normalize_formula_fixed_points f :
  normalize_formula f = f <->
  forall k, match_rel (drop k f) = None /\ match_row_abs (drop k f) = None.
Proof.
  split.
  - intros E k. destruct (normalize_formula_clean f) as [Hrel Hrow].
    rewrite E in Hrel, Hrow.
    split; [apply (no_match_anywhere f Hrel Hrow k (match_rel, "{REL}"))
           |apply (no_match_anywhere f Hrel Hrow k (match_row_abs, "{ROW_ABS}"))];
      cbn; auto 6.
  - intros H.
    assert (Hrel : has_rel f = false).
    { destruct (has_rel f) eqn:E; [|reflexivity].
      destruct (has_rel_match f E) as [k Hk]. destruct (H k) as [H1 _]. congruence. }
    assert (Hrow : has_row_abs f = false).
    { destruct (has_row_abs f) eqn:E; [|reflexivity].
      destruct (has_row_abs_match f E) as [k Hk]. destruct (H k) as [_ H2]. congruence. }
    rewrite normalize_formula_passes.
    rewrite (re_sub_id match_abs _ has_row_abs
               has_row_abs_cons match_abs_has_row_abs f Hrow).
    rewrite (re_sub_id match_col_abs _ has_rel
               has_rel_cons match_col_abs_has_rel f Hrel).
    rewrite (re_sub_id match_row_abs _ has_row_abs
               has_row_abs_cons match_row_abs_has_row_abs f Hrow).
    apply (re_sub_id match_rel _ has_rel has_rel_cons match_rel_has_rel f Hrel).
Qed.

End References.


(** ** [extract_spreadsheet_id] *)

Section SpreadsheetId.
Import Ident.

Lemma take_while_all p : forall s, str_all p (take_while p s) = true.
Proof.
  induction s as [|c s IH]; [reflexivity|]. cbn [take_while].
  destruct (p c) eqn:E; [|reflexivity]. cbn [str_all]. now rewrite E.
Qed.

Lemma take_while_app p b :
  match b with String c _ => p c = false | EmptyString => True end ->
  forall a, str_all p a = true -> take_while p (a ++ b) = a.
Proof.
  intros Hb. induction a as [|x a IH]; intros Ha.
  - destruct b as [|c b]; [reflexivity|]. cbn. now rewrite Hb.
  - cbn [str_all] in Ha. apply andb_true_iff in Ha as [Hx Ha].
    cbn [append take_while]. rewrite Hx. now rewrite IH.
Qed.

Lemma re_search_step c s :
  pattern (String c s) = None ->
  re_search pattern (String c s) = re_search pattern s.
Proof. intros H. cbn [re_search]. now rewrite H. Qed.

Lemma re_search_found s g : pattern s = Some g -> re_search pattern s = Some g.
Proof. intros H. destruct s; cbn [re_search]; now rewrite H. Qed.

Lemma pattern_slash c s g : pattern (String c s) = Some g -> c = "/"%char.
Proof.
  unfold pattern. cbn [starts_with].
  destruct (Ascii.eqb_spec c "/"); [auto|discriminate].
Qed.

Lemma no_slash_no_match : forall s,
  contains_char "/" s = false -> re_search pattern s = None.
Proof.
  unfold contains_char. induction s as [|c s IH]; [reflexivity|].
  cbn [str_exists]. intros H. apply orb_false_iff in H as [Hc H].
  destruct (pattern (String c s)) as [g|] eqn:E.
  - apply pattern_slash in E. subst. discriminate.
  - rewrite re_search_step by exact E. now apply IH.
Qed.

Lemma id_char_not_slash c : id_char c = true -> Ascii.eqb "/" c = false.
Proof. destruct c as [[] [] [] [] [] [] [] []]; try reflexivity; discriminate. Qed.

Lemma id_char_not_space c : id_char c = true -> isspace_char c = false.
Proof. destruct c as [[] [] [] [] [] [] [] []]; try reflexivity; discriminate. Qed.

Lemma id_chars_no_slash : forall s, str_all id_char s = true -> contains_char "/" s = false.
Proof.
  unfold contains_char. induction s as [|c s IH]; [reflexivity|].
  cbn [str_all str_exists]. intros H. apply andb_true_iff in H as [Hc H].
  now rewrite (id_char_not_slash c Hc), IH.
Qed.

Lemma rstrip_no_space : forall s,
  str_all (fun c => negb (isspace_char c)) s = true -> rstrip s = s.
Proof.
  induction s as [|c s IH]; [reflexivity|]. cbn [str_all rstrip].
  intros H. apply andb_true_iff in H as [Hc H]. apply negb_true_iff in Hc.
  now rewrite Hc, IH.
Qed.

Lemma strip_id_chars s : str_all id_char s = true -> strip s = s.
Proof.
  intros H.
  assert (Hs : str_all (fun c => negb (isspace_char c)) s = true).
  { induction s as [|c s IH]; [reflexivity|]. cbn [str_all] in *.
    apply andb_true_iff in H as [Hc H]. now rewrite (id_char_not_space c Hc), IH. }
  unfold strip. destruct s as [|c s]; [reflexivity|].
  cbn [str_all] in H. apply andb_true_iff in H as [Hc _].
  cbn [drop_while]. rewrite (id_char_not_space c Hc). now apply rstrip_no_space.
Qed.

Lemma extract_id_chars s :
  str_all id_char s = true -> extract_spreadsheet_id s = s.
Proof.
  intros H. unfold extract_spreadsheet_id.
  rewrite (no_slash_no_match s (id_chars_no_slash s H)). now apply strip_id_chars.
Qed.

Lemma re_search_group : forall s g,
  re_search pattern s = Some g -> identifier g = true.
Proof.
  induction s as [|c s IH]; intros g; cbn [re_search].
  - change (pattern "") with (@None string). discriminate.
  - destruct (pattern (String c s)) as [g'|] eqn:E; [|apply IH].
    intros [= <-]. unfold pattern in E.
    destruct (starts_with _ _) as [rest|]; [|discriminate]. cbv zeta in E.
    destruct (truthy (take_while id_char rest)) eqn:Et; [|discriminate].
    injection E as <-. unfold identifier. rewrite Et. apply take_while_all.
Qed.

Lemma starts_with_app w : forall prefix a rest,
  starts_with prefix a = Some rest ->
  starts_with prefix (a ++ w) = Some (rest ++ w)%string.
Proof.
  induction prefix as [|p prefix IH]; intros a rest; cbn [starts_with].
  - now intros [= ->].
  - destruct a as [|c a]; [discriminate|]. cbn [append].
    destruct (Ascii.eqb c p); [apply IH|discriminate].
Qed.

Lemma pattern_app a w g :
  pattern a = Some g -> exists g', pattern (a ++ w) = Some g'.
Proof.
  unfold pattern. destruct (starts_with _ a) as [rest|] eqn:E; [|discriminate].
  rewrite (starts_with_app w _ _ _ E). cbv zeta.
  destruct rest as [|c rest]; [discriminate|]. cbn [append take_while].
  destruct (id_char c); [|discriminate]. cbn [truthy]. eauto.
Qed.

Lemma re_search_app w : forall a g,
  re_search pattern a = Some g -> exists g', re_search pattern (a ++ w) = Some g'.
Proof.
  induction a as [|c a IH]; intros g; cbn [re_search].
  - change (pattern "") with (@None string). discriminate.
  - destruct (pattern (String c a)) as [g0|] eqn:E.
    + intros _. destruct (pattern_app _ w _ E) as [g' Hg'].
      exists g'. now apply re_search_found.
    + intros H. destruct (IH _ H) as [g' Hg'].
      cbn [append re_search].
      destruct (pattern (String c (a ++ w))) as [g1|]; eauto.
Qed.

Lemma re_search_tail c s :
  re_search pattern (String c s) = None -> re_search pattern s = None.
Proof. cbn [re_search]. destruct (pattern (String c s)); [discriminate|auto]. Qed.

Lemma re_search_lstrip : forall s,
  re_search pattern s = None ->
  re_search pattern (drop_while isspace_char s) = None.
Proof.
  induction s as [|c s IH]; intros H; [exact H|]. cbn [drop_while].
  destruct (isspace_char c); [|exact H]. apply IH. eapply re_search_tail; eauto.
Qed.

Lemma rstrip_prefix : forall s, exists w, s = (rstrip s ++ w)%string.
Proof.
  induction s as [|c s [w IH]]; [now exists ""|]. cbn [rstrip].
  destruct (isspace_char c && negb (truthy (rstrip s))).
  - now exists (String c s).
  - exists w. cbn [append]. now rewrite <- IH.
Qed.

Lemma re_search_rstrip s :
  re_search pattern s = None -> re_search pattern (rstrip s) = None.
Proof.
  intros H. destruct (re_search pattern (rstrip s)) as [g|] eqn:E; [|reflexivity].
  destruct (rstrip_prefix s) as [w Hw].
  destruct (re_search_app w _ _ E) as [g' Hg']. rewrite <- Hw in Hg'. congruence.
Qed.

Lemma rstrip_twice : forall s, rstrip (rstrip s) = rstrip s.
Proof.
  induction s as [|c s IH]; [reflexivity|]. cbn [rstrip].
  destruct (isspace_char c && negb (truthy (rstrip s))) eqn:E; [reflexivity|].
  cbn [rstrip]. now rewrite IH, E.
Qed.

Lemma drop_while_head p : forall s,
  match drop_while p s with String c _ => p c = false | EmptyString => True end.
Proof.
  induction s as [|c s IH]; [exact I|]. cbn [drop_while].
  destruct (p c) eqn:E; [exact IH|exact E].
Qed.

Lemma strip_twice s : strip (strip s) = strip s.
Proof.
  unfold strip. pose proof (drop_while_head isspace_char s) as Hh.
  destruct (drop_while isspace_char s) as [|c t]; [reflexivity|].
  cbn [rstrip]. rewrite Hh. cbn [andb drop_while]. rewrite Hh.
  cbn [rstrip]. rewrite Hh. cbn [andb]. now rewrite rstrip_twice.
Qed.

Lemma identifier_spec g :
  identifier g = true -> g <> "" /\ str_all id_char g = true.
Proof.
  unfold identifier. intros H. apply andb_true_iff in H as [H1 H2].
  split; [|exact H2]. destruct g; [discriminate|discriminate].
Qed.

(** X19: [extract_spreadsheet_id] reads an identifier back from the URL the
    reports print for it, also when the URL goes on after the identifier
    (with [/edit], say), and returns an identifier given as such unchanged. *)
Theorem extract_spreadsheet_id_of_url id rest :
  identifier id = true -> ends_identifier rest = true ->
  extract_spreadsheet_id (spreadsheet_url id ++ rest) = id /\
  extract_spreadsheet_id id = id.
Proof.
  intros Hid Hrest. destruct (identifier_spec id Hid) as [Hne Hall].
  split; [|now apply extract_id_chars].
  unfold extract_spreadsheet_id, spreadsheet_url.
  rewrite append_assoc'.
  change ("https://docs.google.com/spreadsheets/d/" ++ id ++ rest)%string
    with ("https://docs.google.com" ++ "/spreadsheets/d/" ++ id ++ rest)%string.
  cbn [append].
  repeat (rewrite re_search_step by reflexivity).
  rewrite (re_search_found _ id); [reflexivity|].
  unfold pattern. cbn [starts_with Ascii.eqb Bool.eqb]. cbv zeta.
  rewrite take_while_app.
  - destruct id; [congruence|reflexivity].
  - destruct rest as [|c rest]; [exact I|]. cbn in Hrest.
    now apply negb_true_iff in Hrest.
  - exact Hall.
Qed.

Lemma extract_spreadsheet_id_of_url_witness :
  identifier "1aB-c_9" = true /\ ends_identifier "/edit#gid=0" = true /\
  extract_spreadsheet_id
    (spreadsheet_url "1aB-c_9" ++ "/edit#gid=0") = "1aB-c_9" /\
  extract_spreadsheet_id "1aB-c_9" = "1aB-c_9".
Proof.
  split; [reflexivity|]. split; [reflexivity|].
  exact (extract_spreadsheet_id_of_url "1aB-c_9" "/edit#gid=0" eq_refl eq_refl).
Defined.

(** X20: what [extract_spreadsheet_id] returns is stable: extracting from
    the result gives the result again, and the result has no whitespace at
    either end. *)
Theorem extract_spreadsheet_id_idempotent url_or_id :
  extract_spreadsheet_id (extract_spreadsheet_id url_or_id) =
  extract_spreadsheet_id url_or_id /\
  strip (extract_spreadsheet_id url_or_id) = extract_spreadsheet_id url_or_id.
Proof.
  destruct (re_search pattern url_or_id) as [g|] eqn:E.
  - assert (Hx : extract_spreadsheet_id url_or_id = g)
      by (unfold extract_spreadsheet_id; now rewrite E).
    rewrite Hx.
    apply re_search_group in E. destruct (identifier_spec g E) as [_ Hall].
    split; [now apply extract_id_chars|now apply strip_id_chars].
  - assert (Hx : extract_spreadsheet_id url_or_id = strip url_or_id)
      by (unfold extract_spreadsheet_id; now rewrite E).
    rewrite Hx. split; [|apply strip_twice].
    unfold extract_spreadsheet_id.
    assert (H : re_search pattern (strip url_or_id) = None).
    { unfold strip. now apply re_search_rstrip, re_search_lstrip. }
    rewrite H. apply strip_twice.
Qed.

End SpreadsheetId.


(** ** Cell types *)

Section CellTypes.

(** X21: [get_cell_type] returns one of seven names.  A cell from which
    [extract_dropdown_options] gets options is typed [dropdown]; a cell from
    which [extract_formula] gets a formula is typed [formula] unless its
    data validation makes it a [checkbox] or a [dropdown], and never
    [number], [text], [boolean] or [empty]; and a cell typed [formula] has a
    formula. *)
Theorem cell_type_consistency cell_data :
  In (Cells.get_cell_type cell_data)
     ["checkbox"; "dropdown"; "formula"; "number"; "text"; "boolean"; "empty"] /\
  (forall options,
     Cells.extract_dropdown_options cell_data = Some options ->
     Cells.get_cell_type cell_data = "dropdown") /\
  (forall f,
     extract_formula (Cells.cell_of cell_data) = Some f ->
     In (Cells.get_cell_type cell_data) ["checkbox"; "dropdown"; "formula"]) /\
  (Cells.get_cell_type cell_data = "formula" ->
   exists f, extract_formula (Cells.cell_of cell_data) = Some f).
Proof.
  unfold Cells.get_cell_type, Cells.extract_dropdown_options, extract_formula,
    Cells.cell_of. cbn [userEnteredValue].
  assert (Hv : Cells.validation_type cell_data = None \/
               Cells.validation_type cell_data = Some "checkbox" \/
               Cells.validation_type cell_data = Some "dropdown").
  { unfold Cells.validation_type.
    destruct (Cells.dataValidation cell_data) as [validation|]; [|auto].
    destruct (Cells.condition validation) as [cond|]; [|auto].
    cbv zeta. destruct (String.eqb _ "BOOLEAN"); [auto|].
    destruct (existsb _ _); auto. }
  assert (Hp : Cells.plain_type cell_data = None \/
               Cells.plain_type cell_data = Some "number" \/
               Cells.plain_type cell_data = Some "text" \/
               Cells.plain_type cell_data = Some "boolean").
  { unfold Cells.plain_type.
    destruct (Cells.effectiveValue cell_data) as [effective|]; [|auto].
    destruct (Cells.numberValue effective); [auto|].
    destruct (Cells.stringValue effective); [auto|].
    destruct (Cells.boolValue effective); auto. }
  assert (Hd : forall options,
            match Cells.dataValidation cell_data with
            | Some validation =>
                match Cells.condition validation with
                | Some cond =>
                    match Cells.type cond with
                    | Some t =>
                        if existsb (String.eqb t) ["ONE_OF_LIST"]
                        then match Cells.values cond with
                             | Some vs =>
                                 Some (map (fun v =>
                                              Cells.get (Cells.userEnteredValue v) "") vs)
                             | None => None
                             end
                        else None
                    | None => None
                    end
                | None => None
                end
            | None => None
            end = Some options ->
            Cells.validation_type cell_data = Some "dropdown").
  { intros options. unfold Cells.validation_type.
    destruct (Cells.dataValidation cell_data) as [validation|]; [|discriminate].
    destruct (Cells.condition validation) as [cond|]; [|discriminate].
    destruct (Cells.type cond) as [t|]; [|discriminate].
    cbn [existsb Cells.get]. cbv zeta.
    destruct (String.eqb_spec t "ONE_OF_LIST") as [->|]; [|discriminate].
    reflexivity. }
  unfold Cells.formula_type.
  split; [|split; [|split]].
  - destruct Hv as [Hv|[Hv|Hv]]; rewrite Hv; cbn; auto.
    destruct (Cells.userEntered cell_data) as [user_value|].
    + destruct (formulaValue user_value); cbn; auto.
      destruct Hp as [Hp|[Hp|[Hp|Hp]]]; rewrite Hp; cbn; auto 8.
    + destruct Hp as [Hp|[Hp|[Hp|Hp]]]; rewrite Hp; cbn; auto 8.
  - intros options H. now rewrite (Hd options H).
  - intros f Hf. destruct Hv as [Hv|[Hv|Hv]]; rewrite Hv; cbn; auto.
    destruct (Cells.userEntered cell_data) as [user_value|]; [|discriminate].
    rewrite Hf. cbn. auto.
  - destruct Hv as [Hv|[Hv|Hv]]; rewrite Hv; try discriminate.
    destruct (Cells.userEntered cell_data) as [user_value|].
    + destruct (formulaValue user_value) as [f|]; [eauto|].
      destruct Hp as [Hp|[Hp|[Hp|Hp]]]; rewrite Hp; discriminate.
    + destruct Hp as [Hp|[Hp|[Hp|Hp]]]; rewrite Hp; discriminate.
Qed.

End CellTypes.


(** ** [is_date] *)

Section DateShapes.
Local Open Scope nat_scope.

Lemma eat_digit_some s r :
  eat_digit s = Some r <-> exists c, s = String c r /\ re_digit c = true.
Proof.
  unfold eat_digit. destruct s as [|c s].
  - split; [discriminate|]. intros (c & H & _). discriminate.
  - destruct (re_digit c) eqn:E; split.
    + intros [= <-]. eauto.
    + intros (c' & [= <- <-] & _). reflexivity.
    + discriminate.
    + intros (c' & [= <- <-] & H). congruence.
Qed.

Lemma eat_char_some ch s r :
  eat_char ch s = Some r <-> s = String ch r.
Proof.
  unfold eat_char. destruct s as [|c s]; [split; discriminate|].
  destruct (Ascii.eqb_spec c ch) as [->|Hne]; split.
  - now intros [= <-].
  - now intros [= <-].
  - discriminate.
  - intros [= E _]. congruence.
Qed.

Lemma eat_digits_some n : forall s r,
  eat_digits n s = Some r <->
  exists d, digits_between n n d /\ s = (d ++ r)%string.
Proof.
  unfold digits_between.
  induction n as [|n IH]; intros s r; cbn [eat_digits].
  - split.
    + intros [= <-]. exists "". cbn. auto.
    + intros (d & [Hl _] & ->). destruct d; [reflexivity|cbn in Hl; lia].
  - unfold option_bind. destruct (eat_digit s) as [s1|] eqn:E.
    + apply eat_digit_some in E as (c & -> & Hc). rewrite IH. split.
      * intros (d & [Hl Hd] & ->). exists (String c d). cbn [String.length str_all append].
        rewrite Hc, Hd. repeat split; auto; lia.
      * intros (d & [Hl Hd] & E). destruct d as [|c' d]; [cbn in Hl; lia|].
        cbn [append] in E. injection E as <- ->. exists d.
        cbn [String.length str_all] in *. apply andb_true_iff in Hd as [_ Hd].
        repeat split; auto; lia.
    + split; [discriminate|]. intros (d & [Hl Hd] & ->).
      destruct d as [|c d]; [cbn in Hl; lia|].
      cbn [str_all] in Hd. apply andb_true_iff in Hd as [Hc _].
      cbn [append eat_digit] in E. rewrite Hc in E. discriminate.
Qed.

(** [\d{1,2}] followed by a separator that is not a digit. *)
Lemma eat_digits_1_2_some sep s r :
  re_digit sep = false ->
  (option_bind (eat_digits_1_2 s) (eat_char sep) = Some r <->
   exists d, digits_between 1 2 d /\ s = (d ++ String sep r)%string).
Proof.
  intros Hsep. unfold digits_between, eat_digits_1_2.
  assert (Hno : forall t, eat_digit (String sep t) = None).
  { intros t. cbn. now rewrite Hsep. }
  split.
  - destruct (eat_digit s) as [s1|] eqn:E1; [|discriminate].
    apply eat_digit_some in E1 as (c1 & -> & Hc1).
    destruct (eat_digit s1) as [s2|] eqn:E2; cbn [option_bind].
    + apply eat_digit_some in E2 as (c2 & -> & Hc2).
      intros H. apply eat_char_some in H as ->.
      exists (String c1 (String c2 "")). cbn [String.length str_all append].
      split; [split; [lia|]|reflexivity]. rewrite Hc1. rewrite Hc2. reflexivity.
    + intros H. apply eat_char_some in H as ->.
      exists (String c1 ""). cbn [String.length str_all append].
      split; [split; [lia|]|reflexivity]. rewrite Hc1. reflexivity.
  - intros (d & [Hl Hd] & ->).
    destruct d as [|c1 [|c2 [|c3 d]]]; cbn in Hl; try lia.
    + cbn [str_all] in Hd. apply andb_true_iff in Hd as [Hc1 _].
      cbn [append eat_digit]. rewrite Hc1, Hno. cbn [option_bind].
      apply eat_char_some. reflexivity.
    + cbn [str_all] in Hd. apply andb_true_iff in Hd as [Hc1 Hd].
      apply andb_true_iff in Hd as [Hc2 _].
      cbn [append eat_digit]. rewrite Hc1. cbn [eat_digit]. rewrite Hc2.
      cbn [option_bind].
      apply eat_char_some. reflexivity.
Qed.

Lemma at_end_spec r : at_end r = true <-> r = "" \/ r = newline.
Proof.
  unfold at_end, newline. destruct r as [|c [|c' r]].
  - split; auto.
  - destruct (Ascii.eqb_spec c "010") as [->|Hne]; split; auto.
    + discriminate.
    + intros [H|[= H]]; [discriminate|contradiction].
  - split; [discriminate|]. intros [H|H]; discriminate.
Qed.

Lemma day_first_pattern sep s r :
  re_digit sep = false ->
  (option_bind (eat_digits_1_2 s) (fun s =>
   option_bind (eat_char sep s) (fun s =>
   option_bind (eat_digits_1_2 s) (fun s =>
   option_bind (eat_char sep s) (fun s =>
   eat_digits 4 s)))) = Some r <->
   exists body, day_first (String sep "") body /\ s = (body ++ r)%string).
Proof.
  intros Hsep. split.
  - intros H.
    destruct (option_bind (eat_digits_1_2 s) (eat_char sep)) as [s1|] eqn:E1.
    2:{ unfold option_bind in *. destruct (eat_digits_1_2 s); [|discriminate].
        destruct (eat_char sep s0); discriminate. }
    assert (H1 : option_bind (eat_digits_1_2 s1) (fun s =>
                 option_bind (eat_char sep s) (fun s => eat_digits 4 s)) = Some r).
    { unfold option_bind in *. destruct (eat_digits_1_2 s); [|discriminate].
      destruct (eat_char sep s0); [|discriminate]. now injection E1 as <-. }
    destruct (option_bind (eat_digits_1_2 s1) (eat_char sep)) as [s2|] eqn:E2.
    2:{ unfold option_bind in *. destruct (eat_digits_1_2 s1); [|discriminate].
        destruct (eat_char sep s0); discriminate. }
    assert (H2 : eat_digits 4 s2 = Some r).
    { unfold option_bind in *. destruct (eat_digits_1_2 s1); [|discriminate].
      destruct (eat_char sep s0); [|discriminate]. now injection E2 as <-. }
    apply (eat_digits_1_2_some sep) in E1 as (d & Hd & ->); [|exact Hsep].
    apply (eat_digits_1_2_some sep) in E2 as (m & Hm & ->); [|exact Hsep].
    apply eat_digits_some in H2 as (y & Hy & ->).
    exists (d ++ String sep "" ++ m ++ String sep "" ++ y)%string. split.
    + exists d, m, y. auto.
    + cbn [append]. rewrite !append_assoc'. cbn [append].
      rewrite !append_assoc'. reflexivity.
  - intros (body & (d & m & y & Hd & Hm & Hy & ->) & ->).
    assert (E1 : option_bind (eat_digits_1_2
                   ((d ++ String sep "" ++ m ++ String sep "" ++ y) ++ r))
                   (eat_char sep) = Some (m ++ String sep (y ++ r))%string).
    { apply eat_digits_1_2_some; [exact Hsep|]. exists d. split; [exact Hd|].
      cbn [append]. rewrite !append_assoc'. cbn [append].
      rewrite !append_assoc'. reflexivity. }
    assert (E2 : option_bind (eat_digits_1_2 (m ++ String sep (y ++ r)))
                   (eat_char sep) = Some (y ++ r)%string).
    { apply eat_digits_1_2_some; [exact Hsep|]. exists m. auto. }
    assert (E3 : eat_digits 4 (y ++ r) = Some r).
    { apply eat_digits_some. exists y. auto. }
    unfold option_bind in *.
    destruct (eat_digits_1_2 _) as [t1|]; [|discriminate].
    destruct (eat_char sep t1) as [t2|]; [|discriminate]. injection E1 as ->.
    destruct (eat_digits_1_2 _) as [t3|]; [|discriminate].
    destruct (eat_char sep t3) as [t4|]; [|discriminate]. injection E2 as ->.
    exact E3.
Qed.

Lemma date_iso_pattern s r :
  date_iso s = Some r <-> exists body, year_first body /\ s = (body ++ r)%string.
Proof.
  unfold date_iso, year_first. split.
  - intros H. unfold option_bind in H.
    destruct (eat_digits 4 s) as [s1|] eqn:E1; [|discriminate].
    destruct (eat_char "-" s1) as [s2|] eqn:E2; [|discriminate].
    destruct (eat_digits 2 s2) as [s3|] eqn:E3; [|discriminate].
    destruct (eat_char "-" s3) as [s4|] eqn:E4; [|discriminate].
    apply eat_digits_some in E1 as (y & Hy & ->).
    apply eat_char_some in E2 as ->.
    apply eat_digits_some in E3 as (m & Hm & ->).
    apply eat_char_some in E4 as ->.
    apply eat_digits_some in H as (d & Hd & ->).
    exists (y ++ "-" ++ m ++ "-" ++ d)%string. split.
    + exists y, m, d. auto.
    + cbn [append]. rewrite !append_assoc'. cbn [append].
      rewrite !append_assoc'. reflexivity.
  - intros (body & (y & m & d & Hy & Hm & Hd & ->) & ->).
    assert (E1 : eat_digits 4 ((y ++ "-" ++ m ++ "-" ++ d) ++ r)
                 = Some (String "-" (m ++ String "-" (d ++ r)))%string).
    { apply eat_digits_some. exists y. split; [exact Hy|].
      cbn [append]. rewrite !append_assoc'. cbn [append].
      rewrite !append_assoc'. reflexivity. }
    assert (E3 : eat_digits 2 (m ++ String "-" (d ++ r))
                 = Some (String "-" (d ++ r))).
    { apply eat_digits_some. exists m. auto. }
    assert (E5 : eat_digits 2 (d ++ r) = Some r).
    { apply eat_digits_some. exists d. auto. }
    unfold option_bind. rewrite E1. cbn [eat_char]. rewrite Ascii.eqb_refl.
    rewrite E3. cbn [eat_char]. rewrite Ascii.eqb_refl. exact E5.
Qed.

(** X22: [is_date] accepts exactly the strings of the shapes [d/m/yyyy],
    [yyyy-mm-dd] and [d-m-yyyy] (day and month of one or two digits in the
    first and the last, of two digits in the second; any digits, there is no
    check of the calendar), optionally followed by one newline. *)
Theorem is_date_shapes value :
  is_date value = true <->
  exists body,
    (value = body \/ value = (body ++ newline)%string) /\
    (day_first "/" body \/ year_first body \/ day_first "-" body).
Proof.
  assert (Hm : forall pat (shape : string -> Prop),
            (forall s r, pat s = Some r <->
                         exists body, shape body /\ s = (body ++ r)%string) ->
            (re_match pat value = true <->
             exists body, (value = body \/ value = (body ++ newline)%string) /\
                          shape body)).
  { intros pat shape Hpat. unfold re_match. split.
    - destruct (pat value) as [r|] eqn:E; [|discriminate].
      intros Hr. apply at_end_spec in Hr.
      apply Hpat in E as (body & Hb & ->). exists body. split; [|exact Hb].
      destruct Hr as [Hr|Hr]; rewrite Hr; [left|right; reflexivity].
      clear. induction body as [|c b IH]; [reflexivity|]. cbn. now rewrite IH.
    - intros (body & Hv & Hb).
      assert (E : exists r, pat value = Some r /\ at_end r = true).
      { destruct Hv as [Hv|Hv]; rewrite Hv.
        - exists "". split; [|reflexivity]. apply Hpat. exists body. split; [exact Hb|].
          clear. induction body as [|c b IH]; [reflexivity|]. cbn. now rewrite <- IH.
        - exists newline. split; [|reflexivity]. apply Hpat. eauto. }
      destruct E as (r & -> & Hr). exact Hr. }
  pose proof (Hm date_slashes (day_first "/")
                (fun s r => day_first_pattern "/" s r eq_refl)) as H1.
  pose proof (Hm date_iso year_first date_iso_pattern) as H2.
  pose proof (Hm date_dashes (day_first "-")
                (fun s r => day_first_pattern "-" s r eq_refl)) as H3.
  unfold is_date, date_patterns. cbn [existsb]. rewrite orb_false_r.
  destruct value as [|c v].
  - cbn [truthy negb]. split; [discriminate|].
    intros (body & [Hv|Hv] & Hb).
    + subst body. destruct Hb as [Hb|[Hb|Hb]];
        destruct Hb as (a & b & e & [Ha _] & _ & _ & E);
        destruct a; cbn in Ha; try lia; discriminate.
    + destruct body; discriminate.
  - cbn [truthy negb]. rewrite !orb_true_iff, H1, H2, H3. split.
    + intros [(b & ? & ?)|[(b & ? & ?)|(b & ? & ?)]]; exists b; auto.
    + intros (b & Hv & [Hb|[Hb|Hb]]); [left|right; left|right; right]; eauto.
Qed.

End DateShapes.

